(** * Crypto Alert: technical indicators and alert rules

    A shallow embedding of the indicator library ([indicators_module.js]),
    of the indicator aggregator and rule engine of [timeframes_module.js]
    and of the per-price alert loop of [api.js]; then of what surrounds
    them: the cache of historical candles and the batches of
    [timeframes_module.js], the price caches, the Binance reader, the
    timeframe setting and the simulated candles of [api.js], and the
    exchange-rate cache of [price_display.js].

    Numbers.  A JavaScript number is modelled by [jsnum]: an exact rational,
    one of the two infinities, or NaN.  Finite arithmetic is exact (no
    rounding error, no overflow, one zero); the special values follow
    IEEE 754 as JavaScript does, so that [0/0] is NaN and [x/0] is an
    infinity.  [parseFloat(x.toFixed(d))] rounds a finite number to [d]
    decimals, ties away from zero.

    Values.  [jsval] adds [null] and [undefined], with JavaScript's
    conversions in comparisons and arithmetic ([null] is [0], [undefined]
    is NaN).

    Arrays are lists indexed by integers; reading outside the array gives
    [undefined].  A [for] loop over [lo <= i < hi] is a fold over
    [range lo hi]. *)

From Stdlib Require Import String ZArith QArith Qround Qabs List Bool Lia Lqa.
From Stdlib Require Import Permutation Sorted Ascii.
Import ListNotations.

Open Scope Z_scope.

(* ================================================================== *)
(** ** JavaScript numbers, values and arrays *)
(* ================================================================== *)

Module JS.

Inductive jsnum : Type :=
| Fin (q : Q)
| PInf
| NInf
| NaN.

Inductive jsval : Type :=
| JNum (x : jsnum)
| JNull
| JUndef.

Definition Qltb (a b : Q) : bool := negb (Qle_bool b a).

Definition inf_of (positive : bool) : jsnum := if positive then PInf else NInf.

Definition jneg (a : jsnum) : jsnum :=
  match a with
  | Fin x => Fin (- x)
  | PInf => NInf
  | NInf => PInf
  | NaN => NaN
  end.

Definition jadd (a b : jsnum) : jsnum :=
  match a, b with
  | NaN, _ | _, NaN => NaN
  | Fin x, Fin y => Fin (x + y)
  | PInf, NInf | NInf, PInf => NaN
  | PInf, _ | _, PInf => PInf
  | NInf, _ | _, NInf => NInf
  end.

Definition jsub (a b : jsnum) : jsnum :=
  match a, b with
  | Fin x, Fin y => Fin (x - y)
  | _, _ => jadd a (jneg b)
  end.

Definition jmul (a b : jsnum) : jsnum :=
  match a, b with
  | NaN, _ | _, NaN => NaN
  | Fin x, Fin y => Fin (x * y)
  | Fin x, PInf | PInf, Fin x =>
      if Qeq_bool x 0 then NaN else inf_of (Qltb 0 x)
  | Fin x, NInf | NInf, Fin x =>
      if Qeq_bool x 0 then NaN else inf_of (Qltb x 0)
  | PInf, PInf | NInf, NInf => PInf
  | PInf, NInf | NInf, PInf => NInf
  end.

Definition jdiv (a b : jsnum) : jsnum :=
  match a, b with
  | NaN, _ | _, NaN => NaN
  | Fin x, Fin y =>
      if Qeq_bool y 0
      then (if Qeq_bool x 0 then NaN else inf_of (Qltb 0 x))
      else Fin (x / y)
  | Fin _, PInf | Fin _, NInf => Fin 0
  | PInf, Fin y => inf_of (Qle_bool 0 y)
  | NInf, Fin y => inf_of (Qltb y 0)
  | _, _ => NaN
  end.

(** [Math.abs] *)
Definition jabs (a : jsnum) : jsnum :=
  match a with
  | Fin x => Fin (Qabs x)
  | PInf | NInf => PInf
  | NaN => NaN
  end.

(** [a < b] on numbers; every comparison with NaN is false. *)
Definition jlt (a b : jsnum) : bool :=
  match a, b with
  | NaN, _ | _, NaN => false
  | Fin x, Fin y => Qltb x y
  | _, NInf => false
  | NInf, _ => true
  | PInf, _ => false
  | Fin _, PInf => true
  end.

Definition jle (a b : jsnum) : bool :=
  match a, b with
  | NaN, _ | _, NaN => false
  | Fin x, Fin y => Qle_bool x y
  | NInf, _ => true
  | _, PInf => true
  | PInf, _ => false
  | Fin _, NInf => false
  end.

Definition jgt (a b : jsnum) : bool := jlt b a.
Definition jge (a b : jsnum) : bool := jle b a.

(** [a === b] on numbers. *)
Definition jeq (a b : jsnum) : bool :=
  match a, b with
  | Fin x, Fin y => Qeq_bool x y
  | PInf, PInf | NInf, NInf => true
  | _, _ => false
  end.

(** [Math.max(a, b)] and [Math.min(a, b)]; NaN is contagious. *)
Definition jmax (a b : jsnum) : jsnum :=
  match a, b with
  | NaN, _ | _, NaN => NaN
  | _, _ => if jlt a b then b else a
  end.

Definition jmin (a b : jsnum) : jsnum :=
  match a, b with
  | NaN, _ | _, NaN => NaN
  | _, _ => if jlt b a then b else a
  end.

(** [Math.max(...xs)] and [Math.min(...xs)]: the empty spread gives the
    neutral infinity. *)
Definition math_max (xs : list jsnum) : jsnum := fold_left jmax xs NInf.
Definition math_min (xs : list jsnum) : jsnum := fold_left jmin xs PInf.

(** Nearest integer, ties away from zero: the digit choice of [toFixed]. *)
Definition Qround_away (q : Q) : Z :=
  if Qle_bool 0 q then Qfloor (q + (1 # 2)) else - Qfloor (- q + (1 # 2)).

Definition pow10 (d : nat) : positive := Z.to_pos (10 ^ Z.of_nat d).

Definition roundQ (d : nat) (q : Q) : Q :=
  Qmake (Qround_away (q * inject_Z (Zpos (pow10 d)))) (pow10 d).

(** [parseFloat(x.toFixed(d))] *)
Definition toFixed (d : nat) (a : jsnum) : jsnum :=
  match a with
  | Fin x => Fin (roundQ d x)
  | _ => a
  end.

(** A finite number with at most [d] decimals. *)
Definition is_decimal (d : nat) (q : Q) : bool :=
  (Qnum q * Zpos (pow10 d)) mod (Zpos (Qden q)) =? 0.

Definition of_Z (z : Z) : jsnum := Fin (inject_Z z).

(** *** Values *)

Definition toNumber (v : jsval) : jsnum :=
  match v with
  | JNum x => x
  | JNull => Fin 0
  | JUndef => NaN
  end.

(** Truthiness, as tested by [!v], [v || w] and [if (v)]. *)
Definition num_truthy (a : jsnum) : bool :=
  match a with
  | Fin x => negb (Qeq_bool x 0)
  | NaN => false
  | _ => true
  end.

Definition truthy (v : jsval) : bool :=
  match v with
  | JNum x => num_truthy x
  | _ => false
  end.

(** [v || w] *)
Definition jor (v w : jsval) : jsval := if truthy v then v else w.

(** [v !== null] *)
Definition not_null (v : jsval) : bool :=
  match v with JNull => false | _ => true end.

Definition vlt (v w : jsval) : bool := jlt (toNumber v) (toNumber w).
Definition vgt (v w : jsval) : bool := jgt (toNumber v) (toNumber w).

(** *** Arrays *)

Definition alen {A : Type} (l : list A) : Z := Z.of_nat (length l).

(** [l[i]]; [None] stands for [undefined]. *)
Definition aget {A : Type} (l : list A) (i : Z) : option A :=
  if i <? 0 then None else nth_error l (Z.to_nat i).

(** [l[i]] used as a number. *)
Definition anum (l : list jsnum) (i : Z) : jsnum :=
  match aget l i with Some x => x | None => NaN end.

(** [l[i]] used as a value. *)
Definition aval (l : list jsval) (i : Z) : jsval :=
  match aget l i with Some v => v | None => JUndef end.

(** [l[l.length - 1]] *)
Definition last_val (l : list jsval) : jsval := aval l (alen l - 1).

(** The indices [lo, lo+1, ..., hi-1] visited by
    [for (let i = lo; i < hi; i++)]. *)
Definition range (lo hi : Z) : list Z :=
  map (fun k => lo + Z.of_nat k) (seq 0 (Z.to_nat (hi - lo))).

(** A relative index of [slice]: negative counts from the end. *)
Definition rel_index (len k : Z) : Z :=
  if k <? 0 then Z.max (len + k) 0 else Z.min k len.

(** [l.slice(s, e)] *)
Definition slice {A : Type} (l : list A) (s e : Z) : list A :=
  let from := rel_index (alen l) s in
  let to := rel_index (alen l) e in
  firstn (Z.to_nat (to - from)) (skipn (Z.to_nat from) l).

(** [l.slice(s)] *)
Definition slice_from {A : Type} (l : list A) (s : Z) : list A :=
  slice l s (alen l).

(** [l.reduce((sum, x) => sum + x, 0)] *)
Definition sum (l : list jsnum) : jsnum := fold_left jadd l (Fin 0).

(** [Array(n).fill(x)] for [0 <= n]. *)
Definition fill {A : Type} (n : Z) (x : A) : list A := repeat x (Z.to_nat n).

(** *** Exceptions *)

Inductive exn : Type :=
| Error (message : string).

Definition message_of (e : exn) : string :=
  match e with Error message => message end.

Inductive result (A : Type) : Type :=
| Ok (a : A)
| Throw (e : exn).

Arguments Ok {A} a.
Arguments Throw {A} e.

Definition bind {A B : Type} (c : result A) (k : A -> result B) : result B :=
  match c with
  | Ok a => k a
  | Throw e => Throw e
  end.

(** [try { c } catch (error) { h error }] *)
Definition try_catch {A : Type} (c : result A) (h : exn -> A) : A :=
  match c with
  | Ok a => a
  | Throw e => h e
  end.

End JS.

Import JS.

Notation "x <- c ;; k" := (bind c (fun x => k))
  (at level 61, c at next level, right associativity).

Coercion Fin : Q >-> jsnum.

(* ================================================================== *)
(** ** The indicator library ([indicators_module.js]) *)
(* ================================================================== *)

(** Every [period], [lookback] and the like is a positive integer, as at
    each call site (9, 12, 14, 20, 26, 30, 50, 200). *)

Module Indicators.

(** A candle [{ open, high, low, close, volume }]; its timestamp is never
    read by the functions below. *)
Record Candle : Type := mkCandle {
  open : jsnum;
  high : jsnum;
  low : jsnum;
  close : jsnum;
  volume : jsnum
}.

(** [prices[i]] on an array of candles.  Every loop below reads inside the
    array; outside it the fields read as NaN. *)
Definition cand (prices : list Candle) (i : Z) : Candle :=
  match aget prices i with
  | Some c => c
  | None => mkCandle NaN NaN NaN NaN NaN
  end.

(** *** RSI *)

(** [changes]: [prices[i] - prices[i - 1]] for [i] from 1. *)
Definition price_changes (prices : list jsnum) : list jsnum :=
  map (fun i => jsub (anum prices i) (anum prices (i - 1)))
      (range 1 (alen prices)).

Definition gain_of (change : jsnum) : jsnum :=
  if jgt change (Fin 0) then change else Fin 0.

Definition loss_of (change : jsnum) : jsnum :=
  if jlt change (Fin 0) then jabs change else Fin 0.

(** One step of Wilder's smoothing:
    [avg = ((avg * (period - 1)) + x) / period]. *)
Definition wilder_step (period : Z) (avg x : jsnum) : jsnum :=
  jdiv (jadd (jmul avg (of_Z (period - 1))) x) (of_Z period).

Definition calculateRSI (prices : list jsnum) (period : Z) : jsval :=
  if alen prices <? period + 1 then JNull
  else
    let changes := price_changes prices in
    let allSame := forallb (fun change => jeq change (Fin 0)) changes in
    if allSame then JNum (Fin 50)
    else
      let gains := map gain_of changes in
      let losses := map loss_of changes in
      let allGains := forallb (fun loss => jeq loss (Fin 0)) losses in
      if allGains then JNum (Fin 100)
      else
        let allLosses := forallb (fun gain => jeq gain (Fin 0)) gains in
        if allLosses then JNum (Fin 0)
        else
          let '(sumGain, sumLoss) :=
            fold_left
              (fun '(avgGain, avgLoss) i =>
                 (jadd avgGain (anum gains i), jadd avgLoss (anum losses i)))
              (range 0 period) (Fin 0, Fin 0) in
          let avgGain0 := jdiv sumGain (of_Z period) in
          let avgLoss0 := jdiv sumLoss (of_Z period) in
          let '(avgGain, avgLoss) :=
            fold_left
              (fun '(avgGain, avgLoss) i =>
                 (wilder_step period avgGain (anum gains i),
                  wilder_step period avgLoss (anum losses i)))
              (range period (alen changes)) (avgGain0, avgLoss0) in
          if jeq avgLoss (Fin 0) then JNum (Fin 100)
          else
            let rs := jdiv avgGain avgLoss in
            let rsi := jsub (Fin 100) (jdiv (Fin 100) (jadd (Fin 1) rs)) in
            JNum (toFixed 2 rsi).

(** *** Moving averages *)

Definition calculateSMA (prices : list jsnum) (period : Z) : list jsval :=
  if alen prices <? period then []
  else
    let nulls := map (fun _ => JNull) (range 0 (period - 1)) in
    nulls ++
    map (fun i =>
           let total := sum (slice prices (i - period + 1) (i + 1)) in
           JNum (toFixed 2 (jdiv total (of_Z period))))
        (range (period - 1) (alen prices)).

(** The loop of [calculateEMA]: [ema] grows by one rounded value per
    price from index [period] on. *)
Definition ema_loop (prices : list jsnum) (period : Z) (multiplier smaFirst : jsnum)
  : list jsnum :=
  fold_left
    (fun ema i =>
       let previous := anum ema (alen ema - 1) in
       let currentEMA :=
         jadd (jmul (jsub (anum prices i) previous) multiplier) previous in
       ema ++ [toFixed 2 currentEMA])
    (range period (alen prices)) [smaFirst].

Definition calculateEMA (prices : list jsnum) (period : Z) : list jsval :=
  if alen prices <? period then []
  else
    let multiplier := jdiv (Fin 2) (of_Z (period + 1)) in
    let smaFirst := jdiv (sum (slice prices 0 period)) (of_Z period) in
    let ema := ema_loop prices period multiplier smaFirst in
    fill (period - 1) JNull ++ map JNum ema.

(** *** MACD *)

Record MACD : Type := mkMACD {
  macd_line : list jsval;
  macd_signal : list jsval;
  macd_histogram : list jsval
}.

(** [a[i] !== null && b[i] !== null ? round2(a[i] - b[i]) : null] *)
Definition diff_or_null (a b : list jsval) (i : Z) : jsval :=
  if not_null (aval a i) && not_null (aval b i)
  then JNum (toFixed 2 (jsub (toNumber (aval a i)) (toNumber (aval b i))))
  else JNull.

Definition calculateMACD (prices : list jsnum)
    (fastPeriod slowPeriod signalPeriod : Z) : MACD :=
  if alen prices <? slowPeriod + signalPeriod then mkMACD [] [] []
  else
    let fastEMA := calculateEMA prices fastPeriod in
    let slowEMA := calculateEMA prices slowPeriod in
    let macdLine := map (diff_or_null fastEMA slowEMA) (range 0 (alen prices)) in
    let validMacdValues := filter not_null macdLine in
    let signalEMA := calculateEMA (map toNumber validMacdValues) signalPeriod in
    let signalLine :=
      fill (alen macdLine - alen validMacdValues) JNull ++ signalEMA in
    let histogram :=
      map (diff_or_null macdLine signalLine) (range 0 (alen macdLine)) in
    mkMACD macdLine signalLine histogram.

(** *** Bollinger bands *)

Record Bollinger : Type := mkBollinger {
  bb_upper : list jsval;
  bb_middle : list jsval;
  bb_lower : list jsval
}.

Section SquareRoot.

(** [Math.sqrt] on the non-negative rationals is left abstract. *)
Variable sqrtQ : Q -> Q.

Definition jsqrt (a : jsnum) : jsnum :=
  match a with
  | Fin x => if Qltb x 0 then NaN else Fin (sqrtQ x)
  | PInf => PInf
  | _ => NaN
  end.

Definition calculateBollingerBands (prices : list jsnum) (period : Z)
    (stdDev : jsnum) : Bollinger :=
  if alen prices <? period then mkBollinger [] [] []
  else
    let sma := calculateSMA prices period in
    let nulls := map (fun _ => JNull) (range 0 (period - 1)) in
    let band (sign : jsnum -> jsnum -> jsnum) (i : Z) : jsval :=
      let window := slice prices (i - period + 1) (i + 1) in
      let mean := jdiv (sum window) (of_Z period) in
      let squaredDiffs :=
        map (fun price => jmul (jsub price mean) (jsub price mean)) window in
      let variance := jdiv (sum squaredDiffs) (of_Z period) in
      let standardDeviation := jsqrt variance in
      JNum (toFixed 2 (sign (toNumber (aval sma i))
                            (jmul standardDeviation stdDev))) in
    let upper := nulls ++ map (band jadd) (range (period - 1) (alen prices)) in
    let lower := nulls ++ map (band jsub) (range (period - 1) (alen prices)) in
    mkBollinger upper sma lower.

End SquareRoot.

(** *** Volume *)

Inductive VolumeTrend : Type := Increasing | Decreasing | Neutral.

Record VolumeAnalysis : Type := mkVolume {
  averageVolume : jsval;
  volumeChange : jsval;
  isVolumeHigh : bool;
  trend : VolumeTrend
}.

Definition analyzeVolume (volumes : list jsnum) (period : Z) : VolumeAnalysis :=
  if alen volumes <? period then mkVolume JNull JNull false Neutral
  else
    let recentVolumes := slice_from volumes (- period) in
    let averageVolume := jdiv (sum recentVolumes) (of_Z period) in
    let lastVolume := anum volumes (alen volumes - 1) in
    let volumeChange :=
      jmul (jdiv (jsub lastVolume averageVolume) averageVolume) (Fin 100) in
    let isVolumeHigh := jgt volumeChange (Fin 50) in
    let last3 := jdiv (sum (slice_from volumes (-3))) (Fin 3) in
    let prev3 := jdiv (sum (slice volumes (-6) (-3))) (Fin 3) in
    let volumeTrend :=
      if jgt last3 (jmul prev3 (Fin 1.2)) then Increasing
      else if jlt last3 (jmul prev3 (Fin 0.8)) then Decreasing
      else Neutral in
    mkVolume (JNum (toFixed 2 averageVolume)) (JNum (toFixed 2 volumeChange))
             isVolumeHigh volumeTrend.

(** *** Support and resistance *)

Record Level : Type := mkLevel {
  level_price : jsnum;
  level_index : Z
}.

Record Group : Type := mkGroup {
  group_price : jsnum;
  strength : Z
}.

Definition threshold : jsnum := Fin 0.005.

(** The inner loop of [groupLevels]: the first group close enough to
    [level] absorbs it; [None] when the loop ends with [found] false. *)
Fixpoint merge_level (level : Level) (grouped : list Group)
  : option (list Group) :=
  match grouped with
  | [] => None
  | group :: rest =>
      if jlt (jdiv (jabs (jsub (level_price level) (group_price group)))
                   (group_price group)) threshold
      then
        let totalWeight := strength group + 1 in
        Some (mkGroup
                (jdiv (jadd (jmul (group_price group) (of_Z (strength group)))
                            (level_price level))
                      (of_Z totalWeight))
                (strength group + 1) :: rest)
      else
        match merge_level level rest with
        | Some rest' => Some (group :: rest')
        | None => None
        end
  end.

Definition add_level (grouped : list Group) (level : Level) : list Group :=
  match merge_level level grouped with
  | Some grouped' => grouped'
  | None => grouped ++ [mkGroup (level_price level) 1]
  end.

Definition groupLevels (levels : list Level) : list Group :=
  if alen levels =? 0 then [] else fold_left add_level levels [].

(** [groups.sort((a, b) => b.strength - a.strength)]: a stable sort,
    strongest first. *)
Fixpoint insert_by_strength (g : Group) (sorted : list Group) : list Group :=
  match sorted with
  | [] => [g]
  | h :: rest =>
      if strength h <? strength g then g :: h :: rest
      else h :: insert_by_strength g rest
  end.

Definition sort_by_strength (groups : list Group) : list Group :=
  fold_left (fun sorted g => insert_by_strength g sorted) groups [].

Definition is_local_min (prices : list Candle) (i : Z) : bool :=
  jlt (low (cand prices i)) (low (cand prices (i - 1))) &&
  jlt (low (cand prices i)) (low (cand prices (i - 2))) &&
  jlt (low (cand prices i)) (low (cand prices (i + 1))) &&
  jlt (low (cand prices i)) (low (cand prices (i + 2))).

Definition is_local_max (prices : list Candle) (i : Z) : bool :=
  jgt (high (cand prices i)) (high (cand prices (i - 1))) &&
  jgt (high (cand prices i)) (high (cand prices (i - 2))) &&
  jgt (high (cand prices i)) (high (cand prices (i + 1))) &&
  jgt (high (cand prices i)) (high (cand prices (i + 2))).

(** The [supports] and [resistances] collected by the scan
    [for (let i = 5; i < prices.length - 5; i++)]. *)
Definition collect_supports (prices : list Candle) : list Level :=
  map (fun i => mkLevel (low (cand prices i)) i)
      (filter (is_local_min prices) (range 5 (alen prices - 5))).

Definition collect_resistances (prices : list Candle) : list Level :=
  map (fun i => mkLevel (high (cand prices i)) i)
      (filter (is_local_max prices) (range 5 (alen prices - 5))).

Record SupportResistance : Type := mkSR {
  support : list jsnum;
  resistance : list jsnum
}.

(** [sorted.slice(0, 3).map(s => parseFloat(s.price.toFixed(2)))] *)
Definition top_levels (groups : list Group) : list jsnum :=
  map (fun s => toFixed 2 (group_price s)) (slice (sort_by_strength groups) 0 3).

Definition findSupportResistanceLevels (prices : list Candle) (lookback : Z)
  : SupportResistance :=
  if (alen prices <? lookback) || negb (num_truthy (high (cand prices 0)))
  then mkSR [] []
  else
    let groupedSupports := groupLevels (collect_supports prices) in
    let groupedResistances := groupLevels (collect_resistances prices) in
    mkSR (top_levels groupedSupports) (top_levels groupedResistances).

(** *** Fibonacci retracement *)

Record Fibonacci : Type := mkFibonacci {
  level0 : jsnum;
  level236 : jsnum;
  level382 : jsnum;
  level500 : jsnum;
  level618 : jsnum;
  level786 : jsnum;
  level1000 : jsnum
}.

Definition calculateFibonacciLevels (hi lo : jsnum) : Fibonacci :=
  let diff := jsub hi lo in
  mkFibonacci
    (toFixed 2 hi)
    (toFixed 2 (jsub hi (jmul (Fin 0.236) diff)))
    (toFixed 2 (jsub hi (jmul (Fin 0.382) diff)))
    (toFixed 2 (jsub hi (jmul (Fin 0.5) diff)))
    (toFixed 2 (jsub hi (jmul (Fin 0.618) diff)))
    (toFixed 2 (jsub hi (jmul (Fin 0.786) diff)))
    (toFixed 2 lo).

(** *** ATR *)

(** [Math.max(high - low, |high - prevClose|, |low - prevClose|)] for the
    candle at index [i]. *)
Definition true_range (prices : list Candle) (i : Z) : jsnum :=
  let hi := high (cand prices i) in
  let lo := low (cand prices i) in
  let prevClose := close (cand prices (i - 1)) in
  let tr1 := jsub hi lo in
  let tr2 := jabs (jsub hi prevClose) in
  let tr3 := jabs (jsub lo prevClose) in
  math_max [tr1; tr2; tr3].

Definition calculateATR (prices : list Candle) (period : Z) : list jsval :=
  if (alen prices <? period + 1) || negb (num_truthy (high (cand prices 0)))
  then []
  else
    let trueRanges := map (true_range prices) (range 1 (alen prices)) in
    let atr0 := jdiv (sum (slice trueRanges 0 period)) (of_Z period) in
    let '(_, atrValues) :=
      fold_left
        (fun '(atr, atrValues) i =>
           let atr' := wilder_step period atr (anum trueRanges i) in
           (atr', atrValues ++ [toFixed 4 atr']))
        (range period (alen trueRanges)) (atr0, [atr0]) in
    fill period JNull ++ map JNum atrValues.

(** *** ADX *)

Record ADX : Type := mkADX {
  adx : list jsval;
  plusDI : list jsval;
  minusDI : list jsval
}.

Definition plus_dm (prices : list Candle) (i : Z) : jsnum :=
  let upMove := jsub (high (cand prices i)) (high (cand prices (i - 1))) in
  let downMove := jsub (low (cand prices (i - 1))) (low (cand prices i)) in
  if jgt upMove downMove && jgt upMove (Fin 0) then upMove
  else Fin 0.

Definition minus_dm (prices : list Candle) (i : Z) : jsnum :=
  let upMove := jsub (high (cand prices i)) (high (cand prices (i - 1))) in
  let downMove := jsub (low (cand prices (i - 1))) (low (cand prices i)) in
  if jgt upMove downMove && jgt upMove (Fin 0) then Fin 0
  else if jgt downMove upMove && jgt downMove (Fin 0) then downMove
  else Fin 0.

(** The state of the main loop of [calculateADX]. *)
Record DIState : Type := mkDI {
  smoothedTR : jsnum;
  smoothedPlusDM : jsnum;
  smoothedMinusDM : jsnum;
  plusDIs : list jsnum;
  minusDIs : list jsnum;
  dxValues : list jsnum
}.

(** [s = s - (s / period) + x] *)
Definition smooth_sum (period : Z) (s x : jsnum) : jsnum :=
  jadd (jsub s (jdiv s (of_Z period))) x.

Definition di_step (period : Z) (trueRanges plusDM minusDM : list jsnum)
    (st : DIState) (i : Z) : DIState :=
  let smoothedTR := smooth_sum period (smoothedTR st) (anum trueRanges i) in
  let smoothedPlusDM := smooth_sum period (smoothedPlusDM st) (anum plusDM i) in
  let smoothedMinusDM := smooth_sum period (smoothedMinusDM st) (anum minusDM i) in
  let plusDI := jmul (jdiv smoothedPlusDM smoothedTR) (Fin 100) in
  let minusDI := jmul (jdiv smoothedMinusDM smoothedTR) (Fin 100) in
  let dx := jmul (jabs (jdiv (jsub plusDI minusDI) (jadd plusDI minusDI)))
                 (Fin 100) in
  mkDI smoothedTR smoothedPlusDM smoothedMinusDM
       (plusDIs st ++ [toFixed 2 plusDI])
       (minusDIs st ++ [toFixed 2 minusDI])
       (dxValues st ++ [toFixed 2 dx]).

Definition calculateADX (prices : list Candle) (period : Z) : ADX :=
  if (alen prices <? period * 2) || negb (num_truthy (high (cand prices 0)))
  then mkADX [] [] []
  else
    let trueRanges := map (true_range prices) (range 1 (alen prices)) in
    let plusDM := map (plus_dm prices) (range 1 (alen prices)) in
    let minusDM := map (minus_dm prices) (range 1 (alen prices)) in
    let st0 :=
      mkDI (sum (slice trueRanges 0 period))
           (sum (slice plusDM 0 period))
           (sum (slice minusDM 0 period)) [] [] [] in
    let st :=
      fold_left (di_step period trueRanges plusDM minusDM)
                (range period (alen prices - 1)) st0 in
    let dxs := dxValues st in
    let adx0 := jdiv (sum (slice dxs 0 period)) (of_Z period) in
    let '(_, adxValues) :=
      fold_left
        (fun '(adx, adxValues) i =>
           let adx' := wilder_step period adx (anum dxs (i + period - 1)) in
           (adx', adxValues ++ [toFixed 2 adx']))
        (range 1 (alen dxs - period + 1)) (adx0, [toFixed 2 adx0]) in
    let nullPadding : list jsval := fill (alen prices - alen adxValues) JNull in
    mkADX
      (nullPadding ++ map JNum adxValues)
      (slice nullPadding 0 (alen nullPadding - alen (plusDIs st))
         ++ map JNum (plusDIs st))
      (slice nullPadding 0 (alen nullPadding - alen (minusDIs st))
         ++ map JNum (minusDIs st)).

(** *** Candlestick patterns *)

Inductive PatternName : Type :=
| Doji
| Martelo
| EstrelaCadente
| EngolfoDeAlta
| EngolfoDeBaixa
| HaramiDeAlta
| HaramiDeBaixa.

(** The [significance] tag: ['bullish'], ['bearish'] or ['neutral']. *)
Inductive Significance : Type := Bullish | Bearish | NeutralSignificance.

Record Pattern : Type := mkPattern {
  pattern : PatternName;
  position : Z;
  significance : Significance
}.

Definition when {A : Type} (b : bool) (x : A) : list A := if b then [x] else [].

Definition body_of (c : Candle) : jsnum := jabs (jsub (close c) (open c)).
Definition upper_shadow (c : Candle) : jsnum := jsub (high c) (jmax (open c) (close c)).
Definition lower_shadow (c : Candle) : jsnum := jsub (jmin (open c) (close c)) (low c).

(** [x || 1] on numbers *)
Definition or_one (x : jsnum) : jsnum := if num_truthy x then x else Fin 1.

Definition doji_at (c3 : Candle) : bool :=
  jlt (jdiv (body_of c3) (or_one (jsub (high c3) (low c3)))) (Fin 0.1).

Definition hammer_at (c3 : Candle) : bool :=
  jgt (close c3) (open c3) &&
  jgt (lower_shadow c3) (jmul (body_of c3) (Fin 2)) &&
  jlt (upper_shadow c3) (jmul (body_of c3) (Fin 0.5)).

Definition shooting_star_at (c3 : Candle) : bool :=
  jlt (close c3) (open c3) &&
  jgt (upper_shadow c3) (jmul (body_of c3) (Fin 2)) &&
  jlt (lower_shadow c3) (jmul (body_of c3) (Fin 0.5)).

Definition bullish_engulfing_at (c2 c3 : Candle) : bool :=
  jlt (close c2) (open c2) && jgt (close c3) (open c3) &&
  jgt (close c3) (open c2) && jlt (open c3) (close c2).

Definition bearish_engulfing_at (c2 c3 : Candle) : bool :=
  jgt (close c2) (open c2) && jlt (close c3) (open c3) &&
  jlt (close c3) (open c2) && jgt (open c3) (close c2).

Definition bullish_harami_at (c2 c3 : Candle) : bool :=
  jlt (close c2) (open c2) && jgt (close c3) (open c3) &&
  jlt (high c3) (open c2) && jgt (low c3) (close c2).

(** Modelled from the spec: the end of [identifyCandlePatterns] is missing
    from the sources (they stop inside the Bullish Harami branch).  The
    Bearish Harami is "the current candle's full range contained within the
    prior candle's body, opposite direction", the mirror image of the
    branch above. *)
Definition bearish_harami_at (c2 c3 : Candle) : bool :=
  jgt (close c2) (open c2) && jlt (close c3) (open c3) &&
  jlt (high c3) (close c2) && jgt (low c3) (open c2).

Definition patterns_at (candles : list Candle) (i : Z) : list Pattern :=
  let c2 := cand candles (i - 1) in
  let c3 := cand candles i in
  when (doji_at c3) (mkPattern Doji i NeutralSignificance) ++
  when (hammer_at c3) (mkPattern Martelo i Bullish) ++
  when (shooting_star_at c3) (mkPattern EstrelaCadente i Bearish) ++
  when (bullish_engulfing_at c2 c3) (mkPattern EngolfoDeAlta i Bullish) ++
  when (bearish_engulfing_at c2 c3) (mkPattern EngolfoDeBaixa i Bearish) ++
  when (bullish_harami_at c2 c3) (mkPattern HaramiDeAlta i Bullish) ++
  when (bearish_harami_at c2 c3) (mkPattern HaramiDeBaixa i Bearish).

Definition identifyCandlePatterns (candles : list Candle) : list Pattern :=
  if (alen candles <? 3) || negb (num_truthy (open (cand candles 0)))
  then []
  else flat_map (patterns_at candles) (range 2 (alen candles)).

End Indicators.

Import Indicators.

(* ================================================================== *)
(** ** Alerts *)
(* ================================================================== *)

(** The alert objects built by [timeframes_module.js] and [api.js].  The
    [id] and [created_at] fields (both read the clock) are left out, and so
    are the raw indicator copies that [api.js] attaches; the recommendation
    text is kept as the list of clauses it is assembled from. *)

Module Alerts.

Inductive AlertType : Type := BUY | SELL | MONITORING.

Inductive Confidence : Type := LOW | MEDIUM | HIGH.

(** [monitoring_type]: 'Próximo ao Suporte', 'Próximo à Resistência',
    'Volume Atípico', 'Padrão Gráfico', 'Tendência Forte'. *)
Inductive MonitoringType : Type :=
| ProximoAoSuporte
| ProximoAResistencia
| VolumeAtipico
| PadraoGrafico
| TendenciaForte.

Inductive MacdTag : Type := BULLISH | BEARISH.
Inductive TrendTag : Type := UPTREND | DOWNTREND.
Inductive BandTag : Type := LOWER_TOUCH | UPPER_TOUCH | MIDDLE_BAND.

Record AlertIndicators : Type := mkAlertIndicators {
  ind_rsi : jsval;
  ind_macd : MacdTag;
  ind_moving_averages : TrendTag;
  ind_bollinger_bands : BandTag
}.

Record Levels : Type := mkLevels {
  lv_support : jsval;
  lv_resistance : jsval;
  stopLoss : option jsnum;
  target : option jsnum
}.

Inductive Clause : Type :=
| Headline
| MacdClause
| BollingerClause
| VolumeClause
| PatternClause (name : PatternName).

Record Alert : Type := mkAlert {
  symbol : string;
  type : AlertType;
  price : jsnum;
  confidence : Confidence;
  timeframe : string;
  monitoring_type : option MonitoringType;
  indicators : AlertIndicators;
  recommendation : list Clause;
  levels : Levels
}.

Record AlertSet : Type := mkAlerts {
  buy : list Alert;
  sell : list Alert;
  monitoring : list Alert
}.

Definition no_alerts : AlertSet := mkAlerts [] [] [].

(** [[a, b, c].filter(Boolean).length] *)
Definition count_true (flags : list bool) : Z := alen (filter (fun b => b) flags).

(** [count >= 2 ? 'HIGH' : (count >= 1 ? 'MEDIUM' : 'LOW')] *)
Definition confidence_of_count (confirmationCount : Z) : Confidence :=
  if 2 <=? confirmationCount then HIGH
  else if 1 <=? confirmationCount then MEDIUM
  else LOW.

(** [histogram > 0 || (histogram < 0 && histogram > histogram - 1)] *)
Definition buy_macd_confirmation (histogram : jsval) : bool :=
  vgt histogram (JNum (Fin 0)) ||
  (vlt histogram (JNum (Fin 0)) &&
   jgt (toNumber histogram) (jsub (toNumber histogram) (Fin 1))).

(** [histogram < 0 || (histogram > 0 && histogram < histogram - 1)] *)
Definition sell_macd_confirmation (histogram : jsval) : bool :=
  vlt histogram (JNum (Fin 0)) ||
  (vgt histogram (JNum (Fin 0)) &&
   jlt (toNumber histogram) (jsub (toNumber histogram) (Fin 1))).

(** [arr[0]] of an array of numbers *)
Definition first_val (l : list jsnum) : jsval :=
  match aget l 0 with Some x => JNum x | None => JUndef end.

End Alerts.

Import Alerts.

(* ================================================================== *)
(** ** The aggregator and rule engine of [timeframes_module.js] *)
(* ================================================================== *)

Module Timeframes.

Record MacdLast : Type := mkMacdLast {
  m_line : jsval;
  m_signal : jsval;
  m_histogram : jsval
}.

Record BandsLast : Type := mkBandsLast {
  b_upper : jsval;
  b_middle : jsval;
  b_lower : jsval
}.

Record AdxLast : Type := mkAdxLast {
  adx_value : jsval;
  adx_plusDI : jsval;
  adx_minusDI : jsval
}.

(** [analysis.indicators] *)
Record IndicatorSet : Type := mkIndicatorSet {
  i_rsi : jsval;
  i_sma20 : jsval;
  i_ema50 : jsval;
  i_ema200 : jsval;
  i_macd : MacdLast;
  i_bollinger : BandsLast;
  i_volume : VolumeAnalysis;
  i_supportResistance : SupportResistance;
  i_fibonacci : Fibonacci;
  i_atr : jsval;
  i_adx : AdxLast;
  i_patterns : list Pattern
}.

(** The snapshot returned by [calculateAllIndicators] when nothing was
    thrown. *)
Record Analysis : Type := mkAnalysis {
  an_lastPrice : jsnum;
  an_candles : list Candle;
  an_indicators : IndicatorSet
}.

(** What [calculateAllIndicators] returns: a snapshot, or the object
    carrying an [error] message. *)
Inductive Outcome : Type :=
| Snapshot (analysis : Analysis)
| ErrorOutcome (error : string).

Section Aggregator.

Variable sqrtQ : Q -> Q.

(** [candles] is what [getHistoricalData(symbol, timeframe)] delivered. *)
Definition calculateAllIndicators (candles : list Candle) : Outcome :=
  try_catch
    (if alen candles =? 0
     then Throw (Error "Sem dados históricos disponíveis")
     else
       let closes := map close candles in
       let highs := map high candles in
       let lows := map low candles in
       let volumes := map volume candles in
       let rsi := calculateRSI closes 14 in
       let sma20 := calculateSMA closes 20 in
       let ema50 := calculateEMA closes 50 in
       let ema200 := calculateEMA closes 200 in
       let macd := calculateMACD closes 12 26 9 in
       let bollinger := calculateBollingerBands sqrtQ closes 20 (Fin 2) in
       let volumeAnalysis := analyzeVolume volumes 14 in
       let supportResistance := findSupportResistanceLevels candles 30 in
       let highestPrice := math_max highs in
       let lowestPrice := math_min lows in
       let fibonacci := calculateFibonacciLevels highestPrice lowestPrice in
       let atr := calculateATR candles 14 in
       let adx := calculateADX candles 14 in
       let candlePatterns := identifyCandlePatterns candles in
       Ok (Snapshot
             (mkAnalysis
                (anum closes (alen closes - 1))
                (slice_from candles (-10))
                (mkIndicatorSet
                   rsi
                   (last_val sma20)
                   (last_val ema50)
                   (last_val ema200)
                   (mkMacdLast (last_val (macd_line macd))
                               (last_val (macd_signal macd))
                               (last_val (macd_histogram macd)))
                   (mkBandsLast (last_val (bb_upper bollinger))
                                (last_val (bb_middle bollinger))
                                (last_val (bb_lower bollinger)))
                   volumeAnalysis
                   supportResistance
                   fibonacci
                   (last_val atr)
                   (mkAdxLast (last_val (Indicators.adx adx))
                              (last_val (plusDI adx))
                              (last_val (minusDI adx)))
                   (filter (fun p => alen candles - 3 <=? position p)
                           candlePatterns)))))
    (fun error => ErrorOutcome (message_of error)).

End Aggregator.

(** The tags of the [indicators] field shared by the alerts. *)
Definition macd_tag (histogram : jsval) : MacdTag :=
  if vgt histogram (JNum (Fin 0)) then BULLISH else BEARISH.

Definition trend_tag (currentPrice : jsnum) (ema50 : jsval) : TrendTag :=
  if jgt currentPrice (toNumber ema50) then UPTREND else DOWNTREND.

(** [patterns.filter(p => p.significance.includes(tag))], first name *)
Definition pattern_clause (tag : Significance -> bool) (patterns : list Pattern)
  : list Clause :=
  match filter (fun p => tag (significance p)) patterns with
  | p :: _ => [PatternClause (pattern p)]
  | [] => []
  end.

Definition is_bullish (s : Significance) : bool :=
  match s with Bullish => true | _ => false end.

Definition is_bearish (s : Significance) : bool :=
  match s with Bearish => true | _ => false end.

(** [Math.min(...analysis.candles.slice(-5).map(c => c.low)) * 0.99] *)
Definition buy_stop_loss (candles : list Candle) : jsnum :=
  jmul (math_min (map low (slice_from candles (-5)))) (Fin 0.99).

(** [Math.max(...analysis.candles.slice(-5).map(c => c.high)) * 1.01] *)
Definition sell_stop_loss (candles : list Candle) : jsnum :=
  jmul (math_max (map high (slice_from candles (-5)))) (Fin 1.01).

(** [currentPrice * (1 + (30 - rsi) / 100)] *)
Definition buy_target (currentPrice : jsnum) (rsi : jsval) : jsnum :=
  jmul currentPrice
       (jadd (Fin 1) (jdiv (jsub (Fin 30) (toNumber rsi)) (Fin 100))).

(** [currentPrice * (1 - (rsi - 70) / 100)] *)
Definition sell_target (currentPrice : jsnum) (rsi : jsval) : jsnum :=
  jmul currentPrice
       (jsub (Fin 1) (jdiv (jsub (toNumber rsi) (Fin 70)) (Fin 100))).

Section Rules.

Variables (symbol timeframe : string) (analysis : Analysis).

Let currentPrice := an_lastPrice analysis.
Let ind := an_indicators analysis.
Let rsi := i_rsi ind.
Let macd := i_macd ind.
Let bollinger := i_bollinger ind.
Let volume := i_volume ind.
Let supportResistance := i_supportResistance ind.
Let patterns := i_patterns ind.
Let adx := i_adx ind.

(** The block under [if (rsi < 30)].  The local [confidence] computed
    from the RSI alone is never read and is not modelled. *)
Definition buy_rule : list Alert :=
  if vlt rsi (JNum (Fin 30)) then
    let confirmedByMACD := buy_macd_confirmation (m_histogram macd) in
    let confirmedByBollinger :=
      jle currentPrice (jmul (toNumber (b_lower bollinger)) (Fin 1.01)) in
    let confirmedByVolume := vgt (volumeChange volume) (JNum (Fin 20)) in
    let confirmationCount :=
      count_true [confirmedByMACD; confirmedByBollinger; confirmedByVolume] in
    let finalConfidence := confidence_of_count confirmationCount in
    let recommendation :=
      [Headline] ++ when confirmedByMACD MacdClause
                 ++ when confirmedByBollinger BollingerClause
                 ++ when confirmedByVolume VolumeClause
                 ++ pattern_clause is_bullish patterns in
    let stopLoss := buy_stop_loss (an_candles analysis) in
    let target := buy_target currentPrice rsi in
    [mkAlert symbol BUY currentPrice finalConfidence timeframe None
       (mkAlertIndicators rsi
          (macd_tag (m_histogram macd))
          (trend_tag currentPrice (i_ema50 ind))
          (if jlt currentPrice (toNumber (b_lower bollinger))
           then LOWER_TOUCH else MIDDLE_BAND))
       recommendation
       (mkLevels
          (jor (first_val (support supportResistance))
               (JNum (jmul currentPrice (Fin 0.95))))
          (jor (first_val (resistance supportResistance))
               (JNum (jmul currentPrice (Fin 1.05))))
          (Some stopLoss) (Some target))]
  else [].

(** The block under [if (rsi > 70)]. *)
Definition sell_rule : list Alert :=
  if vgt rsi (JNum (Fin 70)) then
    let confirmedByMACD := sell_macd_confirmation (m_histogram macd) in
    let confirmedByBollinger :=
      jge currentPrice (jmul (toNumber (b_upper bollinger)) (Fin 0.99)) in
    let confirmedByVolume := vgt (volumeChange volume) (JNum (Fin 20)) in
    let confirmationCount :=
      count_true [confirmedByMACD; confirmedByBollinger; confirmedByVolume] in
    let finalConfidence := confidence_of_count confirmationCount in
    let recommendation :=
      [Headline] ++ when confirmedByMACD MacdClause
                 ++ when confirmedByBollinger BollingerClause
                 ++ when confirmedByVolume VolumeClause
                 ++ pattern_clause is_bearish patterns in
    let stopLoss := sell_stop_loss (an_candles analysis) in
    let target := sell_target currentPrice rsi in
    [mkAlert symbol SELL currentPrice finalConfidence timeframe None
       (mkAlertIndicators rsi
          (if vlt (m_histogram macd) (JNum (Fin 0)) then BEARISH else BULLISH)
          (if jlt currentPrice (toNumber (i_ema50 ind))
           then DOWNTREND else UPTREND)
          (if jgt currentPrice (toNumber (b_upper bollinger))
           then UPPER_TOUCH else MIDDLE_BAND))
       recommendation
       (mkLevels
          (jor (first_val (support supportResistance))
               (JNum (jmul currentPrice (Fin 0.95))))
          (jor (first_val (resistance supportResistance))
               (JNum (jmul currentPrice (Fin 1.05))))
          (Some stopLoss) (Some target))]
  else [].

(** A monitoring alert of this module: confidence and kind vary, the
    levels are the raw first support and resistance. *)
Definition monitoring_alert (kind : MonitoringType) (conf : Confidence) : Alert :=
  mkAlert symbol MONITORING currentPrice conf timeframe (Some kind)
    (mkAlertIndicators rsi
       (macd_tag (m_histogram macd))
       (trend_tag currentPrice (i_ema50 ind))
       MIDDLE_BAND)
    [Headline]
    (mkLevels (first_val (support supportResistance))
              (first_val (resistance supportResistance))
              None None).

(** No [significance] tag contains the word 'strongly'. *)
Definition strongly (s : Significance) : bool := false.

(** The five independent monitoring checks, in source order. *)
Definition monitoring_rules : list Alert :=
  when (jle currentPrice
            (jmul (toNumber (first_val (support supportResistance))) (Fin 1.02)))
       (monitoring_alert ProximoAoSuporte MEDIUM) ++
  when (jge currentPrice
            (jmul (toNumber (first_val (resistance supportResistance))) (Fin 0.98)))
       (monitoring_alert ProximoAResistencia MEDIUM) ++
  when (vgt (volumeChange volume) (JNum (Fin 100)))
       (monitoring_alert VolumeAtipico MEDIUM) ++
  (if 0 <? alen patterns then
     match find (fun p =>
                   strongly (significance p) ||
                   (alen (an_candles analysis) - 2 <=?
                      position (nth 0 patterns (mkPattern Doji 0 NeutralSignificance))))
                patterns with
     | Some significantPattern =>
         [monitoring_alert PadraoGrafico
            (if strongly (significance significantPattern) then HIGH else MEDIUM)]
     | None => []
     end
   else []) ++
  when (vgt (adx_value adx) (JNum (Fin 25)))
       (monitoring_alert TendenciaForte
          (if vgt (adx_value adx) (JNum (Fin 35)) then HIGH else MEDIUM)).

(** The body of [generateTechnicalAlerts] once the snapshot is at hand. *)
Definition alerts_of_analysis : AlertSet :=
  mkAlerts buy_rule sell_rule monitoring_rules.

End Rules.

Section Generator.

Variable sqrtQ : Q -> Q.

Definition generateTechnicalAlerts (symbol timeframe : string)
    (candles : list Candle) : AlertSet :=
  try_catch
    (match calculateAllIndicators sqrtQ candles with
     | ErrorOutcome error => Throw (Error error)
     | Snapshot analysis => Ok (alerts_of_analysis symbol timeframe analysis)
     end)
    (fun error => no_alerts).

(** [generateAlertsForMultipleSymbols]: the per-symbol results are
    concatenated in the order of [symbols]; [history] gives the candles
    fetched for each symbol. *)
Definition generateAlertsForMultipleSymbols (history : string -> list Candle)
    (symbols : list string) (timeframe : string) : AlertSet :=
  fold_left
    (fun allAlerts symbol =>
       let result := generateTechnicalAlerts symbol timeframe (history symbol) in
       mkAlerts (buy allAlerts ++ buy result)
                (sell allAlerts ++ sell result)
                (monitoring allAlerts ++ monitoring result))
    symbols no_alerts.

End Generator.

End Timeframes.

(* ================================================================== *)
(** ** The per-price alert loop of [api.js] *)
(* ================================================================== *)

Module Api.

Import Timeframes.

(** An entry of [currentPrices] (its [priceBRL] is only copied along). *)
Record PriceData : Type := mkPriceData {
  pd_symbol : string;
  pd_price : jsnum
}.

(** The indicator values [fetchAlerts] computes for one symbol. *)
Record SymbolIndicators : Type := mkSymbolIndicators {
  s_rsi : jsval;
  s_macd : MacdLast;
  s_bollinger : BandsLast;
  s_volumeAnalysis : VolumeAnalysis;
  s_supportResistance : SupportResistance;
  s_atrValue : jsval;
  s_adx : AdxLast
}.

Section Indicators.

Variable sqrtQ : Q -> Q.

(** The indicator functions are the ones installed on [window]; the
    random fall-backs used in their absence are not modelled. *)
Definition symbol_indicators (historicalData : list Candle) : SymbolIndicators :=
  let closes := map close historicalData in
  let volumes := map volume historicalData in
  let rsi := calculateRSI closes 14 in
  let macdResult := calculateMACD closes 12 26 9 in
  let bollingerResult := calculateBollingerBands sqrtQ closes 20 (Fin 2) in
  let adxResult := calculateADX historicalData 14 in
  mkSymbolIndicators
    rsi
    (mkMacdLast (last_val (macd_line macdResult))
                (last_val (macd_signal macdResult))
                (last_val (macd_histogram macdResult)))
    (mkBandsLast (last_val (bb_upper bollingerResult))
                 (last_val (bb_middle bollingerResult))
                 (last_val (bb_lower bollingerResult)))
    (analyzeVolume volumes 14)
    (findSupportResistanceLevels historicalData 30)
    (last_val (calculateATR historicalData 14))
    (mkAdxLast (last_val (Indicators.adx adxResult))
               (last_val (plusDI adxResult))
               (last_val (minusDI adxResult))).

End Indicators.

Section Rules.

Variables (symbol currentTimeframe : string).
Variables (ind : SymbolIndicators) (currentPrice : jsnum).
Variables (highs lows : list jsnum).

Let rsi := s_rsi ind.
Let macd := s_macd ind.
Let bollinger := s_bollinger ind.
Let volumeAnalysis := s_volumeAnalysis ind.
Let supportResistance := s_supportResistance ind.
Let adx := s_adx ind.

Definition supportLevel : jsval :=
  jor (first_val (support supportResistance)) (JNum (jmul currentPrice (Fin 0.95))).

Definition resistanceLevel : jsval :=
  jor (first_val (resistance supportResistance)) (JNum (jmul currentPrice (Fin 1.05))).

(** The block under [if (rsi < 30)]. *)
Definition buy_rule : list Alert :=
  if vlt rsi (JNum (Fin 30)) then
    let confirmedByMACD := buy_macd_confirmation (m_histogram macd) in
    let confirmedByBollinger :=
      jle currentPrice (jmul (toNumber (b_lower bollinger)) (Fin 1.01)) in
    let confirmedByVolume :=
      vgt (volumeChange volumeAnalysis) (JNum (Fin 20)) in
    let confirmationCount :=
      count_true [confirmedByMACD; confirmedByBollinger; confirmedByVolume] in
    let finalConfidence := confidence_of_count confirmationCount in
    let recommendation :=
      [Headline] ++ when confirmedByMACD MacdClause
                 ++ when confirmedByBollinger BollingerClause
                 ++ when confirmedByVolume VolumeClause in
    let stopLossLevel := jmul (math_min (slice_from lows (-5))) (Fin 0.99) in
    let targetLevel := buy_target currentPrice rsi in
    [mkAlert symbol BUY currentPrice finalConfidence currentTimeframe None
       (mkAlertIndicators rsi
          (macd_tag (m_histogram macd))
          (trend_tag currentPrice (b_middle bollinger))
          (if jlt currentPrice (toNumber (b_lower bollinger))
           then LOWER_TOUCH else MIDDLE_BAND))
       recommendation
       (mkLevels supportLevel resistanceLevel
                 (Some stopLossLevel) (Some targetLevel))]
  else [].

(** The block under [if (rsi > 70)]. *)
Definition sell_rule : list Alert :=
  if vgt rsi (JNum (Fin 70)) then
    let confirmedByMACD := sell_macd_confirmation (m_histogram macd) in
    let confirmedByBollinger :=
      jge currentPrice (jmul (toNumber (b_upper bollinger)) (Fin 0.99)) in
    let confirmedByVolume :=
      vgt (volumeChange volumeAnalysis) (JNum (Fin 20)) in
    let confirmationCount :=
      count_true [confirmedByMACD; confirmedByBollinger; confirmedByVolume] in
    let finalConfidence := confidence_of_count confirmationCount in
    let recommendation :=
      [Headline] ++ when confirmedByMACD MacdClause
                 ++ when confirmedByBollinger BollingerClause
                 ++ when confirmedByVolume VolumeClause in
    let stopLossLevel := jmul (math_max (slice_from highs (-5))) (Fin 1.01) in
    let targetLevel := sell_target currentPrice rsi in
    [mkAlert symbol SELL currentPrice finalConfidence currentTimeframe None
       (mkAlertIndicators rsi
          (if vlt (m_histogram macd) (JNum (Fin 0)) then BEARISH else BULLISH)
          (if jlt currentPrice (toNumber (b_middle bollinger))
           then DOWNTREND else UPTREND)
          (if jgt currentPrice (toNumber (b_upper bollinger))
           then UPPER_TOUCH else MIDDLE_BAND))
       recommendation
       (mkLevels supportLevel resistanceLevel
                 (Some stopLossLevel) (Some targetLevel))]
  else [].

(** [(currentPrice - closestSupport) / currentPrice * 100] *)
Definition distanceToSupport : jsnum :=
  jmul (jdiv (jsub currentPrice (anum (support supportResistance) 0))
             currentPrice) (Fin 100).

(** [(closestResistance - currentPrice) / currentPrice * 100] *)
Definition distanceToResistance : jsnum :=
  jmul (jdiv (jsub (anum (resistance supportResistance) 0) currentPrice)
             currentPrice) (Fin 100).

Definition unset (monitoringType : option MonitoringType) : bool :=
  match monitoringType with None => true | Some _ => false end.

(** The successive assignments to [monitoringType]. *)
Definition monitoring_type_of : option MonitoringType :=
  let monitoringType : option MonitoringType := None in
  let monitoringType :=
    if 0 <? alen (support supportResistance) then
      if jge distanceToSupport (Fin 0) && jlt distanceToSupport (Fin 3)
      then Some ProximoAoSuporte else monitoringType
    else monitoringType in
  let monitoringType :=
    if unset monitoringType && (0 <? alen (resistance supportResistance)) then
      if jge distanceToResistance (Fin 0) && jlt distanceToResistance (Fin 3)
      then Some ProximoAResistencia else monitoringType
    else monitoringType in
  let monitoringType :=
    if unset monitoringType &&
       vgt (volumeChange volumeAnalysis) (JNum (Fin 50))
    then Some VolumeAtipico else monitoringType in
  let monitoringType :=
    if unset monitoringType && vgt (adx_value adx) (JNum (Fin 25))
    then Some TendenciaForte else monitoringType in
  monitoringType.

(** The monitoring block, entered only when a support or a resistance
    level exists. *)
Definition monitoring_rule : list Alert :=
  if (0 <? alen (support supportResistance)) ||
     (0 <? alen (resistance supportResistance))
  then
    match monitoring_type_of with
    | Some monitoringType =>
        [mkAlert symbol MONITORING currentPrice MEDIUM currentTimeframe
           (Some monitoringType)
           (mkAlertIndicators rsi
              (macd_tag (m_histogram macd))
              (trend_tag currentPrice (b_middle bollinger))
              MIDDLE_BAND)
           [Headline]
           (mkLevels supportLevel resistanceLevel None None)]
    | None => []
    end
  else [].

(** The alerts pushed for one symbol. *)
Definition alerts_of_symbol : AlertSet :=
  mkAlerts buy_rule sell_rule monitoring_rule.

End Rules.

Section FetchAlerts.

Variable sqrtQ : Q -> Q.
Variable currentTimeframe : string.

(** [history symbol] is what [getHistoricalData(symbol, currentTimeframe)]
    delivered. *)
Variable history : string -> list Candle.

Definition fetchAlerts (currentPrices : list PriceData) : AlertSet :=
  fold_left
    (fun alerts priceData =>
       let symbol := pd_symbol priceData in
       let historicalData := history symbol in
       if alen historicalData <? 14 then alerts
       else
         let highs := map high historicalData in
         let lows := map low historicalData in
         let result :=
           alerts_of_symbol symbol currentTimeframe
             (symbol_indicators sqrtQ historicalData)
             (pd_price priceData) highs lows in
         mkAlerts (buy alerts ++ buy result)
                  (sell alerts ++ sell result)
                  (monitoring alerts ++ monitoring result))
    currentPrices no_alerts.

End FetchAlerts.

End Api.

(* ================================================================== *)
(** ** The properties, as the specification words them *)
(* ================================================================== *)

Module MonitoringSpec.

Import Timeframes Api.

Section Reasons.

Variables (ind : SymbolIndicators) (currentPrice : jsnum).





End Reasons.

End MonitoringSpec.

Import MonitoringSpec.

Module BuySpec.





End BuySpec.

Import BuySpec.

Module BuyExample.

Import Timeframes.

(** The snapshot of the specification's example: RSI 25, MACD histogram
    +0.5, lower Bollinger band 200 and price 201 (1.005 times the band),
    volume change 30. *)
Definition candles : list Candle :=
  [mkCandle (Fin 205) (Fin 207) (Fin 203) (Fin 204) (Fin 1000);
   mkCandle (Fin 204) (Fin 206) (Fin 202) (Fin 203) (Fin 1100);
   mkCandle (Fin 203) (Fin 204) (Fin 199) (Fin 200) (Fin 1200);
   mkCandle (Fin 200) (Fin 202) (Fin 198) (Fin 201) (Fin 1300);
   mkCandle (Fin 201) (Fin 203) (Fin 200) (Fin 201) (Fin 1560)].

Definition lows : list Q := [203; 202; 199; 198; 200]%Q.

Definition macd : MacdLast := mkMacdLast (JNum (Fin (-1.2))) (JNum (Fin (-1.7))) (JNum (Fin 0.5)).
Definition bands : BandsLast := mkBandsLast (JNum (Fin 220)) (JNum (Fin 210)) (JNum (Fin 200)).
Definition vol : VolumeAnalysis := mkVolume (JNum (Fin 1200)) (JNum (Fin 30)) false Increasing.
Definition trend : AdxLast := mkAdxLast (JNum (Fin 15)) (JNum (Fin 12)) (JNum (Fin 20)).

Definition snapshot : Analysis :=
  mkAnalysis (Fin 201) candles
    (mkIndicatorSet (JNum (Fin 25)) (JNum (Fin 210)) (JNum (Fin 215)) JUndef
       macd bands vol (mkSR [] [])
       (calculateFibonacciLevels (Fin 207) (Fin 198))
       (JNum (Fin 4)) trend []).

Definition symbol_indicators : Api.SymbolIndicators :=
  Api.mkSymbolIndicators (JNum (Fin 25)) macd bands vol (mkSR [] [])
    (JNum (Fin 4)) trend.

End BuyExample.

Module AveragesSpec.

(** A sequence aligned to an input of [n] elements: [period - 1] nulls,
    then numbers up to length [n]. *)
Definition aligned (out : list jsval) (n period : Z) : Prop :=
  alen out = n /\
  exists values : list jsnum,
    out = fill (period - 1) JNull ++ map JNum values /\
    alen values = n - (period - 1).

End AveragesSpec.

Import AveragesSpec.

Module RsiSpec.

(** Consecutive price changes. *)
Fixpoint deltas (qs : list Q) : list Q :=
  match qs with
  | a :: (b :: _) as rest => (b - a)%Q :: deltas rest
  | _ => []
  end.

Definition gain (change : Q) : Q := if Qltb 0 change then change else 0%Q.
Definition loss (change : Q) : Q := if Qltb change 0 then Qabs change else 0%Q.


(** [avg = (avg * (period - 1) + new) / period] *)
Definition smooth (period : Z) (avg x : Q) : Q :=
  ((avg * inject_Z (period - 1) + x) / inject_Z period)%Q.



Definition all_unchanged (changes : list Q) : Prop :=
  Forall (fun c => (c == 0)%Q) changes.
Definition no_loss (changes : list Q) : Prop :=
  Forall (fun c => (0 <= c)%Q) changes.
Definition no_gain (changes : list Q) : Prop :=
  Forall (fun c => (c <= 0)%Q) changes.



End RsiSpec.

Import RsiSpec.

Module LevelsSpec.

(** The level is within 0.5% of the group's running price, relative to
    that price. *)
Definition close_to (level : Level) (group : Group) : bool :=
  jlt (jdiv (jabs (jsub (level_price level) (group_price group)))
            (group_price group)) threshold.








End LevelsSpec.

Import LevelsSpec.

Module LevelsExample.



End LevelsExample.

Module RoundingSpec.

(** A number that went through [toFixed d]: if finite, it has at most [d]
    decimals. *)
Definition rounded (d : nat) (x : jsnum) : Prop :=
  match x with
  | Fin q => is_decimal d q = true
  | _ => True
  end.

End RoundingSpec.

Import RoundingSpec.

Module RoundingExample.

(** Twelve closes, eleven at 1 and the last at 2. *)
Definition closes : list jsnum := repeat (Fin 1) 11 ++ [Fin 2].

Definition quiet : Candle := mkCandle (Fin 9.5) (Fin 10) (Fin 9) (Fin 9.5) (Fin 1000).
Definition wide : Candle := mkCandle (Fin 9.5) (Fin 11) (Fin 9) (Fin 9.5) (Fin 1000).

(** Fifteen candles of range 1, but for one of range 2. *)
Definition candles : list Candle := repeat quiet 7 ++ [wide] ++ repeat quiet 7.

End RoundingExample.

Module AdxSpec.

(** A candle of finite numbers. *)
Record QCandle : Type := mkQCandle {
  q_open : Q;
  q_high : Q;
  q_low : Q;
  q_close : Q;
  q_volume : Q
}.

Definition candle_of (c : QCandle) : Candle :=
  mkCandle (Fin (q_open c)) (Fin (q_high c)) (Fin (q_low c)) (Fin (q_close c))
           (Fin (q_volume c)).

(** high >= low, high >= close, low <= close *)
Definition valid_ohlc (c : QCandle) : Prop :=
  (q_low c <= q_high c)%Q /\ (q_close c <= q_high c)%Q /\ (q_low c <= q_close c)%Q.

(** A number of the output: within [0, 100], or NaN. *)
Definition bounded_or_nan (x : jsnum) : Prop :=
  match x with
  | Fin q => (0 <= q <= 100)%Q
  | NaN => True
  | _ => False
  end.

(** An entry of the output: [null], or a number as above. *)
Definition entry_ok (v : jsval) : Prop :=
  match v with
  | JNum x => bounded_or_nan x
  | JNull => True
  | JUndef => False
  end.

(** True range and directional movements of one step: finite, the
    movements between 0 and the true range. *)
Definition movement_ok (tr pdm mdm : jsnum) : Prop :=
  exists t p m : Q,
    tr = Fin t /\ pdm = Fin p /\ mdm = Fin m /\
    (0 <= p <= t)%Q /\ (0 <= m <= t)%Q.

(** The invariant of the main loop of [calculateADX]. *)
Definition di_invariant (st : DIState) : Prop :=
  movement_ok (smoothedTR st) (smoothedPlusDM st) (smoothedMinusDM st) /\
  Forall bounded_or_nan (plusDIs st) /\
  Forall bounded_or_nan (minusDIs st) /\
  Forall bounded_or_nan (dxValues st).

End AdxSpec.

Import AdxSpec.

Module AdxExample.

Definition valid (c : Candle) : bool :=
  jge (high c) (low c) && jge (high c) (close c) && jle (low c) (close c).

(** A value of the output is within [0, 100]; [null] is not a value. *)
Definition within_0_100 (v : jsval) : bool :=
  match v with
  | JNum x => jle (Fin 0) x && jle x (Fin 100)
  | _ => true
  end.

(** Twenty-eight identical candles: high 10, low 9, close 9.5. *)
Definition sideways : list Candle :=
  repeat (mkCandle (Fin 9.5) (Fin 10) (Fin 9) (Fin 9.5) (Fin 1000)) 28.

(** Twenty-eight candles that never trade away from 10. *)
Definition frozen : list Candle :=
  repeat (mkCandle (Fin 10) (Fin 10) (Fin 10) (Fin 10) (Fin 1000)) 28.

End AdxExample.

Import AdxExample.

Module ShortHistory.

(** Ten candles: too few for the RSI (15), the MACD (35), the Bollinger
    bands (20), the volume analysis (14), the ATR (15) and the ADX (28). *)
Definition candles : list Candle :=
  [mkCandle (Fin 205) (Fin 207) (Fin 203) (Fin 204) (Fin 1000);
   mkCandle (Fin 204) (Fin 206) (Fin 202) (Fin 203) (Fin 1100);
   mkCandle (Fin 203) (Fin 204) (Fin 199) (Fin 200) (Fin 1200);
   mkCandle (Fin 200) (Fin 202) (Fin 198) (Fin 201) (Fin 1300);
   mkCandle (Fin 201) (Fin 203) (Fin 200) (Fin 202) (Fin 1250);
   mkCandle (Fin 202) (Fin 205) (Fin 201) (Fin 204) (Fin 1400);
   mkCandle (Fin 204) (Fin 206) (Fin 203) (Fin 205) (Fin 1350);
   mkCandle (Fin 205) (Fin 208) (Fin 204) (Fin 207) (Fin 1500);
   mkCandle (Fin 207) (Fin 209) (Fin 205) (Fin 206) (Fin 1450);
   mkCandle (Fin 206) (Fin 208) (Fin 204) (Fin 207) (Fin 1560)].

End ShortHistory.

(* ================================================================== *)
(** ** Strings and objects used as maps *)
(* ================================================================== *)

Module JSString.

(** [s.replace(c, '')] for a one-character pattern: only the first
    occurrence goes. *)
Fixpoint remove_first (c : Ascii.ascii) (s : string) : string :=
  match s with
  | EmptyString => EmptyString
  | String a rest =>
      if Ascii.eqb a c then rest else String a (remove_first c rest)
  end.

(** [s.split(c)] for a one-character separator; the result is never
    empty. *)
Fixpoint split_on (c : Ascii.ascii) (s : string) : list string :=
  match s with
  | EmptyString => [EmptyString]
  | String a rest =>
      if Ascii.eqb a c then EmptyString :: split_on c rest
      else match split_on c rest with
           | first :: others => String a first :: others
           | [] => [String a EmptyString]
           end
  end.

Definition slen (s : string) : Z := Z.of_nat (String.length s).

(** [s.slice(b, e)] *)
Definition str_slice (s : string) (b e : Z) : string :=
  let from := rel_index (slen s) b in
  let to := rel_index (slen s) e in
  substring (Z.to_nat from) (Z.to_nat (to - from)) s.

(** [s.toUpperCase()] on the letters a to z; other characters are kept. *)
Definition upper_char (a : Ascii.ascii) : Ascii.ascii :=
  let n := Ascii.nat_of_ascii a in
  if ((97 <=? n) && (n <=? 122))%nat then Ascii.ascii_of_nat (n - 32) else a.

Fixpoint toUpperCase (s : string) : string :=
  match s with
  | EmptyString => EmptyString
  | String a rest => String (upper_char a) (toUpperCase rest)
  end.

(** [list.includes(s)] *)
Definition includes (list : list string) (s : string) : bool :=
  existsb (String.eqb s) list.

End JSString.

Import JSString.

(** An object literal whose properties are set and read by computed keys,
    [obj[key] = v] and [obj[key]]: the latest assignment to a key is the
    one read, and a key never assigned reads as [undefined].  This holds
    for the keys that are not names of properties inherited from
    [Object.prototype]. *)
Module Store.

Section Store.

Context {V : Type}.

Definition store : Type := list (string * V).

Definition empty : store := [].

Fixpoint get (key : string) (s : store) : option V :=
  match s with
  | [] => None
  | (k, v) :: rest => if String.eqb k key then Some v else get key rest
  end.

Definition set (key : string) (v : V) (s : store) : store := (key, v) :: s.

End Store.

Arguments store V : clear implicits.

(** The names of the properties every object literal inherits. *)
Definition inherited : list string :=
  ["constructor"; "hasOwnProperty"; "isPrototypeOf"; "propertyIsEnumerable";
   "toLocaleString"; "toString"; "valueOf"; "__proto__";
   "__defineGetter__"; "__defineSetter__"; "__lookupGetter__";
   "__lookupSetter__"]%string.

(** A key under which an object literal holds what was assigned and
    nothing else. *)
Definition own_key (key : string) : bool :=
  negb (existsb (String.eqb key) inherited).

End Store.

(* ================================================================== *)
(** ** Historical data and its cache ([timeframes_module.js]) *)
(* ================================================================== *)

Module History.

Definition TIMEFRAMES : list string :=
  ["15m"; "30m"; "1h"; "2h"; "4h"; "6h"; "1d"; "3d"; "1w"]%string.

(** Milliseconds per candle. *)
Definition TIMEFRAME_INTERVALS : Store.store Z :=
  [("15m", 15 * 60 * 1000);
   ("30m", 30 * 60 * 1000);
   ("1h", 60 * 60 * 1000);
   ("2h", 2 * 60 * 60 * 1000);
   ("4h", 4 * 60 * 60 * 1000);
   ("6h", 6 * 60 * 60 * 1000);
   ("1d", 24 * 60 * 60 * 1000);
   ("3d", 3 * 24 * 60 * 60 * 1000);
   ("1w", 7 * 24 * 60 * 60 * 1000)]%string.

Definition BINANCE_INTERVALS : Store.store string :=
  [("15m", "15m"); ("30m", "30m"); ("1h", "1h"); ("2h", "2h"); ("4h", "4h");
   ("6h", "6h"); ("1d", "1d"); ("3d", "3d"); ("1w", "1w")]%string.

(** An entry [{ data, timestamp }] of [historicalDataCache]. *)
Record CacheEntry : Type := mkEntry {
  data : list Candle;
  timestamp : Z
}.

Definition Cache : Type := Store.store CacheEntry.

(** TTL of the cache: five minutes, in milliseconds. *)
Definition CACHE_TTL : Z := 5 * 60 * 1000.

(** [symbol.replace('/', '')] *)
Definition normalizedSymbol (symbol : string) : string :=
  remove_first "/"%char symbol.

(** [`${normalizedSymbol}_${timeframe}`] *)
Definition cacheKey (symbol timeframe : string) : string :=
  (normalizedSymbol symbol ++ "_" ++ timeframe)%string.

(** The two services, by the parameters of the request.  [None] stands for
    every way a request fails: [fetch] throws, the response is not ok, or
    its body has not the expected shape.  [Some candles] is the body once
    mapped to candles (numbers parsed). *)
Record Network : Type := mkNetwork {
  binance_klines : string -> string -> Z -> option (list Candle);
  cryptocompare_histo :
    string -> string -> string -> Z -> Z -> option (list Candle)
}.

(** The [switch (timeframe)] of [getHistoricalDataAlternative]:
    [(cryptoCompareTimeframe, aggregation)]. *)
Definition cryptoCompareParams (timeframe : string) : string * Z :=
  (if String.eqb timeframe "15m" then ("minute", 15)
  else if String.eqb timeframe "30m" then ("minute", 30)
  else if String.eqb timeframe "1h" then ("hour", 1)
  else if String.eqb timeframe "2h" then ("hour", 2)
  else if String.eqb timeframe "4h" then ("hour", 4)
  else if String.eqb timeframe "6h" then ("hour", 6)
  else if String.eqb timeframe "1d" then ("day", 1)
  else if String.eqb timeframe "3d" then ("day", 3)
  else if String.eqb timeframe "1w" then ("day", 7)
  else ("hour", 1))%string.

(** [quote || 'USDT'] for the second part of [symbol.split('/')]. *)
Definition quote_or_usdt (parts : list string) : string :=
  match nth_error parts 1 with
  | Some quote => if String.eqb quote "" then "USDT"%string else quote
  | None => "USDT"%string
  end.

(** [BINANCE_INTERVALS[timeframe] || '1h'] *)
Definition binance_interval (timeframe : string) : string :=
  match Store.get timeframe BINANCE_INTERVALS with
  | Some interval => interval
  | None => "1h"%string
  end.

Section Calls.

Variable net : Network.

(** [later] is the value of [Date.now()] when the cache is updated. *)
Definition getHistoricalDataAlternative (later : Z) (cache : Cache)
    (symbol timeframe : string) (limit : Z) : list Candle * Cache :=
  let parts := split_on "/"%char symbol in
  let base := nth 0 parts EmptyString in
  let '(cryptoCompareTimeframe, aggregation) := cryptoCompareParams timeframe in
  match cryptocompare_histo net cryptoCompareTimeframe base
          (quote_or_usdt parts) limit aggregation with
  | Some candles =>
      (candles,
       Store.set (cacheKey symbol timeframe) (mkEntry candles later) cache)
  | None => ([], cache)
  end.

(** [now] is the value of [Date.now()] on entry. *)
Definition getHistoricalData (now later : Z) (cache : Cache)
    (symbol timeframe : string) (limit : Z) : list Candle * Cache :=
  let key := cacheKey symbol timeframe in
  let refetch :=
    let interval := binance_interval timeframe in
    match binance_klines net (normalizedSymbol symbol) interval limit with
    | Some candles => (candles, Store.set key (mkEntry candles now) cache)
    | None =>
        match Store.get key cache with
        | Some entry => (data entry, cache)
        | None => getHistoricalDataAlternative later cache symbol timeframe limit
        end
    end in
  match Store.get key cache with
  | Some entry =>
      if now - timestamp entry <? CACHE_TTL then (data entry, cache)
      else refetch
  | None => refetch
  end.

End Calls.

End History.

(* ================================================================== *)
(** ** Batches of symbols ([timeframes_module.js]) *)
(* ================================================================== *)

Module Batches.

Import Timeframes.

Definition batchSize : Z := 5.

(** The values of [i] in [for (let i = 0; i < n; i += batchSize)]. *)
Definition batch_starts (n : Z) : list Z :=
  map (fun k => k * batchSize) (range 0 ((n + batchSize - 1) / batchSize)).

Section Generator.

Variable sqrtQ : Q -> Q.

(** [generateAlertsForMultipleSymbols], batch by batch: [Promise.all]
    keeps the order of the batch, [forEach] appends each result. *)
Definition generateAlertsForMultipleSymbols (history : string -> list Candle)
    (symbols : list string) (timeframe : string) : AlertSet :=
  fold_left
    (fun allAlerts i =>
       let batch := slice symbols i (i + batchSize) in
       let batchResults :=
         map (fun symbol =>
                generateTechnicalAlerts sqrtQ symbol timeframe (history symbol))
             batch in
       fold_left
         (fun allAlerts result =>
            mkAlerts (buy allAlerts ++ buy result)
                     (sell allAlerts ++ sell result)
                     (monitoring allAlerts ++ monitoring result))
         batchResults allAlerts)
    (batch_starts (alen symbols)) no_alerts.

End Generator.

End Batches.

(* ================================================================== *)
(** ** The exchange rate ([price_display_module.js]) *)
(* ================================================================== *)

Module PriceDisplay.

(** [exchangeRateCache]; its [rate] is [null] until a rate was fetched. *)
Record ExchangeRateCache : Type := mkRateCache {
  rate : jsval;
  rate_timestamp : Z;
  ttl : Z
}.

Definition exchangeRateCache0 : ExchangeRateCache :=
  mkRateCache JNull 0 (5 * 60 * 1000).

(** [response] is the bid of the rate service parsed by [parseFloat], or
    [None] when the request fails or its body has not the expected
    shape. *)
Definition getUSDToBRLRate (response : option jsnum) (now : Z)
    (cache : ExchangeRateCache) : jsnum * ExchangeRateCache :=
  if truthy (rate cache) && (now - rate_timestamp cache <? ttl cache)
  then (toNumber (rate cache), cache)
  else
    match response with
    | Some fetched => (fetched, mkRateCache (JNum fetched) now (5 * 60 * 1000))
    | None =>
        if truthy (rate cache) then (toNumber (rate cache), cache)
        else (Fin 5.3, cache)
    end.


End PriceDisplay.

(* ================================================================== *)
(** ** Current prices and their caches ([api.js]) *)
(* ================================================================== *)

(** Of the two copies of [api.js] in the sources the complete one is
    followed (the other stops inside [fetchCurrentPrices]). *)

Module Prices.

Definition MONITORED_COINS : list string :=
  ["BTC"; "ETH"; "SOL"; "BNB"; "AVAX"; "LINK"; "MATIC"; "DOT"]%string.

(** An entry [{ symbol, price }], with [priceBRL] once it was added. *)
Record Item : Type := mkItem {
  it_symbol : string;
  it_price : jsnum;
  it_priceBRL : option jsnum
}.

(** [priceCache]; [expirationTime] is two minutes. *)
Record PriceCache : Type := mkPriceCache {
  pc_lastUpdate : option Z;
  pc_prices : option (list Item)
}.

Definition price_expirationTime : Z := 2 * 60 * 1000.

(** [brlRateCache]; [expirationTime] is thirty minutes. *)
Record BrlRateCache : Type := mkBrlRateCache {
  brl_rate : jsnum;
  brl_lastUpdate : option Z
}.

Definition brl_expirationTime : Z := 30 * 60 * 1000.

Record State : Type := mkState {
  priceCache : PriceCache;
  brlRateCache : BrlRateCache
}.

Definition state0 : State :=
  mkState (mkPriceCache None None) (mkBrlRateCache (Fin 5.3) None).

(** What a call finds outside.  [converter] is [None] when
    [window.convertUSDTtoBRL] is not a function, and otherwise what
    [convertUSDTtoBRL(1)] gives; [ticker symbol] is the parsed price of
    Binance's answer for [symbol], [None] when that request fails;
    [cryptoCompare] holds the entries [(symbol, prices.USD)] of an ok
    response; [coinGecko] the pairs [(coin.symbol, coin.current_price)];
    [localFile] tells whether the page was loaded from [file:].  The
    fields [brl_check], [brl_store] and [price_store] are the values of
    [new Date()] at the test of the rate cache and at the two updates. *)
Record World : Type := mkWorld {
  localFile : bool;
  converter : option (result jsnum);
  ticker : string -> option jsnum;
  cryptoCompare : option (list (string * jsnum));
  coinGecko : option (list (string * jsnum));
  brl_check : Z;
  brl_store : Z;
  price_store : Z
}.

Section Calls.

Variable world : World.

Definition addBRLPrices (brl : BrlRateCache) (prices : list Item)
  : list Item * BrlRateCache :=
  match converter world with
  | Some conversion =>
      let fresh :=
        match brl_lastUpdate brl with
        | Some lastUpdate => brl_check world - lastUpdate <? brl_expirationTime
        | None => false
        end in
      let '(brlRate, brl') :=
        if fresh then (brl_rate brl, brl)
        else
          match conversion with
          | Ok testConversion =>
              (testConversion,
               mkBrlRateCache testConversion (Some (brl_store world)))
          | Throw _ => (brl_rate brl, brl)
          end in
      (map (fun item =>
              mkItem (it_symbol item) (it_price item)
                     (Some (jmul (it_price item) brlRate)))
           prices,
       brl')
  | None => (prices, brl)
  end.

(** [results.filter(result => result !== null)] *)
Definition non_null {A : Type} (results : list (option A)) : list A :=
  flat_map (fun r => match r with Some x => [x] | None => [] end) results.

(** [null] is [None]. *)
Definition fetchPricesFromBinance : option (list Item) :=
  let symbols := map (fun coin => (coin ++ "USDT")%string) MONITORED_COINS in
  let results :=
    map (fun symbol =>
           match ticker world symbol with
           | Some price =>
               Some (mkItem (str_slice symbol 0 (-4) ++ "/USDT")%string price None)
           | None => None
           end)
        symbols in
  let validResults := non_null results in
  if 0 <? alen validResults then Some validResults else None.

Definition fetchPricesFromCoinGecko : option (list Item) :=
  match coinGecko world with
  | Some coins =>
      Some (map (fun '(symbol, current_price) =>
                   mkItem (toUpperCase symbol ++ "/USDT")%string current_price None)
                coins)
  | None => None
  end.

Definition fetchSimulatedRealPrices : list Item :=
  [mkItem "BTC/USDT" (Fin 108646.09) None;
   mkItem "ETH/USDT" (Fin 2559.85) None;
   mkItem "SOL/USDT" (Fin 149.50) None;
   mkItem "BNB/USDT" (Fin 664.80) None;
   mkItem "AVAX/USDT" (Fin 36.20) None;
   mkItem "LINK/USDT" (Fin 18.75) None;
   mkItem "MATIC/USDT" (Fin 0.92) None;
   mkItem "DOT/USDT" (Fin 12.30) None].

(** [prices] go through [addBRLPrices] and into the cache. *)
Definition store_prices (st : State) (prices : list Item) : list Item * State :=
  let '(pricesWithBRL, brl') := addBRLPrices (brlRateCache st) prices in
  (pricesWithBRL,
   mkState (mkPriceCache (Some (price_store world)) (Some pricesWithBRL)) brl').

Definition non_empty (prices : option (list Item)) : option (list Item) :=
  match prices with
  | Some l => if 0 <? alen l then Some l else None
  | None => None
  end.

(** [Object.entries(data).map(([symbol, prices]) => ...)] *)
Definition cryptoCompare_prices (entries : list (string * jsnum)) : list Item :=
  map (fun '(symbol, usd) => mkItem (symbol ++ "/USDT")%string usd None) entries.

(** [now] is the value of [new Date()] at the test of the price cache.
    In a browser nothing reaches the outer [catch]: each source catches
    its own errors. *)
Definition fetchCurrentPrices (now : Z) (st : State) : list Item * State :=
  let fresh :=
    match pc_prices (priceCache st), pc_lastUpdate (priceCache st) with
    | Some cached, Some lastUpdate =>
        if now - lastUpdate <? price_expirationTime then Some cached else None
    | _, _ => None
    end in
  match fresh with
  | Some cached => (cached, st)
  | None =>
      if localFile world then (fetchSimulatedRealPrices, st)
      else
        match non_empty fetchPricesFromBinance with
        | Some binancePrices => store_prices st binancePrices
        | None =>
            match cryptoCompare world with
            | Some entries => store_prices st (cryptoCompare_prices entries)
            | None =>
                match non_empty fetchPricesFromCoinGecko with
                | Some coinGeckoPrices => store_prices st coinGeckoPrices
                | None =>
                    match pc_prices (priceCache st) with
                    | Some cached => (cached, st)
                    | None => store_prices st fetchSimulatedRealPrices
                    end
                end
            end
        end
  end.

(** [priceCache.lastUpdate = null], then [fetchCurrentPrices()]. *)
Definition forceUpdatePrices (now : Z) (st : State) : list Item * State :=
  fetchCurrentPrices now
    (mkState (mkPriceCache None (pc_prices (priceCache st))) (brlRateCache st)).

End Calls.

(** [setTimeframe] on the variable [currentTimeframe]: the answer and the
    new value. *)
Definition setTimeframe (currentTimeframe timeframe : string) : bool * string :=
  if includes ["15m"; "30m"; "1h"; "2h"; "4h"; "6h"; "1d"; "3d"; "1w"]%string
              timeframe
  then (true, timeframe)
  else (false, currentTimeframe).

Definition getCurrentTimeframe (currentTimeframe : string) : string :=
  currentTimeframe.

End Prices.

(* ================================================================== *)
(** ** Historical data of [api.js] and its simulated fall-back *)
(* ================================================================== *)

Module ApiHistory.

Import History Prices.

(** The state of the loop of [generateSimulatedHistoricalData]. *)
Record Simulation : Type := mkSimulation {
  sim_price : jsnum;
  sim_candles : list Candle
}.

Section Simulated.

(** [random k] is the value of the [k]-th call of [Math.random()], counted
    from 0. *)
Variable random : nat -> Q.

Definition rnd (k : nat) : jsnum := Fin (random k).

(** [priceCache.prices.find(item => item.symbol === symbol)] and the
    default of 100. *)
Definition simulated_currentPrice (pc : PriceCache) (symbol : string) : jsnum :=
  match pc_prices pc with
  | Some prices =>
      match find (fun item => String.eqb (it_symbol item) symbol) prices with
      | Some symbolData => it_price symbolData
      | None => Fin 100
      end
  | None => Fin 100
  end.

(** The body of the loop at index [i]; it draws the values
    [1 + 5 * i] to [5 + 5 * i] of [Math.random()]. *)
Definition simulate_step (currentPrice trend volatility : jsnum)
    (s : Simulation) (i : nat) : Simulation :=
  let k := (1 + 5 * i)%nat in
  let change :=
    jadd (jmul (jsub (rnd k) (Fin 0.5)) volatility)
         (jmul (jmul trend volatility) (Fin 0.2)) in
  let price := jadd (sim_price s) change in
  let open := price in
  let close :=
    jadd price (jmul (jmul (jsub (rnd (k + 1)) (Fin 0.5)) volatility) (Fin 0.5)) in
  let high :=
    jadd (jmax open close) (jmul (jmul (rnd (k + 2)) volatility) (Fin 0.5)) in
  let low :=
    jsub (jmin open close) (jmul (jmul (rnd (k + 3)) volatility) (Fin 0.5)) in
  let volume :=
    jmul (jmul currentPrice (Fin 100)) (jadd (Fin 0.5) (rnd (k + 4))) in
  mkSimulation price (sim_candles s ++ [mkCandle open high low close volume]).

Definition generateSimulatedHistoricalData (pc : PriceCache) (symbol : string)
  : list Candle :=
  let currentPrice := simulated_currentPrice pc symbol in
  let trend := if jgt (rnd 0) (Fin 0.5) then Fin 1 else Fin (-1) in
  let volatility := jmul currentPrice (Fin 0.02) in
  let price := jmul currentPrice (Fin 0.9) in
  sim_candles
    (fold_left (simulate_step currentPrice trend volatility)
               (seq 0 100) (mkSimulation price [])).

(** [klines symbol interval limit] is Binance's answer, as in
    [History.Network]. *)
Variable klines : string -> string -> Z -> option (list Candle).

Definition binanceIntervals : Store.store string :=
  [("15m", "15m"); ("30m", "30m"); ("1h", "1h"); ("2h", "2h"); ("4h", "4h");
   ("6h", "6h"); ("1d", "1d"); ("3d", "3d"); ("1w", "1w")]%string.

(** [binanceIntervals[timeframe] || '1h'] *)
Definition interval_of (timeframe : string) : string :=
  match Store.get timeframe binanceIntervals with
  | Some interval => interval
  | None => "1h"%string
  end.

Definition getHistoricalData (pc : PriceCache) (now : Z) (cache : Cache)
    (symbol timeframe : string) (limit : Z) : list Candle * Cache :=
  let key := cacheKey symbol timeframe in
  let refetch :=
    let interval := interval_of timeframe in
    match klines (normalizedSymbol symbol) interval limit with
    | Some candles => (candles, Store.set key (mkEntry candles now) cache)
    | None =>
        match Store.get key cache with
        | Some entry => (data entry, cache)
        | None => (generateSimulatedHistoricalData pc symbol, cache)
        end
    end in
  match Store.get key cache with
  | Some entry =>
      if now - timestamp entry <? 5 * 60 * 1000 then (data entry, cache)
      else refetch
  | None => refetch
  end.

End Simulated.

End ApiHistory.

(* ================================================================== *)
(** ** Further properties, in words of their own *)
(* ================================================================== *)

Module RangeSpec.

(** A finite number between [lo] and [hi]. *)
Definition between (lo hi : Q) (x : jsnum) : Prop :=
  match x with
  | Fin q => (lo <= q <= hi)%Q
  | _ => False
  end.


End RangeSpec.

Import RangeSpec.

Module AdxShape.

(** The number of entries of [plusDI] and [minusDI] for [n] prices. *)
Definition di_length (n period : Z) : Z :=
  if n =? 2 * period then n - 1
  else if n <=? 3 * period + 1 then 2 * period
  else if n <=? 5 * period + 1 then 4 * period
  else n - 1 - period.

End AdxShape.

Import AdxShape.

Module LevelsShape.

(** The touches counted by the groups. *)
Definition total_strength (groups : list Group) : Z :=
  fold_right Z.add 0 (map strength groups).

End LevelsShape.

Import LevelsShape.

Module SellSpec.



End SellSpec.

Import SellSpec.

Module AlertShape.

(** A BUY or SELL alert: of the given type, without monitoring type, with
    a stop loss and a target. *)
Definition trade_shape (t : AlertType) (a : Alert) : Prop :=
  type a = t /\ monitoring_type a = None /\
  stopLoss (levels a) <> None /\ target (levels a) <> None.

(** A monitoring alert: with a monitoring type, without stop loss and
    target, of confidence MEDIUM or HIGH. *)
Definition monitoring_shape (a : Alert) : Prop :=
  type a = MONITORING /\ monitoring_type a <> None /\
  stopLoss (levels a) = None /\ target (levels a) = None /\
  confidence a <> LOW.

(** Each list of the set holds alerts of its own kind only, all of them
    satisfying [P]. *)
Definition sorted_by_type (P : Alert -> Prop) (s : AlertSet) : Prop :=
  Forall (fun a => trade_shape BUY a /\ P a) (buy s) /\
  Forall (fun a => trade_shape SELL a /\ P a) (sell s) /\
  Forall (fun a => monitoring_shape a /\ P a) (monitoring s).

End AlertShape.

Import AlertShape.

Module TimeframeSpec.

(** Milliseconds in one unit of CryptoCompare's [histominute], [histohour]
    and [histoday]. *)
Definition unit_milliseconds (unit : string) : Z :=
  if String.eqb unit "minute" then 60 * 1000
  else if String.eqb unit "hour" then 60 * 60 * 1000
  else 24 * 60 * 60 * 1000.

(** The value of [currentTimeframe] after the calls [setTimeframe(t)] for
    [t] in [requests], in order. *)
Definition timeframe_after (requests : list string) (currentTimeframe : string)
  : string :=
  fold_left (fun current t => snd (Prices.setTimeframe current t))
            requests currentTimeframe.

End TimeframeSpec.

Import TimeframeSpec.

Module RateRuns.

Import PriceDisplay.

(** A run of calls to [getUSDToBRLRate], one per [(response, now)]: the
    rates returned, in order, and the cache left. *)
Fixpoint rates_returned (calls : list (option jsnum * Z))
    (cache : ExchangeRateCache) : list jsnum * ExchangeRateCache :=
  match calls with
  | [] => ([], cache)
  | (response, now) :: rest =>
      let '(r, cache') := getUSDToBRLRate response now cache in
      let '(rs, cache'') := rates_returned rest cache' in
      (r :: rs, cache'')
  end.

End RateRuns.

Import RateRuns.

Module SellExample.

Import Timeframes.

(** An overbought snapshot: RSI 80, MACD histogram -0.5, upper Bollinger
    band 200 and price 199, volume change 30. *)
Definition candles : list Candle :=
  [mkCandle (Fin 195) (Fin 197) (Fin 193) (Fin 196) (Fin 1000);
   mkCandle (Fin 196) (Fin 198) (Fin 195) (Fin 197) (Fin 1100);
   mkCandle (Fin 197) (Fin 201) (Fin 196) (Fin 200) (Fin 1200);
   mkCandle (Fin 200) (Fin 202) (Fin 198) (Fin 199) (Fin 1300);
   mkCandle (Fin 199) (Fin 200) (Fin 197) (Fin 199) (Fin 1560)].

Definition highs : list Q := [197; 198; 201; 202; 200]%Q.

Definition macd : MacdLast :=
  mkMacdLast (JNum (Fin 1.2)) (JNum (Fin 1.7)) (JNum (Fin (-0.5))).
Definition bands : BandsLast :=
  mkBandsLast (JNum (Fin 200)) (JNum (Fin 190)) (JNum (Fin 180)).
Definition vol : VolumeAnalysis :=
  mkVolume (JNum (Fin 1200)) (JNum (Fin 30)) false Increasing.
Definition trend : AdxLast :=
  mkAdxLast (JNum (Fin 15)) (JNum (Fin 20)) (JNum (Fin 12)).

Definition snapshot : Analysis :=
  mkAnalysis (Fin 199) candles
    (mkIndicatorSet (JNum (Fin 80)) (JNum (Fin 190)) (JNum (Fin 185)) JUndef
       macd bands vol (mkSR [] [])
       (calculateFibonacciLevels (Fin 202) (Fin 193))
       (JNum (Fin 4)) trend []).

Definition symbol_indicators : Api.SymbolIndicators :=
  Api.mkSymbolIndicators (JNum (Fin 80)) macd bands vol (mkSR [] [])
    (JNum (Fin 4)) trend.

End SellExample.

Module SimulationSpec.


End SimulationSpec.

Import SimulationSpec.

(* ================================================================== *)
(** ** Proofs *)
(* ================================================================== *)

(** *** Comparisons on rationals *)

Lemma Qltb_lt (a b : Q) : Qltb a b = true <-> (a < b)%Q.
Proof.
  unfold Qltb. rewrite negb_true_iff.
  split; intro H.
  - apply Qnot_le_lt. intro Hle. apply Qle_bool_iff in Hle. congruence.
  - destruct (Qle_bool b a) eqn:E; [|reflexivity].
    apply Qle_bool_iff in E. exfalso. apply (Qlt_not_le _ _ H E).
Qed.

Lemma Qltb_ge (a b : Q) : Qltb a b = false <-> (b <= a)%Q.
Proof.
  unfold Qltb. rewrite negb_false_iff. apply Qle_bool_iff.
Qed.

Lemma Qle_bool_gt (a b : Q) : Qle_bool a b = false <-> (b < a)%Q.
Proof.
  rewrite <- Qltb_lt. unfold Qltb. destruct (Qle_bool a b); simpl; intuition congruence.
Qed.

Lemma Qeq_bool_false (a b : Q) : Qeq_bool a b = false <-> ~ (a == b)%Q.
Proof.
  split.
  - apply Qeq_bool_neq.
  - intro H. destruct (Qeq_bool a b) eqn:E; [|reflexivity].
    apply Qeq_bool_iff in E. contradiction.
Qed.

(** Turn every boolean comparison on rationals in the context and goal into
    its proposition. *)
Ltac qbool :=
  repeat match goal with
  | H : Qltb _ _ = true |- _ => apply Qltb_lt in H
  | H : Qltb _ _ = false |- _ => apply Qltb_ge in H
  | H : Qle_bool _ _ = true |- _ => apply Qle_bool_iff in H
  | H : Qle_bool _ _ = false |- _ => apply Qle_bool_gt in H
  | H : Qeq_bool _ _ = true |- _ => apply Qeq_bool_iff in H
  | H : Qeq_bool _ _ = false |- _ => apply Qeq_bool_false in H
  | |- Qltb _ _ = true => apply Qltb_lt
  | |- Qltb _ _ = false => apply Qltb_ge
  | |- Qle_bool _ _ = true => apply Qle_bool_iff
  | |- Qle_bool _ _ = false => apply Qle_bool_gt
  | |- Qeq_bool _ _ = true => apply Qeq_bool_iff
  | |- Qeq_bool _ _ = false => apply Qeq_bool_false
  end.

(** Decide a boolean comparison on rationals by case analysis. *)
Ltac qcase b := let E := fresh "E" in destruct b eqn:E; qbool.




(** *** Buy and sell never fire together *)

Lemma rsi_zones_disjoint (rsi : jsval) :
  vlt rsi (JNum (Fin 30)) = true -> vgt rsi (JNum (Fin 70)) = false.
Proof.
  unfold vlt, vgt, jgt.
  destruct rsi as [[q| | |]| |]; simpl; try reflexivity; try discriminate.
  intro H. qbool. lra.
Qed.

Lemma timeframes_buy_sell_exclusive symbol timeframe analysis :
  let r := Timeframes.alerts_of_analysis symbol timeframe analysis in
  (length (buy r) <= 1)%nat /\ (length (sell r) <= 1)%nat /\
  (buy r = [] \/ sell r = []).
Proof.
  simpl. unfold Timeframes.buy_rule, Timeframes.sell_rule.
  destruct (vlt (Timeframes.i_rsi (Timeframes.an_indicators analysis)) (JNum (Fin 30))) eqn:B.
  - rewrite (rsi_zones_disjoint _ B). simpl. auto.
  - destruct (vgt _ _); simpl; auto.
Qed.

Lemma api_buy_sell_exclusive symbol timeframe ind price highs lows :
  let r := Api.alerts_of_symbol symbol timeframe ind price highs lows in
  (length (buy r) <= 1)%nat /\ (length (sell r) <= 1)%nat /\
  (buy r = [] \/ sell r = []).
Proof.
  simpl. unfold Api.buy_rule, Api.sell_rule.
  destruct (vlt (Api.s_rsi ind) (JNum (Fin 30))) eqn:B.
  - rewrite (rsi_zones_disjoint _ B). simpl. auto.
  - destruct (vgt _ _); simpl; auto.
Qed.

Lemma generateTechnicalAlerts_cases sqrtQ symbol timeframe candles :
  Timeframes.generateTechnicalAlerts sqrtQ symbol timeframe candles = no_alerts \/
  exists analysis,
    Timeframes.calculateAllIndicators sqrtQ candles = Timeframes.Snapshot analysis /\
    Timeframes.generateTechnicalAlerts sqrtQ symbol timeframe candles
      = Timeframes.alerts_of_analysis symbol timeframe analysis.
Proof.
  unfold Timeframes.generateTechnicalAlerts.
  destruct (Timeframes.calculateAllIndicators sqrtQ candles) as [analysis|msg]; simpl.
  - right. exists analysis. auto.
  - left. reflexivity.
Qed.

(** C10.  One run of the alert generator on one snapshot returns at most
    one BUY alert and at most one SELL alert, and never both: the BUY block
    asks for [rsi < 30] and the SELL block for [rsi > 70] on the same
    value.  This holds for the rule engine of the timeframe module, for the
    whole of [generateTechnicalAlerts], and for the per-symbol step of
    [fetchAlerts]. *)
Theorem buy_and_sell_never_together :
  (forall symbol timeframe analysis,
     let r := Timeframes.alerts_of_analysis symbol timeframe analysis in
     (length (buy r) <= 1)%nat /\ (length (sell r) <= 1)%nat /\
     (buy r = [] \/ sell r = [])) /\
  (forall sqrtQ symbol timeframe candles,
     let r := Timeframes.generateTechnicalAlerts sqrtQ symbol timeframe candles in
     (length (buy r) <= 1)%nat /\ (length (sell r) <= 1)%nat /\
     (buy r = [] \/ sell r = [])) /\
  (forall symbol timeframe ind price highs lows,
     let r := Api.alerts_of_symbol symbol timeframe ind price highs lows in
     (length (buy r) <= 1)%nat /\ (length (sell r) <= 1)%nat /\
     (buy r = [] \/ sell r = [])).
Proof.
  split; [|split].
  - exact timeframes_buy_sell_exclusive.
  - intros sqrtQ symbol timeframe candles.
    destruct (generateTechnicalAlerts_cases sqrtQ symbol timeframe candles)
      as [E | [analysis [_ E]]]; cbv zeta; rewrite E.
    + simpl. auto.
    + apply timeframes_buy_sell_exclusive.
  - exact api_buy_sell_exclusive.
Qed.

(** *** The monitoring alert of the per-price path *)








(** *** The BUY alert *)











(** *** Arrays and loops *)

Lemma range_length (lo hi : Z) : length (range lo hi) = Z.to_nat (hi - lo).
Proof. unfold range. now rewrite length_map, length_seq. Qed.

Lemma alen_app {A : Type} (l l' : list A) : alen (l ++ l') = alen l + alen l'.
Proof. unfold alen. rewrite length_app. lia. Qed.

Lemma alen_map {A B : Type} (f : A -> B) (l : list A) : alen (map f l) = alen l.
Proof. unfold alen. now rewrite length_map. Qed.

Lemma alen_range (lo hi : Z) : lo <= hi -> alen (range lo hi) = hi - lo.
Proof. intro H. unfold alen. rewrite range_length. lia. Qed.

Lemma alen_fill {A : Type} (n : Z) (x : A) : 0 <= n -> alen (fill n x) = n.
Proof. intro H. unfold alen, fill. rewrite repeat_length. lia. Qed.

Lemma alen_nonneg {A : Type} (l : list A) : 0 <= alen l.
Proof. unfold alen. lia. Qed.

Lemma map_const_range {A : Type} (x : A) (lo hi : Z) :
  map (fun _ => x) (range lo hi) = fill (hi - lo) x.
Proof.
  unfold range, fill. rewrite map_map.
  generalize (Z.to_nat (hi - lo)) as n. intro n. generalize 0%nat as k.
  induction n as [|n IH]; intro k; simpl; [reflexivity|].
  now rewrite IH.
Qed.

(** A loop that pushes one element per iteration. *)
Lemma push_loop_length {A I : Type} (f : list A -> I -> A) (idxs : list I) (init : list A) :
  length (fold_left (fun acc i => acc ++ [f acc i]) idxs init)
  = (length init + length idxs)%nat.
Proof.
  revert init. induction idxs as [|i idxs IH]; intro init; simpl.
  - lia.
  - rewrite IH, length_app. simpl. lia.
Qed.

Lemma ema_loop_length prices period multiplier smaFirst :
  length (ema_loop prices period multiplier smaFirst)
  = S (Z.to_nat (alen prices - period)).
Proof.
  unfold ema_loop.
  rewrite (push_loop_length
             (fun ema i =>
                toFixed 2 (jadd (jmul (jsub (anum prices i)
                                            (anum ema (alen ema - 1))) multiplier)
                                (anum ema (alen ema - 1))))).
  rewrite range_length. reflexivity.
Qed.

Lemma calculateSMA_aligned prices period :
  1 <= period -> period <= alen prices ->
  aligned (calculateSMA prices period) (alen prices) period.
Proof.
  intros H1 H2. unfold calculateSMA.
  destruct (alen prices <? period) eqn:E; [apply Z.ltb_lt in E; lia|].
  rewrite map_const_range, Z.sub_0_r.
  rewrite <- (map_map (fun i => toFixed 2 (jdiv (sum (slice prices (i - period + 1) (i + 1))) (of_Z period))) JNum).
  split.
  - rewrite alen_app, alen_fill, !alen_map, alen_range by lia. lia.
  - eexists. split; [reflexivity|].
    rewrite alen_map, alen_range by lia. lia.
Qed.

Lemma calculateEMA_aligned prices period :
  1 <= period -> period <= alen prices ->
  aligned (calculateEMA prices period) (alen prices) period.
Proof.
  intros H1 H2. unfold calculateEMA.
  destruct (alen prices <? period) eqn:E; [apply Z.ltb_lt in E; lia|].
  assert (L : alen (ema_loop prices period (jdiv (Fin 2) (of_Z (period + 1)))
                      (jdiv (sum (slice prices 0 period)) (of_Z period)))
              = alen prices - (period - 1)).
  { unfold alen at 1. rewrite ema_loop_length. lia. }
  split.
  - rewrite alen_app, alen_fill, alen_map, L by lia. lia.
  - eexists. split; [reflexivity|]. exact L.
Qed.

Lemma averages_short prices period :
  alen prices < period ->
  calculateSMA prices period = [] /\ calculateEMA prices period = [].
Proof.
  intro H. apply Z.ltb_lt in H. unfold calculateSMA, calculateEMA.
  now rewrite H.
Qed.

(** C8.  For a positive [period]: on at least [period] prices [calculateSMA]
    and [calculateEMA] each return as many entries as there are prices,
    [period - 1] nulls followed by numbers only; on fewer prices both
    return the empty array. *)
Theorem moving_averages_aligned :
  forall (prices : list jsnum) (period : Z),
    1 <= period ->
    (period <= alen prices /\
     aligned (calculateSMA prices period) (alen prices) period /\
     aligned (calculateEMA prices period) (alen prices) period) \/
    (alen prices < period /\
     calculateSMA prices period = [] /\ calculateEMA prices period = []).
Proof.
  intros prices period H1.
  destruct (Z_lt_le_dec (alen prices) period) as [Hs | Hl].
  - right. split; [exact Hs|]. now apply averages_short.
  - left. split; [exact Hl|]. split.
    + now apply calculateSMA_aligned.
    + now apply calculateEMA_aligned.
Qed.

(** Four prices and period 3: two nulls, then two numbers. *)
Lemma moving_averages_aligned_example :
  (3 <= alen [Fin 1; Fin 2; Fin 2; Fin 5] /\
   aligned (calculateSMA [Fin 1; Fin 2; Fin 2; Fin 5] 3) 4 3 /\
   aligned (calculateEMA [Fin 1; Fin 2; Fin 2; Fin 5] 3) 4 3) \/
  (alen [Fin 1; Fin 2; Fin 2; Fin 5] < 3 /\
   calculateSMA [Fin 1; Fin 2; Fin 2; Fin 5] 3 = [] /\
   calculateEMA [Fin 1; Fin 2; Fin 2; Fin 5] 3 = []).
Proof.
  apply (moving_averages_aligned [Fin 1; Fin 2; Fin 2; Fin 5] 3). lia.
Defined.

(** *** Index loops as list traversals *)

Lemma range_nil (lo hi : Z) : hi <= lo -> range lo hi = [].
Proof.
  intro H. unfold range. replace (Z.to_nat (hi - lo)) with 0%nat by lia. reflexivity.
Qed.

Lemma range_cons (lo hi : Z) : lo < hi -> range lo hi = lo :: range (lo + 1) hi.
Proof.
  intro H. unfold range.
  replace (Z.to_nat (hi - lo)) with (S (Z.to_nat (hi - (lo + 1)))) by lia.
  simpl. f_equal; [lia|].
  rewrite <- seq_shift, map_map. apply map_ext. intro k. lia.
Qed.

Lemma range_shift (k lo hi : Z) :
  range (lo + k) (hi + k) = map (fun i => i + k) (range lo hi).
Proof.
  unfold range. replace (hi + k - (lo + k)) with (hi - lo) by lia.
  rewrite map_map. apply map_ext. intro n. lia.
Qed.

Lemma aget_tail {A : Type} (x : A) (l : list A) (i : Z) :
  0 <= i -> aget (x :: l) (i + 1) = aget l i.
Proof.
  intro H. unfold aget.
  destruct (i + 1 <? 0) eqn:E1; [apply Z.ltb_lt in E1; lia|].
  destruct (i <? 0) eqn:E2; [apply Z.ltb_lt in E2; lia|].
  replace (Z.to_nat (i + 1)) with (S (Z.to_nat i)) by lia. reflexivity.
Qed.

Lemma anum_tail (x : jsnum) (l : list jsnum) (i : Z) :
  0 <= i -> anum (x :: l) (i + 1) = anum l i.
Proof. intro H. unfold anum. now rewrite aget_tail. Qed.








(** *** RSI *)

Lemma deltas_length (qs : list Q) : length (deltas qs) = (length qs - 1)%nat.
Proof.
  induction qs as [|a [|b rest] IH]; simpl in *; try reflexivity.
  rewrite IH. lia.
Qed.

Lemma price_changes_cons (a b : jsnum) (rest : list jsnum) :
  price_changes (a :: b :: rest) = jsub b a :: price_changes (b :: rest).
Proof.
  unfold price_changes.
  replace (alen (a :: b :: rest)) with (alen (b :: rest) + 1)
    by (unfold alen; simpl length; lia).
  rewrite range_cons by (unfold alen; simpl length; lia).
  rewrite (range_shift 1 1 (alen (b :: rest))).
  cbn [map]. f_equal.
  rewrite map_map. apply map_ext_in. intros i Hi.
  assert (1 <= i).
  { unfold range in Hi. apply in_map_iff in Hi. destruct Hi as [k [<- _]]. lia. }
  rewrite anum_tail by lia.
  replace (i + 1 - 1) with ((i - 1) + 1) by lia.
  rewrite anum_tail by lia. reflexivity.
Qed.

Lemma price_changes_finite (qs : list Q) :
  price_changes (map Fin qs) = map Fin (deltas qs).
Proof.
  induction qs as [|a [|b rest] IH]; try reflexivity.
  change (map Fin (a :: b :: rest)) with (Fin a :: Fin b :: map Fin rest).
  rewrite price_changes_cons. simpl deltas. simpl map at 2. f_equal. exact IH.
Qed.

Lemma gain_of_finite (c : Q) : gain_of (Fin c) = Fin (gain c).
Proof. unfold gain_of, gain, jgt. simpl. now destruct (Qltb 0 c). Qed.

Lemma loss_of_finite (c : Q) : loss_of (Fin c) = Fin (loss c).
Proof. unfold loss_of, loss. simpl. now destruct (Qltb c 0). Qed.



Lemma gain_zero (c : Q) : (gain c == 0)%Q <-> (c <= 0)%Q.
Proof. unfold gain. qcase (Qltb 0 c); split; intro; lra. Qed.

Lemma loss_zero (c : Q) : (loss c == 0)%Q <-> (0 <= c)%Q.
Proof.
  unfold loss. qcase (Qltb c 0); split; intro H; try lra.
  rewrite Qabs_neg in H by lra. lra.
Qed.

Lemma forallb_Forall {A : Type} (f : A -> bool) (P : A -> Prop) (l : list A) :
  (forall x, f x = true <-> P x) -> (forallb f l = true <-> Forall P l).
Proof.
  intro H. rewrite forallb_forall, Forall_forall.
  split; intros G x Hx; apply H, G, Hx.
Qed.

Lemma forallb_map_compose {A B : Type} (f : B -> bool) (g : A -> B) (l : list A) :
  forallb f (map g l) = forallb (fun x => f (g x)) l.
Proof.
  induction l as [|x l IH]; simpl; [reflexivity|]. now rewrite IH.
Qed.

Lemma allSame_spec (ch : list Q) :
  forallb (fun change => jeq change (Fin 0)) (map Fin ch) = true
  <-> all_unchanged ch.
Proof.
  rewrite forallb_map_compose. apply forallb_Forall. intro c. simpl. apply Qeq_bool_iff.
Qed.

Lemma allGains_spec (ch : list Q) :
  forallb (fun l => jeq l (Fin 0)) (map loss_of (map Fin ch)) = true
  <-> no_loss ch.
Proof.
  rewrite !forallb_map_compose. apply forallb_Forall. intro c.
  rewrite loss_of_finite. simpl. rewrite Qeq_bool_iff. apply loss_zero.
Qed.

Lemma allLosses_spec (ch : list Q) :
  forallb (fun g => jeq g (Fin 0)) (map gain_of (map Fin ch)) = true
  <-> no_gain ch.
Proof.
  rewrite !forallb_map_compose. apply forallb_Forall. intro c.
  rewrite gain_of_finite. simpl. rewrite Qeq_bool_iff. apply gain_zero.
Qed.


Lemma period_nonzero (period : Z) : 1 <= period -> Qeq_bool (inject_Z period) 0 = false.
Proof.
  intro H. qbool. intro E.
  assert (0 < inject_Z period)%Q by (rewrite <- (Zlt_Qlt 0); lia). lra.
Qed.

Lemma jdiv_period (x : Q) (period : Z) :
  1 <= period -> jdiv (Fin x) (of_Z period) = Fin (x / inject_Z period).
Proof. intro H. unfold of_Z. simpl. now rewrite period_nonzero. Qed.

Lemma wilder_step_finite (period : Z) (avg x : Q) :
  1 <= period -> wilder_step period (Fin avg) (Fin x) = Fin (smooth period avg x).
Proof.
  intro H. unfold wilder_step, smooth. cbn [jmul jadd of_Z]. now apply jdiv_period.
Qed.




(** **** Signs of the averages *)














Lemma Forall_firstn {A : Type} (P : A -> Prop) (n : nat) (l : list A) :
  Forall P l -> Forall P (firstn n l).
Proof.
  intro H. rewrite <- (firstn_skipn n l) in H. now apply Forall_app in H.
Qed.

Lemma Forall_skipn {A : Type} (P : A -> Prop) (n : nat) (l : list A) :
  Forall P l -> Forall P (skipn n l).
Proof.
  intro H. rewrite <- (firstn_skipn n l) in H. now apply Forall_app in H.
Qed.








Lemma calculateRSI_unchanged (period : Z) (prices : list Q) :
  period + 1 <= alen prices -> all_unchanged (deltas prices) ->
  calculateRSI (map Fin prices) period = JNum (Fin 50).
Proof.
  intros H A. unfold calculateRSI. rewrite alen_map.
  destruct (alen prices <? period + 1) eqn:E; [apply Z.ltb_lt in E; lia|].
  rewrite price_changes_finite. apply allSame_spec in A. now rewrite A.
Qed.

Lemma calculateRSI_no_loss (period : Z) (prices : list Q) :
  period + 1 <= alen prices ->
  ~ all_unchanged (deltas prices) -> no_loss (deltas prices) ->
  calculateRSI (map Fin prices) period = JNum (Fin 100).
Proof.
  intros H A B. unfold calculateRSI. rewrite alen_map.
  destruct (alen prices <? period + 1) eqn:E; [apply Z.ltb_lt in E; lia|].
  rewrite price_changes_finite.
  destruct (forallb _ (map Fin (deltas prices))) eqn:A1.
  { exfalso. apply A. now apply allSame_spec. }
  apply allGains_spec in B. now rewrite B.
Qed.

Lemma calculateRSI_no_gain (period : Z) (prices : list Q) :
  period + 1 <= alen prices ->
  ~ no_loss (deltas prices) -> no_gain (deltas prices) ->
  calculateRSI (map Fin prices) period = JNum (Fin 0).
Proof.
  intros H B C. unfold calculateRSI. rewrite alen_map.
  destruct (alen prices <? period + 1) eqn:E; [apply Z.ltb_lt in E; lia|].
  rewrite price_changes_finite.
  destruct (forallb _ (map Fin (deltas prices))) eqn:A1.
  { exfalso. apply B. apply allSame_spec in A1.
    eapply Forall_impl; [|exact A1]. intros c Hc. simpl in Hc. lra. }
  destruct (forallb _ (map loss_of (map Fin (deltas prices)))) eqn:A2.
  { exfalso. apply B. now apply allGains_spec. }
  apply allLosses_spec in C. now rewrite C.
Qed.









(** **** Constant, rising and falling prices *)

Lemma deltas_constant (p : Q) (n : nat) : all_unchanged (deltas (repeat p n)).
Proof.
  induction n as [|[|n] IH]; simpl; try constructor.
  - unfold Qminus. rewrite Qplus_opp_r. reflexivity.
  - exact IH.
Qed.

Lemma deltas_rising (prices : list Q) :
  Sorted Qlt prices -> Forall (fun c => (0 < c)%Q) (deltas prices).
Proof.
  induction 1 as [|a rest Hs IH Hh]; simpl; [constructor|].
  destruct rest as [|b rest]; [constructor|].
  constructor; [|exact IH]. inversion Hh; subst. lra.
Qed.

Lemma deltas_falling (prices : list Q) :
  Sorted (fun a b => (b < a)%Q) prices -> Forall (fun c => (c < 0)%Q) (deltas prices).
Proof.
  induction 1 as [|a rest Hs IH Hh]; simpl; [constructor|].
  destruct rest as [|b rest]; [constructor|].
  constructor; [|exact IH]. inversion Hh; subst. lra.
Qed.

Lemma deltas_nonempty (period : Z) (prices : list Q) :
  1 <= period -> period + 1 <= alen prices -> deltas prices <> [].
Proof.
  intros H1 H2 E. apply (f_equal (@length Q)) in E.
  rewrite deltas_length in E. unfold alen in H2. simpl in E. lia.
Qed.

(** A constant series has RSI 50. *)
Lemma rsi_of_constant_prices (p : Q) (n : nat) (period : Z) :
  period + 1 <= Z.of_nat n ->
  calculateRSI (map Fin (repeat p n)) period = JNum (Fin 50).
Proof.
  intro H. apply calculateRSI_unchanged.
  - unfold alen. now rewrite repeat_length.
  - apply deltas_constant.
Qed.

(** A strictly increasing series has RSI 100. *)
Lemma rsi_of_rising_prices (prices : list Q) (period : Z) :
  1 <= period -> period + 1 <= alen prices -> Sorted Qlt prices ->
  calculateRSI (map Fin prices) period = JNum (Fin 100).
Proof.
  intros H1 H2 S. pose proof (deltas_rising prices S) as R.
  pose proof (deltas_nonempty period prices H1 H2) as N.
  apply calculateRSI_no_loss; [assumption| |].
  - intro A. destruct (deltas prices) as [|c ch]; [congruence|].
    inversion A; inversion R; subst. lra.
  - eapply Forall_impl; [|exact R]. intros c Hc. simpl in Hc. lra.
Qed.

(** A strictly decreasing series has RSI 0. *)
Lemma rsi_of_falling_prices (prices : list Q) (period : Z) :
  1 <= period -> period + 1 <= alen prices ->
  Sorted (fun a b => (b < a)%Q) prices ->
  calculateRSI (map Fin prices) period = JNum (Fin 0).
Proof.
  intros H1 H2 S. pose proof (deltas_falling prices S) as R.
  pose proof (deltas_nonempty period prices H1 H2) as N.
  apply calculateRSI_no_gain; [assumption| |].
  - intro A. destruct (deltas prices) as [|c ch]; [congruence|].
    inversion A; inversion R; subst. lra.
  - eapply Forall_impl; [|exact R]. intros c Hc. simpl in Hc. lra.
Qed.

(** *** Support and resistance *)

Lemma in_range (lo hi i : Z) : In i (range lo hi) <-> lo <= i < hi.
Proof.
  unfold range. rewrite in_map_iff. split.
  - intros [k [<- Hk]]. apply in_seq in Hk. lia.
  - intro H. exists (Z.to_nat (i - lo)). split; [lia|]. apply in_seq. lia.
Qed.



Lemma close_to_finite (p g : Q) (i s : Z) :
  ~ (g == 0)%Q ->
  (close_to (mkLevel (Fin p) i) (mkGroup (Fin g) s) = true
   <-> (Qabs (p - g) / g < 0.005)%Q).
Proof.
  intro H. unfold close_to, threshold. cbn [level_price group_price jsub jabs jdiv].
  apply Qeq_bool_false in H. rewrite H. cbn [jlt]. apply Qltb_lt.
Qed.






(** **** Sorting by strength *)













(** *** Rounding *)

Lemma is_decimal_spec (d : nat) (q : Q) :
  is_decimal d q = true <-> exists n : Z, (q == n # pow10 d)%Q.
Proof.
  unfold is_decimal. rewrite Z.eqb_eq, Z.mod_divide by discriminate.
  unfold Z.divide, Qeq. simpl. reflexivity.
Qed.

Lemma roundQ_is_decimal (d : nat) (q : Q) : is_decimal d (roundQ d q) = true.
Proof.
  apply is_decimal_spec. eexists. unfold roundQ. reflexivity.
Qed.

Lemma toFixed_rounded (d : nat) (x : jsnum) : rounded d (toFixed d x).
Proof.
  destruct x; simpl; auto. apply roundQ_is_decimal.
Qed.

Lemma push_loop_Forall {A I : Type} (P : A -> Prop) (f : list A -> I -> A)
    (idxs : list I) (init : list A) :
  (forall acc i, P (f acc i)) ->
  Forall P (tl init) ->
  Forall P (tl (fold_left (fun acc i => acc ++ [f acc i]) idxs init)).
Proof.
  intro Hf. revert init. induction idxs as [|i idxs IH]; intros init H; simpl.
  - exact H.
  - apply IH. destruct init as [|x init]; simpl in *.
    + constructor.
    + apply Forall_app. split; [exact H|]. constructor; [apply Hf | constructor].
Qed.

Lemma ema_loop_rounded_after_seed prices period multiplier smaFirst :
  Forall (rounded 2) (tl (ema_loop prices period multiplier smaFirst)).
Proof.
  unfold ema_loop.
  apply (push_loop_Forall (rounded 2)
           (fun ema i =>
              toFixed 2 (jadd (jmul (jsub (anum prices i)
                                          (anum ema (alen ema - 1))) multiplier)
                              (anum ema (alen ema - 1))))).
  - intros acc i. apply toFixed_rounded.
  - constructor.
Qed.

(** C9 fails on the code: the first defined entry of the EMA is the mean
    13/12 of the first twelve closes, pushed without rounding, and the
    first defined entry of the ATR is the mean 15/14 of the first fourteen
    true ranges, pushed without rounding; neither has finitely many
    decimals. *)
Theorem seeds_are_not_rounded :
  calculateEMA RoundingExample.closes 12
    = repeat JNull 11 ++ [JNum (Fin (13 # 12))] /\
  is_decimal 2 (13 # 12) = false /\
  calculateATR RoundingExample.candles 14
    = repeat JNull 14 ++ [JNum (Fin (15 # 14))] /\
  is_decimal 4 (15 # 14) = false.
Proof.
  split; [|split; [|split]]; vm_compute; reflexivity.
Qed.

(** *** ADX away from the divisions by zero *)

Lemma Qfloor_half_nonneg (x : Q) : (0 <= x)%Q -> 0 <= Qfloor (x + (1 # 2)).
Proof.
  intro H. change 0 with (Qfloor 0). apply Qfloor_resp_le. lra.
Qed.

Lemma roundQ_2_bounds (q : Q) : (0 <= q <= 100)%Q -> (0 <= roundQ 2 q <= 100)%Q.
Proof.
  intros [H0 H1]. unfold roundQ, Qround_away.
  change (Zpos (pow10 2)) with 100. change (pow10 2) with 100%positive.
  assert (Hx : (0 <= q * inject_Z 100)%Q).
  { change (inject_Z 100) with 100%Q. lra. }
  assert (E : Qle_bool 0 (q * inject_Z 100) = true) by (now apply Qle_bool_iff).
  rewrite E.
  pose proof (Qfloor_half_nonneg _ Hx) as F0.
  assert (F1 : Qfloor (q * inject_Z 100 + (1 # 2)) <= 10000).
  { change 10000 with (Qfloor (10000 + (1 # 2))). apply Qfloor_resp_le.
    change (inject_Z 100) with 100%Q. lra. }
  split; unfold Qle; cbn [Qnum Qden]; lia.
Qed.

Lemma bounded_toFixed (x : jsnum) : bounded_or_nan x -> bounded_or_nan (toFixed 2 x).
Proof.
  destruct x; simpl; auto. apply roundQ_2_bounds.
Qed.

Lemma bounded_anum (l : list jsnum) (i : Z) :
  Forall bounded_or_nan l -> bounded_or_nan (anum l i).
Proof.
  intro H. unfold anum, aget. destruct (i <? 0); [exact I|].
  destruct (nth_error l (Z.to_nat i)) as [x|] eqn:E; [|exact I].
  apply nth_error_In in E. rewrite Forall_forall in H. now apply H.
Qed.

Lemma Forall_snoc {A : Type} (P : A -> Prop) (l : list A) (x : A) :
  Forall P l -> P x -> Forall P (l ++ [x]).
Proof. intros H Hx. apply Forall_app. split; [exact H | now constructor]. Qed.

(** *** Smoothing keeps the movements below the true range *)

Lemma Qdiv_le_self (x c : Q) : (0 <= x)%Q -> (1 <= c)%Q -> (x / c <= x)%Q.
Proof.
  intros Hx Hc. apply Qle_shift_div_r; [lra|].
  assert (R : (x * c == x + x * (c - 1))%Q) by ring.
  rewrite R. assert (0 <= x * (c - 1))%Q by (apply Qmult_le_0_compat; lra). lra.
Qed.

Lemma Qdiv_sub (x y c : Q) : ~ (c == 0)%Q -> (x / c - y / c == (x - y) / c)%Q.
Proof. intro H. field. exact H. Qed.

Lemma smooth_sum_finite (period : Z) (s x : Q) :
  1 <= period ->
  smooth_sum period (Fin s) (Fin x) = Fin (s - s / inject_Z period + x).
Proof.
  intro H. unfold smooth_sum. rewrite jdiv_period by assumption. reflexivity.
Qed.

Lemma smooth_sum_order (c s s' x x' : Q) :
  (1 <= c)%Q -> (0 <= s <= s')%Q -> (0 <= x <= x')%Q ->
  (0 <= s - s / c + x <= s' - s' / c + x')%Q.
Proof.
  intros Hc [Hs0 Hs] [Hx0 Hx]. split.
  - pose proof (Qdiv_le_self s c Hs0 Hc). lra.
  - assert (D : (0 <= s' - s)%Q) by lra.
    pose proof (Qdiv_le_self (s' - s) c D Hc) as L.
    rewrite <- Qdiv_sub in L by lra. lra.
Qed.

Lemma inject_Z_ge_1 (period : Z) : 1 <= period -> (1 <= inject_Z period)%Q.
Proof. intro H. rewrite <- (Zle_Qle 1). exact H. Qed.

Lemma movement_smooth (period : Z) (sT sP sM t p m : jsnum) :
  1 <= period ->
  movement_ok sT sP sM -> movement_ok t p m ->
  movement_ok (smooth_sum period sT t) (smooth_sum period sP p)
              (smooth_sum period sM m).
Proof.
  intros H [T [P [M [-> [-> [-> [HP HM]]]]]]] [t' [p' [m' [-> [-> [-> [Hp Hm]]]]]]].
  rewrite !smooth_sum_finite by assumption.
  pose proof (inject_Z_ge_1 period H) as Hc.
  do 3 eexists. repeat (split; [reflexivity|]).
  split; apply smooth_sum_order; assumption.
Qed.

(** **** One step of the loop *)

Lemma ratio_bounds (a b : Q) :
  (0 <= a <= b)%Q -> (0 < b)%Q -> (0 <= a / b * 100 <= 100)%Q.
Proof.
  intros [H0 H1] Hb.
  assert (L : (0 <= a / b)%Q) by (apply Qle_shift_div_l; lra).
  assert (U : (a / b <= 1)%Q) by (apply Qle_shift_div_r; lra).
  lra.
Qed.

Lemma di_bounded (P T : Q) :
  (0 <= P <= T)%Q -> bounded_or_nan (jmul (jdiv (Fin P) (Fin T)) (Fin 100)).
Proof.
  intros [H0 H1]. cbn [jdiv].
  qcase (Qeq_bool T 0).
  - assert (E0 : Qeq_bool P 0 = true) by (qbool; lra).
    rewrite E0. exact I.
  - cbn [jmul]. apply ratio_bounds; lra.
Qed.

Lemma dx_bounded (a b : jsnum) :
  bounded_or_nan a -> bounded_or_nan b ->
  bounded_or_nan (jmul (jabs (jdiv (jsub a b) (jadd a b))) (Fin 100)).
Proof.
  destruct a as [x| | |], b as [y| | |]; simpl; try tauto.
  intros [Hx0 Hx1] [Hy0 Hy1].
  qcase (Qeq_bool (x + y) 0).
  - assert (E0 : Qeq_bool (x - y) 0 = true) by (qbool; lra).
    rewrite E0. exact I.
  - cbn [jabs jmul bounded_or_nan].
    assert (Hs : (0 < x + y)%Q) by lra.
    assert (A : (Qabs ((x - y) / (x + y)) <= 1)%Q).
    { apply Qabs_Qle_condition. split.
      - apply Qle_shift_div_l; lra.
      - apply Qle_shift_div_r; lra. }
    pose proof (Qabs_nonneg ((x - y) / (x + y))). lra.
Qed.

Lemma di_step_invariant (period : Z) (trueRanges plusDM minusDM : list jsnum)
    (st : DIState) (i : Z) :
  1 <= period ->
  movement_ok (anum trueRanges i) (anum plusDM i) (anum minusDM i) ->
  di_invariant st ->
  di_invariant (di_step period trueRanges plusDM minusDM st i).
Proof.
  intros H Hm [Hs [HP [HM HD]]].
  pose proof (movement_smooth period _ _ _ _ _ _ H Hs Hm) as Hn.
  unfold di_step, di_invariant. cbn [smoothedTR smoothedPlusDM smoothedMinusDM
                                     plusDIs minusDIs dxValues].
  split; [exact Hn|].
  destruct Hn as [T [P [M [-> [-> [-> [HPn HMn]]]]]]].
  pose proof (di_bounded P T HPn) as BP.
  pose proof (di_bounded M T HMn) as BM.
  split; [|split].
  - apply Forall_snoc; [exact HP|]. now apply bounded_toFixed.
  - apply Forall_snoc; [exact HM|]. now apply bounded_toFixed.
  - apply Forall_snoc; [exact HD|]. apply bounded_toFixed. now apply dx_bounded.
Qed.

Lemma di_loop_invariant (period : Z) (trueRanges plusDM minusDM : list jsnum)
    (idxs : list Z) (st : DIState) :
  1 <= period ->
  Forall (fun i => movement_ok (anum trueRanges i) (anum plusDM i) (anum minusDM i)) idxs ->
  di_invariant st ->
  di_invariant (fold_left (di_step period trueRanges plusDM minusDM) idxs st).
Proof.
  intros H F. revert st. induction F as [|i idxs Hi _ IH]; intros st Hst; simpl.
  - exact Hst.
  - apply IH. now apply di_step_invariant.
Qed.

(** **** The movements of valid candles *)

Lemma cand_map (cs : list QCandle) (i : Z) (d : QCandle) :
  0 <= i < alen cs ->
  cand (map candle_of cs) i = candle_of (nth (Z.to_nat i) cs d).
Proof.
  intro H. unfold cand, aget.
  destruct (i <? 0) eqn:E; [apply Z.ltb_lt in E; lia|].
  rewrite nth_error_map.
  rewrite (nth_error_nth' cs d) by (unfold alen in H; lia). reflexivity.
Qed.

Lemma math_max_3_finite (a b c : Q) :
  exists t, math_max [Fin a; Fin b; Fin c] = Fin t /\
            (a <= t)%Q /\ (b <= t)%Q /\ (c <= t)%Q.
Proof.
  unfold math_max. cbn [fold_left]. unfold jmax at 3. cbn [jlt].
  unfold jmax at 2. cbn [jlt].
  qcase (Qltb a b).
  - unfold jmax. cbn [jlt].
    qcase (Qltb b c); eexists; (split; [reflexivity|]); lra.
  - unfold jmax. cbn [jlt].
    qcase (Qltb a c); eexists; (split; [reflexivity|]); lra.
Qed.

Lemma movement_of_candles (prices : list Candle) (i : Z) (c prev : QCandle) :
  cand prices i = candle_of c ->
  cand prices (i - 1) = candle_of prev ->
  valid_ohlc prev ->
  movement_ok (true_range prices i) (plus_dm prices i) (minus_dm prices i).
Proof.
  intros Hc Hp [V1 [V2 V3]].
  unfold true_range, plus_dm, minus_dm. rewrite Hc, Hp. cbn [high low close candle_of].
  cbn [jsub jabs].
  destruct (math_max_3_finite (q_high c - q_low c)
              (Qabs (q_high c - q_close prev))
              (Qabs (q_low c - q_close prev))) as [t [-> [T1 [T2 T3]]]].
  pose proof (Qle_Qabs (q_high c - q_close prev)) as A1.
  pose proof (Qle_Qabs (- (q_low c - q_close prev))) as A2.
  rewrite Qabs_opp in A2.
  pose proof (Qabs_nonneg (q_high c - q_close prev)) as A3.
  unfold jgt. cbn [jlt].
  qcase (Qltb (q_low prev - q_low c) (q_high c - q_high prev));
    qcase (Qltb 0 (q_high c - q_high prev));
    qcase (Qltb (q_high c - q_high prev) (q_low prev - q_low c));
    qcase (Qltb 0 (q_low prev - q_low c)); cbn [andb];
    do 3 eexists; (split; [reflexivity|]); (split; [reflexivity|]);
    (split; [reflexivity|]); split; split; lra.
Qed.

Lemma anum_map_range (f : Z -> jsnum) (lo hi i : Z) :
  0 <= i < hi - lo -> anum (map f (range lo hi)) i = f (lo + i).
Proof.
  intro H. unfold anum, aget, range.
  destruct (i <? 0) eqn:E; [apply Z.ltb_lt in E; lia|].
  rewrite !nth_error_map.
  rewrite (nth_error_nth' _ 0%nat) by (rewrite length_seq; lia).
  rewrite seq_nth by lia. simpl. f_equal. lia.
Qed.

Lemma candle_movements (cs : list QCandle) (i : Z) :
  Forall valid_ohlc cs -> 0 <= i < alen cs - 1 ->
  let prices := map candle_of cs in
  movement_ok (anum (map (true_range prices) (range 1 (alen prices))) i)
              (anum (map (plus_dm prices) (range 1 (alen prices))) i)
              (anum (map (minus_dm prices) (range 1 (alen prices))) i).
Proof.
  intros V H prices. unfold prices. rewrite alen_map.
  rewrite !anum_map_range by lia.
  set (d := mkQCandle 0 0 0 0 0).
  apply (movement_of_candles _ _ (nth (Z.to_nat (1 + i)) cs d)
                             (nth (Z.to_nat (1 + i - 1)) cs d)).
  - apply cand_map. lia.
  - apply cand_map. lia.
  - rewrite Forall_forall in V. apply V. apply nth_In. unfold alen in H. lia.
Qed.

(** **** The seeds *)

Lemma movement_sums (T P M : list jsnum) (t p m : jsnum) :
  Forall (fun x => movement_ok (fst (fst x)) (snd (fst x)) (snd x))
         (combine (combine T P) M) ->
  length T = length P -> length P = length M ->
  movement_ok t p m ->
  movement_ok (fold_left jadd T t) (fold_left jadd P p) (fold_left jadd M m).
Proof.
  revert P M t p m. induction T as [|x T IH]; intros [|y P] [|z M] t p m F L1 L2 H;
    simpl in *; try discriminate; [exact H|].
  inversion F as [|? ? Hx HF]; subst. simpl in Hx.
  apply IH; try assumption; try lia.
  destruct H as [t' [p' [m' [-> [-> [-> [Hp Hm]]]]]]].
  destruct Hx as [x' [y' [z' [-> [-> [-> [Hy Hz]]]]]]].
  do 3 eexists. repeat (split; [reflexivity|]). split; lra.
Qed.

Lemma combine_maps {A B C D : Type} (f : A -> B) (g : A -> C) (h : A -> D)
    (l : list A) :
  combine (combine (map f l) (map g l)) (map h l)
  = map (fun i => (f i, g i, h i)) l.
Proof.
  induction l as [|x l IH]; simpl; [reflexivity|]. now rewrite IH.
Qed.

Lemma slice_0 {A : Type} (l : list A) (n : Z) :
  0 <= n -> slice l 0 n = firstn (Z.to_nat n) l.
Proof.
  intro H. unfold slice, rel_index. cbn [Z.ltb Z.compare].
  rewrite (Z.min_l 0) by apply alen_nonneg. rewrite Z.sub_0_r. simpl skipn.
  destruct (n <? 0) eqn:E; [apply Z.ltb_lt in E; lia|].
  destruct (Z_le_gt_dec n (alen l)).
  - now rewrite Z.min_l by lia.
  - rewrite Z.min_r by lia. unfold alen in *. rewrite Nat2Z.id.
    rewrite !firstn_all2 by lia. reflexivity.
Qed.

Lemma seed_movements (cs : list QCandle) (period : Z) :
  Forall valid_ohlc cs -> 0 <= period ->
  let prices := map candle_of cs in
  movement_ok
    (sum (slice (map (true_range prices) (range 1 (alen prices))) 0 period))
    (sum (slice (map (plus_dm prices) (range 1 (alen prices))) 0 period))
    (sum (slice (map (minus_dm prices) (range 1 (alen prices))) 0 period)).
Proof.
  intros V H prices. rewrite !slice_0 by assumption. rewrite !firstn_map.
  unfold sum. apply movement_sums.
  - rewrite combine_maps. apply Forall_map.
    apply Forall_forall. intros i Hi. simpl.
    assert (Hr : In i (range 1 (alen prices))).
    { rewrite <- (firstn_skipn (Z.to_nat period) (range 1 (alen prices))).
      apply in_or_app. now left. }
    apply in_range in Hr. unfold prices in *. rewrite alen_map in Hr.
    pose proof (candle_movements cs (i - 1) V) as C. cbv zeta in C.
    rewrite alen_map, !anum_map_range in C by lia.
    replace (1 + (i - 1)) with i in C by lia. apply C. lia.
  - now rewrite !length_map.
  - now rewrite !length_map.
  - exists 0%Q, 0%Q, 0%Q. repeat (split; [reflexivity|]). split; lra.
Qed.

(** **** The ADX proper *)

Lemma fold_jadd_nan (l : list jsnum) : fold_left jadd l NaN = NaN.
Proof. induction l as [|x l IH]; simpl; [reflexivity | exact IH]. Qed.

Lemma sum_bounded (l : list jsnum) (a : Q) :
  Forall bounded_or_nan l ->
  match fold_left jadd l (Fin a) with
  | Fin s => (a <= s <= a + 100 * inject_Z (alen l))%Q
  | NaN => True
  | _ => False
  end.
Proof.
  intro F. revert a. induction F as [|x l Hx _ IH]; intro a.
  - simpl. change (inject_Z (alen [])) with 0%Q. lra.
  - assert (L : (inject_Z (alen (x :: l)) == inject_Z (alen l) + 1)%Q).
    { unfold alen. simpl length. rewrite Nat2Z.inj_succ, <- Z.add_1_r.
      now rewrite inject_Z_plus. }
    destruct x as [q| | |]; simpl in Hx; try contradiction.
    + simpl fold_left. specialize (IH (a + q)%Q).
      destruct (fold_left jadd l (Fin (a + q))); auto. rewrite L. lra.
    + simpl fold_left. now rewrite fold_jadd_nan.
Qed.

Lemma adx_seed_bounded (dxs : list jsnum) (period : Z) :
  1 <= period -> Forall bounded_or_nan dxs ->
  bounded_or_nan (jdiv (sum (slice dxs 0 period)) (of_Z period)).
Proof.
  intros H F. rewrite slice_0 by lia.
  pose proof (sum_bounded (firstn (Z.to_nat period) dxs) 0
                          (Forall_firstn _ _ _ F)) as B.
  unfold sum. destruct (fold_left jadd _ (Fin 0)) as [s| | |]; try contradiction.
  - rewrite jdiv_period by assumption. simpl.
    pose proof (inject_Z_ge_1 period H) as Hc.
    assert (Hl : (inject_Z (alen (firstn (Z.to_nat period) dxs)) <= inject_Z period)%Q).
    { rewrite <- Zle_Qle. unfold alen. rewrite length_firstn. lia. }
    split.
    + apply Qle_shift_div_l; lra.
    + apply Qle_shift_div_r; lra.
  - exact I.
Qed.

Lemma inject_Z_pred (period : Z) : (inject_Z (period - 1) == inject_Z period - 1)%Q.
Proof.
  unfold Z.sub. rewrite inject_Z_plus, inject_Z_opp. reflexivity.
Qed.

Lemma wilder_step_bounded (period : Z) (avg x : jsnum) :
  1 <= period -> bounded_or_nan avg -> bounded_or_nan x ->
  bounded_or_nan (wilder_step period avg x).
Proof.
  intros H Ha Hx.
  destruct avg as [a| | |]; simpl in Ha; try contradiction; [|exact I].
  destruct x as [q| | |]; simpl in Hx; try contradiction; [|exact I].
  rewrite wilder_step_finite by assumption. unfold smooth. simpl.
  pose proof (inject_Z_ge_1 period H) as Hc.
  rewrite inject_Z_pred.
  set (c := inject_Z period) in *.
  assert (L : (0 <= a * (c - 1))%Q) by (apply Qmult_le_0_compat; lra).
  assert (U : (a * (c - 1) <= 100 * (c - 1))%Q) by (apply Qmult_le_compat_r; lra).
  split.
  - apply Qle_shift_div_l; lra.
  - apply Qle_shift_div_r; lra.
Qed.

Lemma adx_loop_bounded (period : Z) (dxs : list jsnum) (idxs : list Z)
    (adx0 : jsnum) (values : list jsnum) :
  1 <= period -> Forall bounded_or_nan dxs ->
  bounded_or_nan adx0 -> Forall bounded_or_nan values ->
  Forall bounded_or_nan
    (snd (fold_left
            (fun '(adx, adxValues) i =>
               let adx' := wilder_step period adx (anum dxs (i + period - 1)) in
               (adx', adxValues ++ [toFixed 2 adx']))
            idxs (adx0, values))).
Proof.
  intros H F. revert adx0 values.
  induction idxs as [|i idxs IH]; intros adx0 values Ha Hv; simpl.
  - exact Hv.
  - assert (B : bounded_or_nan (wilder_step period adx0 (anum dxs (i + period - 1)))).
    { apply wilder_step_bounded; [assumption..|]. now apply bounded_anum. }
    apply IH; [exact B|]. apply Forall_snoc; [exact Hv|]. now apply bounded_toFixed.
Qed.

Lemma entries_of_numbers (l : list jsnum) :
  Forall bounded_or_nan l -> Forall entry_ok (map JNum l).
Proof. intro F. apply Forall_map. exact F. Qed.

Lemma entries_of_nulls (n : Z) : Forall entry_ok (fill n JNull).
Proof.
  unfold fill. apply Forall_forall. intros v Hv. apply repeat_spec in Hv.
  now subst.
Qed.

Lemma Forall_slice {A : Type} (P : A -> Prop) (l : list A) (s e : Z) :
  Forall P l -> Forall P (slice l s e).
Proof. intro F. unfold slice. now apply Forall_firstn, Forall_skipn. Qed.

(** On valid candles of finite numbers every entry of the three outputs of
    [calculateADX] is [null], a number within [0, 100], or NaN.  So the
    divisions by zero are the only way out of the interval. *)
Theorem adx_outputs_bounded_or_nan :
  forall (cs : list QCandle) (period : Z),
    1 <= period ->
    Forall valid_ohlc cs ->
    let result := calculateADX (map candle_of cs) period in
    Forall entry_ok (adx result) /\
    Forall entry_ok (plusDI result) /\
    Forall entry_ok (minusDI result).
Proof.
  intros cs period H V. cbv zeta. unfold calculateADX.
  set (prices := map candle_of cs).
  destruct (_ || _); [repeat split; constructor|].
  set (trueRanges := map (true_range prices) (range 1 (alen prices))).
  set (plusDM := map (plus_dm prices) (range 1 (alen prices))).
  set (minusDM := map (minus_dm prices) (range 1 (alen prices))).
  match goal with |- context [fold_left (di_step _ _ _ _) ?idxs ?st0] =>
    assert (Inv : di_invariant
                    (fold_left (di_step period trueRanges plusDM minusDM) idxs st0))
  end.
  { apply di_loop_invariant; [assumption| |].
    - apply Forall_forall. intros i Hi. apply in_range in Hi.
      unfold prices in Hi. rewrite alen_map in Hi.
      apply (candle_movements cs i V). lia.
    - split; [|repeat split; constructor].
      apply (seed_movements cs period V). lia. }
  destruct Inv as [_ [HP [HM HD]]].
  match goal with |- context [fold_left (di_step _ _ _ _) ?idxs ?st0] =>
    set (st := fold_left (di_step period trueRanges plusDM minusDM) idxs st0) in *
  end.
  pose proof (adx_seed_bounded (dxValues st) period H HD) as B0.
  match goal with |- context [fold_left ?f ?idxs (?a0, ?v0)] =>
    pose proof (adx_loop_bounded period (dxValues st) idxs a0 v0 H HD B0
                  (Forall_cons _ (bounded_toFixed _ B0) (Forall_nil _))) as BA;
    destruct (fold_left f idxs (a0, v0)) as [adxLast adxValues] eqn:E
  end.
  simpl snd in BA. cbn [adx plusDI minusDI].
  split; [|split]; apply Forall_app; split;
    try (now apply entries_of_numbers);
    try apply Forall_slice; apply entries_of_nulls.
Qed.

(** *** ADX on markets that do not move *)

(** C6 fails on the code.  On a valid series without directional movement
    both DI are 0 and DX is [|0 / 0| * 100], NaN, and so is the ADX; on a
    series without any range the DI themselves are [0 / 0].  NaN is not
    within [0, 100].  (Index 14 holds the first DI the loop computes.) *)
Theorem adx_is_nan_without_movement :
  (forallb valid sideways = true /\ 14 * 2 <= alen sideways /\
   last_val (adx (calculateADX sideways 14)) = JNum NaN /\
   aval (plusDI (calculateADX sideways 14)) 14 = JNum (Fin (0 # 100)) /\
   aval (minusDI (calculateADX sideways 14)) 14 = JNum (Fin (0 # 100))) /\
  (forallb valid frozen = true /\ 14 * 2 <= alen frozen /\
   last_val (adx (calculateADX frozen 14)) = JNum NaN /\
   aval (plusDI (calculateADX frozen 14)) 14 = JNum NaN /\
   aval (minusDI (calculateADX frozen 14)) 14 = JNum NaN) /\
  within_0_100 (JNum NaN) = false.
Proof.
  split; [|split].
  - split; [lazy; reflexivity|]. split; [lazy; discriminate|].
    split; [|split]; lazy; reflexivity.
  - split; [lazy; reflexivity|]. split; [lazy; discriminate|].
    split; [|split]; lazy; reflexivity.
  - reflexivity.
Qed.

(** *** Short histories *)

Lemma empty_history_no_alerts sqrtQ symbol timeframe :
  Timeframes.generateTechnicalAlerts sqrtQ symbol timeframe [] = no_alerts.
Proof. reflexivity. Qed.

Lemma error_outcome_no_alerts sqrtQ symbol timeframe candles message :
  Timeframes.calculateAllIndicators sqrtQ candles = Timeframes.ErrorOutcome message ->
  Timeframes.generateTechnicalAlerts sqrtQ symbol timeframe candles = no_alerts.
Proof.
  intro H. unfold Timeframes.generateTechnicalAlerts. now rewrite H.
Qed.

(** C5 fails on the code.  On ten candles no indicator can be computed:
    the RSI is [null], the MACD histogram, the lower band and the ADX are
    [undefined].  The aggregator still returns a snapshot, not the error
    outcome, and the generator, reading [null < 30] as true, emits a BUY
    alert of confidence LOW whose target is 1.3 times the price. *)
Theorem short_history_gives_buy_alert :
  forall sqrtQ : Q -> Q,
    (exists analysis,
       Timeframes.calculateAllIndicators sqrtQ ShortHistory.candles
         = Timeframes.Snapshot analysis /\
       Timeframes.i_rsi (Timeframes.an_indicators analysis) = JNull /\
       Timeframes.m_histogram (Timeframes.i_macd (Timeframes.an_indicators analysis)) = JUndef /\
       Timeframes.b_lower (Timeframes.i_bollinger (Timeframes.an_indicators analysis)) = JUndef /\
       Timeframes.adx_value (Timeframes.i_adx (Timeframes.an_indicators analysis)) = JUndef) /\
    (exists a,
       buy (Timeframes.generateTechnicalAlerts sqrtQ "BTC/USDT" "1w" ShortHistory.candles)
         = [a] /\
       type a = BUY /\ confidence a = LOW /\
       ind_rsi (indicators a) = JNull /\
       price a = Fin 207 /\
       target (levels a) = Some (Fin (207 * (1 + (30 - 0) / 100)))) /\
    Timeframes.generateTechnicalAlerts sqrtQ "BTC/USDT" "1w" [] = no_alerts.
Proof.
  intro sqrtQ. split; [|split].
  - eexists. split; [vm_compute; reflexivity|]. cbn. auto.
  - eexists. split; [vm_compute; reflexivity|].
    cbn [type confidence indicators ind_rsi price levels target].
    split; [reflexivity|]. split; [reflexivity|]. split; [reflexivity|].
    split; [reflexivity|]. vm_compute. reflexivity.
  - reflexivity.
Qed.

(** *** Rounding is monotone and keeps what is already rounded *)











(** *** The RSI lies between 0 and 100 *)





(** *** Windows of finite prices *)








(** *** The SMA stays within the range of the prices *)



(** *** The EMA stays within the range of the prices *)



Lemma between_weaken (lo hi lo' hi' : Q) (x : jsnum) :
  (lo' <= lo)%Q -> (hi <= hi')%Q -> between lo hi x -> between lo' hi' x.
Proof. destruct x; simpl; auto. intros; lra. Qed.

Lemma between_finite (lo hi : Q) (l : list jsnum) :
  Forall (between lo hi) l ->
  exists qs, l = map Fin qs /\ Forall (fun q => (lo <= q <= hi)%Q) qs.
Proof.
  induction 1 as [|x l Hx F [qs [-> Hqs]]].
  - exists []. split; [reflexivity | constructor].
  - destruct x as [q| | |]; try contradiction.
    exists (q :: qs). split; [reflexivity | now constructor].
Qed.









(** *** Fibonacci levels come in order *)



(** *** Reading an output by index *)

Lemma range_app (lo mid hi : Z) :
  lo <= mid <= hi -> range lo hi = range lo mid ++ range mid hi.
Proof.
  intro H. remember (Z.to_nat (mid - lo)) as k eqn:K.
  revert lo H K. induction k as [|k IH]; intros lo H K.
  - assert (mid = lo) by lia. subst mid. now rewrite (range_nil lo lo) by lia.
  - rewrite (range_cons lo hi), (range_cons lo mid) by lia.
    simpl. f_equal. apply IH; lia.
Qed.

Lemma range_split (a n : Z) : 0 <= a <= n -> range 0 n = range 0 a ++ range a n.
Proof. apply range_app. Qed.




(** *** The Bollinger bands enclose the middle band *)




Section Bands.

Variable sqrtQ : Q -> Q.
Hypothesis sqrtQ_nonneg : forall x : Q, (0 <= x)%Q -> (0 <= sqrtQ x)%Q.



End Bands.




(** *** The MACD is aligned with the prices *)

Lemma aval_app_l (l r : list jsval) (i : Z) :
  0 <= i < alen l -> aval (l ++ r) i = aval l i.
Proof.
  intro H. unfold aval, aget.
  destruct (i <? 0) eqn:E; [apply Z.ltb_lt in E; lia|].
  rewrite nth_error_app1 by (unfold alen in H; lia). reflexivity.
Qed.

Lemma aval_app_r (l r : list jsval) (i : Z) :
  alen l <= i -> aval (l ++ r) i = aval r (i - alen l).
Proof.
  intro H. pose proof (alen_nonneg l). unfold aval, aget.
  destruct (i <? 0) eqn:E; [apply Z.ltb_lt in E; lia|].
  destruct (i - alen l <? 0) eqn:E'; [apply Z.ltb_lt in E'; lia|].
  replace (Z.to_nat (i - alen l)) with (Z.to_nat i - length l)%nat
    by (unfold alen in *; lia).
  rewrite nth_error_app2 by (unfold alen in H; lia). reflexivity.
Qed.

Lemma aval_fill (n i : Z) (v : jsval) : 0 <= i < n -> aval (fill n v) i = v.
Proof.
  intro H. unfold aval, aget, fill.
  destruct (i <? 0) eqn:E; [apply Z.ltb_lt in E; lia|].
  rewrite nth_error_repeat by lia. reflexivity.
Qed.

Lemma aval_numbers (values : list jsnum) (i : Z) :
  0 <= i < alen values -> aval (map JNum values) i = JNum (anum values i).
Proof.
  intro H. unfold aval, anum, aget.
  destruct (i <? 0) eqn:E; [apply Z.ltb_lt in E; lia|].
  rewrite nth_error_map.
  destruct (nth_error values (Z.to_nat i)) eqn:N; [reflexivity|].
  apply nth_error_None in N. unfold alen in H. lia.
Qed.

(** Where an aligned output is not null. *)
Lemma aligned_not_null (out : list jsval) (n period i : Z) :
  1 <= period -> aligned out n period -> 0 <= i < n ->
  not_null (aval out i) = (period - 1 <=? i).
Proof.
  intros H1 [L [values [-> Lv]]] Hi.
  destruct (period - 1 <=? i) eqn:E.
  - apply Z.leb_le in E.
    rewrite aval_app_r by (rewrite alen_fill; lia).
    rewrite alen_fill, aval_numbers by lia. reflexivity.
  - apply Z.leb_gt in E.
    rewrite aval_app_l by (rewrite alen_fill; lia).
    now rewrite aval_fill by lia.
Qed.

Lemma fill_app {A : Type} (a b : Z) (x : A) :
  0 <= a -> 0 <= b -> fill a x ++ fill b x = fill (a + b) x.
Proof.
  intros Ha Hb. unfold fill. rewrite <- repeat_app. f_equal. lia.
Qed.

Lemma filter_nulls (n : Z) : filter not_null (fill n JNull) = [].
Proof.
  unfold fill. induction (Z.to_nat n) as [|k IH]; simpl; [reflexivity | exact IH].
Qed.

Lemma filter_numbers (values : list jsnum) :
  filter not_null (map JNum values) = map JNum values.
Proof.
  induction values as [|x values IH]; simpl; [reflexivity | now rewrite IH].
Qed.

(** The difference of two aligned outputs is aligned with the later of
    the two. *)
Lemma diff_aligned (a b : list jsval) (n pa pb : Z) :
  1 <= pa <= pb -> pb - 1 <= n ->
  aligned a n pa -> aligned b n pb ->
  aligned (map (diff_or_null a b) (range 0 n)) n pb.
Proof.
  intros Hp Hn Ha Hb.
  assert (E : map (diff_or_null a b) (range 0 n)
              = fill (pb - 1) JNull
                ++ map JNum (map (fun i => toFixed 2 (jsub (toNumber (aval a i))
                                                            (toNumber (aval b i))))
                                 (range (pb - 1) n))).
  { rewrite (range_split (pb - 1) n) by lia. rewrite map_app. f_equal.
    - rewrite <- (Z.sub_0_r (pb - 1)) at 2. rewrite <- map_const_range.
      apply map_ext_in. intros i Hi. apply in_range in Hi. unfold diff_or_null.
      rewrite (aligned_not_null b n pb i) by (assumption || lia).
      destruct (pb - 1 <=? i) eqn:E; [apply Z.leb_le in E; lia|].
      now rewrite andb_false_r.
    - rewrite map_map. apply map_ext_in. intros i Hi. apply in_range in Hi.
      unfold diff_or_null.
      rewrite (aligned_not_null a n pa i), (aligned_not_null b n pb i)
        by (assumption || lia).
      destruct (pa - 1 <=? i) eqn:E1; [|apply Z.leb_gt in E1; lia].
      destruct (pb - 1 <=? i) eqn:E2; [|apply Z.leb_gt in E2; lia].
      reflexivity. }
  rewrite E. split.
  - rewrite alen_app, alen_fill, !alen_map, alen_range by lia. lia.
  - eexists. split; [reflexivity|]. rewrite alen_map, alen_range by lia. lia.
Qed.

Lemma calculateMACD_aligned (prices : list jsnum) (fastPeriod slowPeriod signalPeriod : Z) :
  1 <= fastPeriod <= slowPeriod -> 1 <= signalPeriod ->
  slowPeriod + signalPeriod <= alen prices ->
  let m := calculateMACD prices fastPeriod slowPeriod signalPeriod in
  aligned (macd_line m) (alen prices) slowPeriod /\
  aligned (macd_signal m) (alen prices) (slowPeriod + signalPeriod - 1) /\
  aligned (macd_histogram m) (alen prices) (slowPeriod + signalPeriod - 1).
Proof.
  intros Hf Hs Hn. cbv zeta. unfold calculateMACD.
  destruct (alen prices <? slowPeriod + signalPeriod) eqn:E;
    [apply Z.ltb_lt in E; lia|].
  cbn [macd_line macd_signal macd_histogram].
  set (n := alen prices) in *.
  assert (Line : aligned (map (diff_or_null (calculateEMA prices fastPeriod)
                                            (calculateEMA prices slowPeriod))
                              (range 0 n)) n slowPeriod).
  { apply (diff_aligned _ _ n fastPeriod slowPeriod); [lia | lia | |];
      apply calculateEMA_aligned; unfold n in *; lia. }
  set (macdLine := map (diff_or_null (calculateEMA prices fastPeriod)
                                     (calculateEMA prices slowPeriod))
                       (range 0 n)) in *.
  destruct Line as [Ln [values [Ev Lv]]].
  assert (Valid : filter not_null macdLine = map JNum values).
  { rewrite Ev, filter_app, filter_nulls, filter_numbers. reflexivity. }
  rewrite Valid, map_map. cbn [toNumber]. rewrite map_id.
  rewrite Ln, alen_map, Lv.
  destruct (calculateEMA_aligned values signalPeriod) as [Ls [svalues [Es Lsv]]];
    [lia | lia |].
  assert (Signal : aligned (fill (n - (n - (slowPeriod - 1))) JNull
                            ++ calculateEMA values signalPeriod)
                           n (slowPeriod + signalPeriod - 1)).
  { split.
    - rewrite alen_app, alen_fill, Ls by lia. lia.
    - exists svalues. split.
      + rewrite Es, app_assoc, fill_app by lia. do 2 f_equal. lia.
      + lia. }
  split; [|split].
  - split; [exact Ln|]. exists values. split; [exact Ev | exact Lv].
  - exact Signal.
  - apply (diff_aligned _ _ n slowPeriod (slowPeriod + signalPeriod - 1));
      [lia | lia | | exact Signal].
    split; [exact Ln|]. exists values. split; [exact Ev | exact Lv].
Qed.

(** For periods [1 <= fast <= slow] and [1 <= signal]: on at least
    [slow + signal] prices the three outputs of [calculateMACD] are as
    long as the prices; the line is null before index [slow - 1] and a
    number from there on, the signal and the histogram are null before
    index [slow + signal - 2] and numbers from there on.  On fewer prices
    the three outputs are empty. *)
Theorem macd_aligned :
  forall (prices : list jsnum) (fastPeriod slowPeriod signalPeriod : Z),
    1 <= fastPeriod <= slowPeriod -> 1 <= signalPeriod ->
    let m := calculateMACD prices fastPeriod slowPeriod signalPeriod in
    (slowPeriod + signalPeriod <= alen prices /\
     aligned (macd_line m) (alen prices) slowPeriod /\
     aligned (macd_signal m) (alen prices) (slowPeriod + signalPeriod - 1) /\
     aligned (macd_histogram m) (alen prices) (slowPeriod + signalPeriod - 1)) \/
    (alen prices < slowPeriod + signalPeriod /\ m = mkMACD [] [] []).
Proof.
  intros prices fastPeriod slowPeriod signalPeriod Hf Hs. cbv zeta.
  destruct (Z_lt_le_dec (alen prices) (slowPeriod + signalPeriod)) as [H | H].
  - right. split; [exact H|]. unfold calculateMACD.
    apply Z.ltb_lt in H. now rewrite H.
  - left. split; [exact H|]. now apply calculateMACD_aligned.
Qed.

(** Six prices with periods 2, 3 and 2. *)
Lemma macd_aligned_example :
  let m := calculateMACD [Fin 1; Fin 2; Fin 4; Fin 3; Fin 5; Fin 6] 2 3 2 in
  (3 + 2 <= alen [Fin 1; Fin 2; Fin 4; Fin 3; Fin 5; Fin 6] /\
   aligned (macd_line m) (alen [Fin 1; Fin 2; Fin 4; Fin 3; Fin 5; Fin 6]) 3 /\
   aligned (macd_signal m) (alen [Fin 1; Fin 2; Fin 4; Fin 3; Fin 5; Fin 6]) (3 + 2 - 1) /\
   aligned (macd_histogram m) (alen [Fin 1; Fin 2; Fin 4; Fin 3; Fin 5; Fin 6]) (3 + 2 - 1)) \/
  (alen [Fin 1; Fin 2; Fin 4; Fin 3; Fin 5; Fin 6] < 3 + 2 /\ m = mkMACD [] [] []).
Proof.
  apply (macd_aligned [Fin 1; Fin 2; Fin 4; Fin 3; Fin 5; Fin 6] 2 3 2); lia.
Defined.


(** *** The ATR is aligned with the candles and never negative *)









(** *** The lengths of the outputs of the ADX *)

Lemma di_loop_lengths (period : Z) (trueRanges plusDM minusDM : list jsnum)
    (idxs : list Z) (st : DIState) :
  let st' := fold_left (di_step period trueRanges plusDM minusDM) idxs st in
  alen (plusDIs st') = alen (plusDIs st) + alen idxs /\
  alen (minusDIs st') = alen (minusDIs st) + alen idxs /\
  alen (dxValues st') = alen (dxValues st) + alen idxs.
Proof.
  cbv zeta. revert st. induction idxs as [|i idxs IH]; intro st.
  - change (alen (@nil Z)) with 0. simpl. lia.
  - cbn [fold_left]. destruct (IH (di_step period trueRanges plusDM minusDM st i))
      as [A [B C]].
    rewrite A, B, C. unfold di_step. cbn [plusDIs minusDIs dxValues].
    rewrite !alen_app. unfold alen. simpl length. lia.
Qed.

Lemma adx_values_length (period : Z) (dxs : list jsnum) (idxs : list Z)
    (adx0 : jsnum) (values : list jsnum) :
  alen (snd (fold_left
               (fun '(adx, adxValues) i =>
                  let adx' := wilder_step period adx (anum dxs (i + period - 1)) in
                  (adx', adxValues ++ [toFixed 2 adx']))
               idxs (adx0, values)))
  = alen values + alen idxs.
Proof.
  revert adx0 values. induction idxs as [|i idxs IH]; intros adx0 values.
  - change (alen (@nil Z)) with 0. simpl. lia.
  - cbn [fold_left]. rewrite IH, alen_app. unfold alen. simpl length. lia.
Qed.

Lemma alen_slice_0 {A : Type} (l : list A) (e : Z) :
  alen (slice l 0 e)
  = if e <? 0 then Z.max (alen l + e) 0 else Z.min e (alen l).
Proof.
  pose proof (alen_nonneg l) as Hl. unfold slice, rel_index.
  cbn [Z.ltb Z.compare]. rewrite (Z.min_l 0) by lia. simpl skipn.
  unfold alen in *. rewrite length_firstn.
  destruct (e <? 0) eqn:E; [apply Z.ltb_lt in E | apply Z.ltb_ge in E]; lia.
Qed.

(** For a positive [period], at least [2 * period] candles and a first
    high that is neither 0 nor NaN: the [adx] output has one entry per
    candle, nulls up to index [min (n - 1) (2 * period)] and numbers from
    there on.  The [plusDI] and [minusDI] outputs have [di_length n period]
    entries, which is the number [n] of candles only if
    [n = 4 * period]. *)
Theorem adx_lengths :
  forall (prices : list Candle) (period : Z),
    1 <= period -> 2 * period <= alen prices ->
    num_truthy (high (cand prices 0)) = true ->
    let r := calculateADX prices period in
    let n := alen prices in
    (exists values : list jsnum,
       adx r = fill (Z.min (n - 1) (2 * period)) JNull ++ map JNum values /\
       alen values = n - Z.min (n - 1) (2 * period)) /\
    alen (adx r) = n /\
    alen (plusDI r) = di_length n period /\
    alen (minusDI r) = di_length n period /\
    (alen (plusDI r) = n \/ alen (minusDI r) = n -> n = 4 * period).
Proof.
  intros prices period H1 H2 Hh. cbv zeta. unfold calculateADX. rewrite Hh.
  destruct (alen prices <? period * 2) eqn:E; [apply Z.ltb_lt in E; lia|].
  cbn [orb negb].
  set (n := alen prices) in *.
  match goal with |- context [fold_left (di_step ?p ?t ?pd ?md) ?idxs ?st0] =>
    pose proof (di_loop_lengths p t pd md idxs st0) as Ldi; cbv zeta in Ldi;
    set (st := fold_left (di_step p t pd md) idxs st0) in *
  end.
  cbn [plusDIs minusDIs dxValues] in Ldi.
  change (alen (@nil jsnum)) with 0 in Ldi.
  rewrite alen_range in Ldi by lia.
  destruct Ldi as [LP [LM LD]].
  match goal with |- context [fold_left ?f ?idxs (?a0, ?v0)] =>
    pose proof (adx_values_length period (dxValues st) idxs a0 v0) as La;
    destruct (fold_left f idxs (a0, v0)) as [adxLast adxValues]
  end.
  cbn [snd] in La. change (alen [?x]) with 1 in La.
  cbn [adx plusDI minusDI].
  assert (La' : alen adxValues = Z.max 1 (n - 2 * period)).
  { rewrite La. destruct (Z_le_gt_dec (alen (dxValues st) - period + 1) 1).
    - rewrite range_nil by lia. change (alen (@nil Z)) with 0. lia.
    - rewrite alen_range by lia. lia. }
  assert (Lpad : alen (fill (n - alen adxValues) JNull : list jsval)
                 = n - alen adxValues).
  { apply alen_fill. lia. }
  assert (DI : forall dis : list jsnum,
             alen dis = n - 1 - period ->
             alen (slice (fill (n - alen adxValues) JNull : list jsval) 0
                         (alen (fill (n - alen adxValues) JNull : list jsval) - alen dis)
                   ++ map JNum dis)
             = di_length n period).
  { intros dis Ld. rewrite alen_app, alen_map, alen_slice_0, Lpad, Ld, La'.
    unfold di_length.
    destruct (n - Z.max 1 (n - 2 * period) - (n - 1 - period) <? 0) eqn:C1;
      [apply Z.ltb_lt in C1 | apply Z.ltb_ge in C1];
    destruct (n =? 2 * period) eqn:C2;
      [apply Z.eqb_eq in C2 | apply Z.eqb_neq in C2
      |apply Z.eqb_eq in C2 | apply Z.eqb_neq in C2];
    destruct (n <=? 3 * period + 1) eqn:C3;
      try (apply Z.leb_le in C3); try (apply Z.leb_gt in C3);
    destruct (n <=? 5 * period + 1) eqn:C4;
      try (apply Z.leb_le in C4); try (apply Z.leb_gt in C4); lia. }
  assert (LP' : alen (plusDIs st) = n - 1 - period) by lia.
  assert (LM' : alen (minusDIs st) = n - 1 - period) by lia.
  split; [|split; [|split; [|split]]].
  - exists adxValues. split; [|lia]. do 2 f_equal. lia.
  - rewrite alen_app, Lpad, alen_map. lia.
  - now apply DI.
  - now apply DI.
  - rewrite !DI by assumption. unfold di_length.
    destruct (n =? 2 * period) eqn:C2;
      [apply Z.eqb_eq in C2 | apply Z.eqb_neq in C2];
    destruct (n <=? 3 * period + 1) eqn:C3;
      try (apply Z.leb_le in C3); try (apply Z.leb_gt in C3);
    destruct (n <=? 5 * period + 1) eqn:C4;
      try (apply Z.leb_le in C4); try (apply Z.leb_gt in C4); lia.
Qed.

(** A hundred candles, as the callers fetch them, and period 14: a hundred
    entries of ADX, eighty-five of each DI. *)
Lemma adx_lengths_example :
  let prices := repeat (mkCandle (Fin 2) (Fin 3) (Fin 1) (Fin 2) (Fin 10)) 100 in
  let r := calculateADX prices 14 in
  let n := alen prices in
  (exists values : list jsnum,
     adx r = fill (Z.min (n - 1) (2 * 14)) JNull ++ map JNum values /\
     alen values = n - Z.min (n - 1) (2 * 14)) /\
  alen (adx r) = n /\
  alen (plusDI r) = di_length n 14 /\
  alen (minusDI r) = di_length n 14 /\
  (alen (plusDI r) = n \/ alen (minusDI r) = n -> n = 4 * 14).
Proof.
  apply (adx_lengths (repeat (mkCandle (Fin 2) (Fin 3) (Fin 1) (Fin 2) (Fin 10)) 100) 14).
  - lia.
  - vm_compute. discriminate.
  - reflexivity.
Defined.


(** *** Clustering counts every level once *)

Lemma merge_level_counts (level : Level) (grouped grouped' : list Group) :
  merge_level level grouped = Some grouped' ->
  total_strength grouped' = total_strength grouped + 1 /\
  alen grouped' = alen grouped /\
  (Forall (fun g => 1 <= strength g) grouped ->
   Forall (fun g => 1 <= strength g) grouped').
Proof.
  revert grouped'. induction grouped as [|g rest IH]; intros grouped' H.
  - discriminate.
  - cbn [merge_level] in H.
    destruct (jlt _ threshold).
    + injection H as <-. unfold total_strength, alen. cbn.
      split; [lia|]. split; [reflexivity|].
      intro F. inversion F as [|? ? Hg Hr]; subst.
      constructor; [cbn [strength]; lia | exact Hr].
    + destruct (merge_level level rest) as [rest'|]; [|discriminate].
      injection H as <-. destruct (IH rest' eq_refl) as [T [L F']].
      unfold total_strength, alen in *. cbn. split; [lia|]. split; [lia|].
      intro F. inversion F as [|? ? Hg Hr]; subst.
      constructor; [exact Hg | now apply F'].
Qed.

Lemma add_level_counts (grouped : list Group) (level : Level) :
  total_strength (add_level grouped level) = total_strength grouped + 1 /\
  alen (add_level grouped level) <= alen grouped + 1 /\
  (Forall (fun g => 1 <= strength g) grouped ->
   Forall (fun g => 1 <= strength g) (add_level grouped level)).
Proof.
  unfold add_level. destruct (merge_level level grouped) as [grouped'|] eqn:E.
  - destruct (merge_level_counts _ _ _ E) as [T [L F]]. split; [exact T|].
    split; [lia | exact F].
  - split; [|split].
    + unfold total_strength. rewrite map_app, fold_right_app. cbn.
      generalize (map strength grouped) as l. induction l as [|x l IH]; cbn; lia.
    + rewrite alen_app. unfold alen. simpl length. lia.
    + intro F. apply Forall_snoc; [exact F | cbn; lia].
Qed.

Lemma fold_add_level_counts (levels : list Level) (grouped : list Group) :
  Forall (fun g => 1 <= strength g) grouped ->
  total_strength (fold_left add_level levels grouped)
    = total_strength grouped + alen levels /\
  alen (fold_left add_level levels grouped) <= alen grouped + alen levels /\
  Forall (fun g => 1 <= strength g) (fold_left add_level levels grouped).
Proof.
  revert grouped. induction levels as [|level levels IH]; intros grouped F.
  - change (alen (@nil Level)) with 0. simpl. split; [lia|]. split; [lia | exact F].
  - cbn [fold_left].
    destruct (add_level_counts grouped level) as [T [L F']].
    destruct (IH (add_level grouped level) (F' F)) as [T' [L' F'']].
    replace (alen (level :: levels)) with (alen levels + 1)
      by (unfold alen; simpl length; lia).
    split; [lia|]. split; [lia | exact F''].
Qed.

(** [groupLevels] loses and invents no touch: the strengths of the groups
    add up to the number of levels, every group has strength at least 1,
    and there are no more groups than levels. *)
Theorem groupLevels_counts_every_level :
  forall levels : list Level,
    total_strength (groupLevels levels) = alen levels /\
    Forall (fun g => 1 <= strength g) (groupLevels levels) /\
    alen (groupLevels levels) <= alen levels.
Proof.
  intro levels. unfold groupLevels.
  destruct (alen levels =? 0) eqn:E.
  - apply Z.eqb_eq in E. rewrite E. split; [reflexivity|].
    split; [constructor|]. change (alen (@nil Group)) with 0. lia.
  - destruct (fold_add_level_counts levels []) as [T [L F]]; [constructor|].
    change (total_strength []) with 0 in T. change (alen (@nil Group)) with 0 in L.
    split; [lia|]. split; [exact F | lia].
Qed.

(** *** Support and resistance levels lie within the lows and the highs *)








(** *** The volume flag *)






(** *** Bullish and bearish candle patterns exclude each other *)

Lemma jlt_asym (a b : jsnum) : jlt a b = true -> jlt b a = false.
Proof.
  destruct a as [x| | |], b as [y| | |]; simpl; try discriminate; try reflexivity.
  intro H. qbool. lra.
Qed.

(** No candle is at once a bullish pattern (hammer, bullish engulfing,
    bullish harami) and a bearish one (shooting star, bearish engulfing):
    the former need a close above the open, the latter a close below it.
    So a hammer is never a shooting star, whatever the numbers, NaN
    included. *)
Theorem bullish_and_bearish_patterns_exclusive :
  forall c2 c3 : Candle,
    (hammer_at c3 || bullish_engulfing_at c2 c3 || bullish_harami_at c2 c3)
    && (shooting_star_at c3 || bearish_engulfing_at c2 c3) = false.
Proof.
  intros c2 c3.
  unfold hammer_at, bullish_engulfing_at, bullish_harami_at,
    shooting_star_at, bearish_engulfing_at, jgt.
  destruct (jlt (open c3) (close c3)) eqn:Up;
    [rewrite (jlt_asym _ _ Up)|];
    repeat match goal with
           | |- context [jlt ?a ?b] => destruct (jlt a b)
           end; reflexivity.
Qed.


(** *** The SELL alert *)









(** *** Every alert sits in the list of its type *)

Lemma Forall_when {A : Type} (P : A -> Prop) (b : bool) (x : A) :
  P x -> Forall P (when b x).
Proof. intro H. destruct b; simpl; [now constructor | constructor]. Qed.

Lemma timeframes_alerts_sorted symbol timeframe analysis :
  sorted_by_type
    (fun a => Alerts.symbol a = symbol /\ Alerts.timeframe a = timeframe /\
              price a = Timeframes.an_lastPrice analysis)
    (Timeframes.alerts_of_analysis symbol timeframe analysis).
Proof.
  unfold sorted_by_type. cbn [buy sell monitoring Timeframes.alerts_of_analysis].
  split; [|split].
  - unfold Timeframes.buy_rule. destruct (vlt _ _); [|constructor].
    constructor; [|constructor]. unfold trade_shape.
    cbn [type monitoring_type levels stopLoss target Alerts.symbol
         Alerts.timeframe price].
    split; [split; [|split; [|split]] | split; [|split]];
      try reflexivity; discriminate.
  - unfold Timeframes.sell_rule. destruct (vgt _ _); [|constructor].
    constructor; [|constructor]. unfold trade_shape.
    cbn [type monitoring_type levels stopLoss target Alerts.symbol
         Alerts.timeframe price].
    split; [split; [|split; [|split]] | split; [|split]];
      try reflexivity; discriminate.
  - unfold Timeframes.monitoring_rules.
    assert (M : forall kind conf, conf <> LOW ->
                monitoring_shape (Timeframes.monitoring_alert symbol timeframe analysis kind conf) /\
                Alerts.symbol (Timeframes.monitoring_alert symbol timeframe analysis kind conf) = symbol /\
                Alerts.timeframe (Timeframes.monitoring_alert symbol timeframe analysis kind conf) = timeframe /\
                price (Timeframes.monitoring_alert symbol timeframe analysis kind conf)
                = Timeframes.an_lastPrice analysis).
    { intros kind conf Hc. unfold monitoring_shape, Timeframes.monitoring_alert.
      cbn [type monitoring_type levels stopLoss target Alerts.symbol
           Alerts.timeframe price confidence].
      split; [split; [|split; [|split; [|split]]] | split; [|split]];
        try reflexivity; try assumption; discriminate. }
    apply Forall_app; split; [|apply Forall_app; split;
      [|apply Forall_app; split; [|apply Forall_app; split]]].
    + apply Forall_when, M. discriminate.
    + apply Forall_when, M. discriminate.
    + apply Forall_when, M. discriminate.
    + destruct (0 <? alen _); [|constructor].
      destruct (find _ _); [|constructor].
      constructor; [|constructor]. apply M.
      destruct (Timeframes.strongly _); discriminate.
    + apply Forall_when, M. destruct (vgt _ _); discriminate.
Qed.

Lemma api_alerts_sorted symbol timeframe ind currentPrice highs lows :
  sorted_by_type
    (fun a => Alerts.symbol a = symbol /\ Alerts.timeframe a = timeframe /\
              price a = currentPrice)
    (Api.alerts_of_symbol symbol timeframe ind currentPrice highs lows).
Proof.
  unfold sorted_by_type. cbn [buy sell monitoring Api.alerts_of_symbol].
  split; [|split].
  - unfold Api.buy_rule. destruct (vlt _ _); [|constructor].
    constructor; [|constructor]. unfold trade_shape.
    cbn [type monitoring_type levels stopLoss target Alerts.symbol
         Alerts.timeframe price].
    split; [split; [|split; [|split]] | split; [|split]];
      try reflexivity; discriminate.
  - unfold Api.sell_rule. destruct (vgt _ _); [|constructor].
    constructor; [|constructor]. unfold trade_shape.
    cbn [type monitoring_type levels stopLoss target Alerts.symbol
         Alerts.timeframe price].
    split; [split; [|split; [|split]] | split; [|split]];
      try reflexivity; discriminate.
  - unfold Api.monitoring_rule. destruct (_ || _); [|constructor].
    destruct (Api.monitoring_type_of _ _); [|constructor].
    constructor; [|constructor]. unfold monitoring_shape.
    cbn [type monitoring_type levels stopLoss target Alerts.symbol
         Alerts.timeframe price confidence].
    split; [split; [|split; [|split; [|split]]] | split; [|split]];
      try reflexivity; discriminate.
Qed.

Lemma sorted_by_type_weaken (P Q : Alert -> Prop) (s : AlertSet) :
  (forall a, P a -> Q a) -> sorted_by_type P s -> sorted_by_type Q s.
Proof.
  intros H [B [S M]]. unfold sorted_by_type.
  split; [|split]; (eapply Forall_impl; [|eassumption]);
    intros a [Ha Pa]; split; auto.
Qed.

Lemma sorted_by_type_merge (P : Alert -> Prop) (s r : AlertSet) :
  sorted_by_type P s -> sorted_by_type P r ->
  sorted_by_type P (mkAlerts (buy s ++ buy r) (sell s ++ sell r)
                             (monitoring s ++ monitoring r)).
Proof.
  intros [B [S M]] [B' [S' M']]. unfold sorted_by_type. cbn [buy sell monitoring].
  split; [|split]; apply Forall_app; split; assumption.
Qed.

Lemma sorted_by_type_none (P : Alert -> Prop) : sorted_by_type P no_alerts.
Proof.
  unfold sorted_by_type, no_alerts. cbn [buy sell monitoring].
  split; [|split]; constructor.
Qed.

Lemma generated_alerts_sorted sqrtQ symbol timeframe candles :
  sorted_by_type
    (fun a => Alerts.symbol a = symbol /\ Alerts.timeframe a = timeframe)
    (Timeframes.generateTechnicalAlerts sqrtQ symbol timeframe candles).
Proof.
  destruct (generateTechnicalAlerts_cases sqrtQ symbol timeframe candles)
    as [-> | [analysis [_ ->]]].
  - apply sorted_by_type_none.
  - eapply sorted_by_type_weaken; [|apply timeframes_alerts_sorted].
    intros a [H1 [H2 _]]. split; assumption.
Qed.

(** Whatever the candles and prices: in the result of
    [generateAlertsForMultipleSymbols] and in that of [fetchAlerts] the
    [buy] list holds BUY alerts only, the [sell] list SELL alerts only,
    both with a stop loss and a target; the [monitoring] list holds
    MONITORING alerts only, each with a monitoring type, without stop loss
    or target, and of confidence MEDIUM or HIGH.  Every alert carries the
    timeframe of the call and the symbol of one of the symbols asked for;
    in [fetchAlerts] its price is the current price of that entry. *)
Theorem alerts_sorted_by_type :
  (forall sqrtQ history symbols timeframe,
     sorted_by_type
       (fun a => In (Alerts.symbol a) symbols /\ Alerts.timeframe a = timeframe)
       (Timeframes.generateAlertsForMultipleSymbols sqrtQ history symbols timeframe)) /\
  (forall sqrtQ currentTimeframe history currentPrices,
     sorted_by_type
       (fun a => Alerts.timeframe a = currentTimeframe /\
                 exists priceData,
                   In priceData currentPrices /\
                   Alerts.symbol a = Api.pd_symbol priceData /\
                   price a = Api.pd_price priceData)
       (Api.fetchAlerts sqrtQ currentTimeframe history currentPrices)).
Proof.
  split.
  - intros sqrtQ history symbols timeframe.
    unfold Timeframes.generateAlertsForMultipleSymbols.
    assert (G : forall (todo : list string) (acc : AlertSet),
               incl todo symbols ->
               sorted_by_type
                 (fun a => In (Alerts.symbol a) symbols /\ Alerts.timeframe a = timeframe) acc ->
               sorted_by_type
                 (fun a => In (Alerts.symbol a) symbols /\ Alerts.timeframe a = timeframe)
                 (fold_left
                    (fun allAlerts symbol =>
                       let result :=
                         Timeframes.generateTechnicalAlerts sqrtQ symbol timeframe
                           (history symbol) in
                       mkAlerts (buy allAlerts ++ buy result)
                                (sell allAlerts ++ sell result)
                                (monitoring allAlerts ++ monitoring result))
                    todo acc)).
    { induction todo as [|s todo IH]; intros acc Hin Hacc; [exact Hacc|].
      cbn [fold_left]. apply IH.
      - intros x Hx. apply Hin. now right.
      - cbv zeta. apply sorted_by_type_merge; [exact Hacc|].
        eapply sorted_by_type_weaken; [|apply generated_alerts_sorted].
        intros a [H1 H2]. split; [|exact H2]. rewrite H1. apply Hin. now left. }
    apply G; [apply incl_refl | apply sorted_by_type_none].
  - intros sqrtQ currentTimeframe history currentPrices.
    unfold Api.fetchAlerts.
    match goal with |- sorted_by_type ?P (fold_left ?f _ _) =>
      assert (G : forall (todo : list Api.PriceData) (acc : AlertSet),
                 incl todo currentPrices ->
                 sorted_by_type P acc -> sorted_by_type P (fold_left f todo acc))
    end.
    { induction todo as [|pd todo IH]; intros acc Hin Hacc; [exact Hacc|].
      cbn [fold_left]. apply IH.
      - intros x Hx. apply Hin. now right.
      - cbv zeta. destruct (alen _ <? 14); [exact Hacc|].
        apply sorted_by_type_merge; [exact Hacc|].
        eapply sorted_by_type_weaken; [|apply api_alerts_sorted].
        intros a [H1 [H2 H3]]. split; [exact H2|].
        exists pd. split; [apply Hin; now left|]. split; assumption. }
    apply G; [apply incl_refl | apply sorted_by_type_none].
Qed.

(** *** Batches do not change the outcome *)

Lemma slice_from_start {A : Type} (l : list A) (s e : Z) :
  0 <= s <= alen l -> s <= e ->
  slice l s e = firstn (Z.to_nat (e - s)) (skipn (Z.to_nat s) l).
Proof.
  intros H1 H2. unfold slice, rel_index.
  destruct (s <? 0) eqn:E1; [apply Z.ltb_lt in E1; lia|].
  destruct (e <? 0) eqn:E2; [apply Z.ltb_lt in E2; lia|].
  rewrite (Z.min_l s) by lia.
  destruct (Z_le_gt_dec e (alen l)) as [Hle | Hgt].
  - now rewrite Z.min_l by lia.
  - rewrite Z.min_r by lia.
    rewrite !firstn_all2; [reflexivity | |];
      unfold alen in *; rewrite length_skipn; lia.
Qed.

Lemma firstn_plus {A : Type} (a b : nat) (l : list A) :
  firstn (a + b) l = firstn a l ++ firstn b (skipn a l).
Proof.
  revert l. induction a as [|a IH]; intro l; [reflexivity|].
  destruct l as [|x l]; simpl.
  - now rewrite firstn_nil.
  - now rewrite IH.
Qed.

Lemma chunks_concat {A : Type} (l : list A) (m : nat) :
  (5 * m <= length l + 4)%nat ->
  concat (map (fun i => slice l i (i + Batches.batchSize))
              (map (fun k => k * Batches.batchSize)
                   (map (fun k => 0 + Z.of_nat k) (seq 0 m))))
  = firstn (5 * m) l.
Proof.
  unfold Batches.batchSize.
  induction m as [|m IH]; intro H; [reflexivity|].
  rewrite seq_S, !map_app, concat_app, IH by lia.
  cbn [map concat]. rewrite app_nil_r.
  rewrite slice_from_start by (unfold alen; lia).
  replace (5 * S m)%nat with (5 * m + 5)%nat by lia.
  rewrite firstn_plus. do 3 f_equal; lia.
Qed.

Lemma batches_cover {A : Type} (l : list A) :
  concat (map (fun i => slice l i (i + Batches.batchSize))
              (Batches.batch_starts (alen l))) = l.
Proof.
  unfold Batches.batch_starts, range.
  pose proof (alen_nonneg l) as Hl.
  assert (D : exists q r, alen l + Batches.batchSize - 1 = 5 * q + r /\ 0 <= r < 5
                          /\ (alen l + Batches.batchSize - 1) / Batches.batchSize = q).
  { unfold Batches.batchSize.
    exists ((alen l + 5 - 1) / 5), ((alen l + 5 - 1) mod 5).
    split; [apply Z.div_mod; lia|]. split; [apply Z.mod_pos_bound; lia | reflexivity]. }
  destruct D as [q [r [D1 [D2 D3]]]]. rewrite D3. unfold Batches.batchSize in D1.
  rewrite Z.sub_0_r, chunks_concat by (unfold alen in *; lia).
  apply firstn_all2. unfold alen in *. lia.
Qed.

Lemma batched_fold {A B S : Type} (g : A -> B) (merge : S -> B -> S)
    (chunk : Z -> list A) (starts : list Z) (acc : S) :
  fold_left (fun acc i => fold_left merge (map g (chunk i)) acc) starts acc
  = fold_left merge (map g (concat (map chunk starts))) acc.
Proof.
  revert acc. induction starts as [|i starts IH]; intro acc; [reflexivity|].
  cbn [fold_left map concat]. now rewrite map_app, fold_left_app, IH.
Qed.

Lemma fold_left_map_step {A B S : Type} (g : A -> B) (merge : S -> B -> S)
    (l : list A) (acc : S) :
  fold_left (fun acc x => merge acc (g x)) l acc = fold_left merge (map g l) acc.
Proof.
  revert acc. induction l as [|x l IH]; intro acc; [reflexivity|].
  cbn [fold_left map]. apply IH.
Qed.

(** Working through the symbols in batches of five gives the same alerts,
    in the same order, as working through them one by one. *)
Theorem batches_do_not_change_the_alerts :
  forall sqrtQ history symbols timeframe,
    Batches.generateAlertsForMultipleSymbols sqrtQ history symbols timeframe
    = Timeframes.generateAlertsForMultipleSymbols sqrtQ history symbols timeframe.
Proof.
  intros sqrtQ history symbols timeframe.
  unfold Batches.generateAlertsForMultipleSymbols,
    Timeframes.generateAlertsForMultipleSymbols.
  etransitivity.
  - apply (batched_fold
             (fun symbol : string =>
                Timeframes.generateTechnicalAlerts sqrtQ symbol timeframe (history symbol))
             (fun (allAlerts result : AlertSet) =>
                mkAlerts (buy allAlerts ++ buy result)
                         (sell allAlerts ++ sell result)
                         (monitoring allAlerts ++ monitoring result))
             (fun i => slice symbols i (i + Batches.batchSize))).
  - rewrite batches_cover. symmetry.
    apply (fold_left_map_step
             (fun symbol : string =>
                Timeframes.generateTechnicalAlerts sqrtQ symbol timeframe (history symbol))
             (fun (allAlerts result : AlertSet) =>
                mkAlerts (buy allAlerts ++ buy result)
                         (sell allAlerts ++ sell result)
                         (monitoring allAlerts ++ monitoring result))).
Qed.


(** *** The cache of historical data *)

Lemma store_get_set_same {V : Type} (key : string) (v : V) (s : Store.store V) :
  Store.get key (Store.set key v s) = Some v.
Proof. unfold Store.set. cbn. now rewrite String.eqb_refl. Qed.

Lemma store_get_set_other {V : Type} (key key' : string) (v : V) (s : Store.store V) :
  key' <> key -> Store.get key' (Store.set key v s) = Store.get key' s.
Proof.
  intro H. unfold Store.set. cbn.
  destruct (String.eqb_spec key key') as [E | E]; [congruence | reflexivity].
Qed.

Lemma cacheKey_normalized (symbol symbol' timeframe : string) :
  History.normalizedSymbol symbol' = History.normalizedSymbol symbol ->
  History.cacheKey symbol' timeframe = History.cacheKey symbol timeframe.
Proof. intro H. unfold History.cacheKey. now rewrite H. Qed.

Lemma history_hit (net : History.Network) (now later : Z) (cache : History.Cache)
    (symbol timeframe : string) (limit : Z) (entry : History.CacheEntry) :
  Store.get (History.cacheKey symbol timeframe) cache = Some entry ->
  now - History.timestamp entry < History.CACHE_TTL ->
  History.getHistoricalData net now later cache symbol timeframe limit
  = (History.data entry, cache).
Proof.
  intros G F. unfold History.getHistoricalData. cbv zeta. rewrite G.
  apply Z.ltb_lt in F. now rewrite F.
Qed.

Lemma api_history_hit (random : nat -> Q)
    (klines : string -> string -> Z -> option (list Candle))
    (pc : Prices.PriceCache) (now : Z) (cache : History.Cache)
    (symbol timeframe : string) (limit : Z) (entry : History.CacheEntry) :
  Store.get (History.cacheKey symbol timeframe) cache = Some entry ->
  now - History.timestamp entry < 5 * 60 * 1000 ->
  ApiHistory.getHistoricalData random klines pc now cache symbol timeframe limit
  = (History.data entry, cache).
Proof.
  intros G F. unfold ApiHistory.getHistoricalData. cbv zeta. rewrite G.
  apply Z.ltb_lt in F. now rewrite F.
Qed.

(** Candles fetched from Binance are served again for five minutes.  The
    cache key is one an object literal inherits nothing under.  If a
    call at time [now] finds no entry younger than five minutes and
    Binance answers with [candles], the call returns them; and every call
    within the next five minutes for the same timeframe and a symbol with
    the same normalised name ('BTC/USDT' and 'BTCUSDT', say) returns the
    same candles and leaves the cache as it is, whatever the network then
    answers and whatever number of candles is asked for.  Both
    [getHistoricalData] functions, of [timeframes_module.js] and of
    [api.js], behave so. *)
Theorem fetched_history_is_served_again :
  forall (net net' : History.Network) (random random' : nat -> Q)
         (pc pc' : Prices.PriceCache)
         (cache : History.Cache) (symbol symbol' timeframe : string)
         (limit limit' now later now' later' : Z) (candles : list Candle),
    Store.own_key (History.cacheKey symbol timeframe) = true ->
    match Store.get (History.cacheKey symbol timeframe) cache with
    | Some entry => History.CACHE_TTL <= now - History.timestamp entry
    | None => True
    end ->
    History.binance_klines net (History.normalizedSymbol symbol)
      (History.binance_interval timeframe) limit = Some candles ->
    History.normalizedSymbol symbol' = History.normalizedSymbol symbol ->
    now' - now < History.CACHE_TTL ->
    (exists cache1,
       History.getHistoricalData net now later cache symbol timeframe limit
         = (candles, cache1) /\
       History.getHistoricalData net' now' later' cache1 symbol' timeframe limit'
         = (candles, cache1)) /\
    (exists cache1,
       ApiHistory.getHistoricalData random (History.binance_klines net) pc
         now cache symbol timeframe limit = (candles, cache1) /\
       ApiHistory.getHistoricalData random' (History.binance_klines net') pc'
         now' cache1 symbol' timeframe limit' = (candles, cache1)).
Proof.
  intros net net' random random' pc pc' cache symbol symbol' timeframe
    limit limit' now later now' later' candles _ Hstale Hnet Hsym Hsoon.
  set (key := History.cacheKey symbol timeframe) in *.
  set (cache1 := Store.set key (History.mkEntry candles now) cache).
  assert (G1 : Store.get (History.cacheKey symbol' timeframe) cache1
               = Some (History.mkEntry candles now)).
  { rewrite (cacheKey_normalized symbol symbol') by assumption.
    apply store_get_set_same. }
  split; exists cache1; split.
  - unfold History.getHistoricalData. cbv zeta. fold key. rewrite Hnet.
    destruct (Store.get key cache) as [entry|]; [|reflexivity].
    destruct (now - History.timestamp entry <? History.CACHE_TTL) eqn:E;
      [apply Z.ltb_lt in E; lia | reflexivity].
  - now rewrite (history_hit net' now' later' cache1 symbol' timeframe limit' _ G1).
  - unfold ApiHistory.getHistoricalData. cbv zeta. fold key.
    change (ApiHistory.interval_of timeframe) with (History.binance_interval timeframe).
    rewrite Hnet.
    destruct (Store.get key cache) as [entry|]; [|reflexivity].
    change (5 * 60 * 1000) with History.CACHE_TTL.
    destruct (now - History.timestamp entry <? History.CACHE_TTL) eqn:E;
      [apply Z.ltb_lt in E; lia | reflexivity].
  - now rewrite (api_history_hit random' (History.binance_klines net') pc' now'
                   cache1 symbol' timeframe limit' _ G1).
Qed.

(** A first call for 'BTC/USDT' at time 1000 and a second for 'BTCUSDT'
    four minutes later, when the network is down. *)
Lemma fetched_history_is_served_again_example :
  let net := History.mkNetwork (fun _ _ _ => Some ShortHistory.candles)
                               (fun _ _ _ _ _ => None) in
  let down := History.mkNetwork (fun _ _ _ => None) (fun _ _ _ _ _ => None) in
  (exists cache1,
     History.getHistoricalData net 1000 1001 Store.empty "BTC/USDT" "1h" 100
       = (ShortHistory.candles, cache1) /\
     History.getHistoricalData down 241000 241001 cache1 "BTCUSDT" "1h" 500
       = (ShortHistory.candles, cache1)) /\
  (exists cache1,
     ApiHistory.getHistoricalData (fun _ => 0%Q) (History.binance_klines net)
       (Prices.mkPriceCache None None) 1000 Store.empty "BTC/USDT" "1h" 100
       = (ShortHistory.candles, cache1) /\
     ApiHistory.getHistoricalData (fun _ => 0%Q) (History.binance_klines down)
       (Prices.mkPriceCache None None) 241000 cache1 "BTCUSDT" "1h" 500
       = (ShortHistory.candles, cache1)).
Proof.
  apply (fetched_history_is_served_again
           (History.mkNetwork (fun _ _ _ => Some ShortHistory.candles)
                              (fun _ _ _ _ _ => None))
           (History.mkNetwork (fun _ _ _ => None) (fun _ _ _ _ _ => None))
           (fun _ => 0%Q) (fun _ => 0%Q)
           (Prices.mkPriceCache None None) (Prices.mkPriceCache None None)
           Store.empty "BTC/USDT" "BTCUSDT" "1h" 100 500 1000 1001 241000 241001
           ShortHistory.candles).
  - reflexivity.
  - exact I.
  - reflexivity.
  - reflexivity.
  - reflexivity.
Defined.

(** After a call of [getHistoricalData] of [timeframes_module.js], for a
    cache key under which an object literal inherits nothing, the
    entries of all other keys are as before, and the entry of the key
    asked for, if there is one, holds exactly the candles returned; there
    is none only when there was none before and both services failed, and
    then the call returned the empty array. *)
Theorem history_cache_matches_answer :
  forall (net : History.Network) (cache : History.Cache)
         (symbol timeframe : string) (limit now later : Z),
    Store.own_key (History.cacheKey symbol timeframe) = true ->
    let key := History.cacheKey symbol timeframe in
    let answer :=
      History.getHistoricalData net now later cache symbol timeframe limit in
    (forall key',
       key' = key \/ Store.get key' (snd answer) = Store.get key' cache) /\
    match Store.get key (snd answer) with
    | Some entry => History.data entry = fst answer
    | None => fst answer = [] /\ Store.get key cache = None
    end.
Proof.
  intros net cache symbol timeframe limit now later _. cbv zeta.
  unfold History.getHistoricalData, History.getHistoricalDataAlternative. cbv zeta.
  set (key := History.cacheKey symbol timeframe).
  assert (Frame : forall (v : History.CacheEntry) (key' : string),
             key' = key \/ Store.get key' (Store.set key v cache) = Store.get key' cache).
  { intros v key'. destruct (string_dec key' key) as [E | E]; [now left|].
    right. now apply store_get_set_other. }
  destruct (History.cryptoCompareParams timeframe) as [unit aggregation].
  destruct (Store.get key cache) as [entry|] eqn:G.
  - destruct (now - History.timestamp entry <? History.CACHE_TTL).
    + cbn [fst snd]. rewrite G. split; [now right | reflexivity].
    + destruct (History.binance_klines net _ _ _) as [candles|]; cbn [fst snd].
      * rewrite store_get_set_same. split; [apply Frame | reflexivity].
      * rewrite G. split; [now right | reflexivity].
  - destruct (History.binance_klines net _ _ _) as [candles|]; cbn [fst snd].
    + rewrite store_get_set_same. split; [apply Frame | reflexivity].
    + destruct (History.cryptocompare_histo net _ _ _ _ _) as [candles|]; cbn [fst snd].
      * rewrite store_get_set_same. split; [apply Frame | reflexivity].
      * rewrite G. split; [now right | split; reflexivity].
Qed.

(** Binance is down, CryptoCompare answers, the cache is empty: the
    candles are returned and cached under 'BTCUSDT_1h'. *)
Lemma history_cache_matches_answer_example :
  let net := History.mkNetwork (fun _ _ _ => None)
                               (fun _ _ _ _ _ => Some ShortHistory.candles) in
  let answer :=
    History.getHistoricalData net 1000 1001 Store.empty "BTC/USDT" "1h" 100 in
  fst answer = ShortHistory.candles /\
  (forall key',
     key' = "BTCUSDT_1h"%string \/
     Store.get key' (snd answer) = Store.get key' Store.empty) /\
  match Store.get "BTCUSDT_1h" (snd answer) with
  | Some entry => History.data entry = fst answer
  | None => fst answer = [] /\ Store.get "BTCUSDT_1h" (Store.empty : History.Cache) = None
  end.
Proof.
  cbv zeta. split; [reflexivity|].
  apply (history_cache_matches_answer
           (History.mkNetwork (fun _ _ _ => None)
                              (fun _ _ _ _ _ => Some ShortHistory.candles))
           Store.empty "BTC/USDT" "1h" 100 1000 1001).
  reflexivity.
Defined.

(** *** The timeframe tables agree *)

Lemma supported_timeframes (timeframe : string) :
  In timeframe History.TIMEFRAMES \/
  (Store.get timeframe History.TIMEFRAME_INTERVALS = None /\
   Store.get timeframe History.BINANCE_INTERVALS = None /\
   Store.get timeframe ApiHistory.binanceIntervals = None /\
   History.cryptoCompareParams timeframe = ("hour"%string, 1) /\
   Prices.setTimeframe "1h" timeframe = (false, "1h"%string)).
Proof.
  unfold History.TIMEFRAMES, History.TIMEFRAME_INTERVALS, History.BINANCE_INTERVALS,
    ApiHistory.binanceIntervals, History.cryptoCompareParams, Prices.setTimeframe,
    includes.
  cbn [Store.get existsb In].
  rewrite !(String.eqb_sym timeframe).
  destruct (String.eqb_spec "15m" timeframe); [auto|].
  destruct (String.eqb_spec "30m" timeframe); [auto|].
  destruct (String.eqb_spec "1h" timeframe); [auto|].
  destruct (String.eqb_spec "2h" timeframe); [auto 6|].
  destruct (String.eqb_spec "4h" timeframe); [auto 7|].
  destruct (String.eqb_spec "6h" timeframe); [auto 8|].
  destruct (String.eqb_spec "1d" timeframe); [auto 9|].
  destruct (String.eqb_spec "3d" timeframe); [auto 10|].
  destruct (String.eqb_spec "1w" timeframe); [auto 11|].
  right. cbn. auto.
Qed.

(** For each of the nine supported timeframes the interval asked of
    Binance is the timeframe itself, and the unit and aggregation asked of
    CryptoCompare make up exactly the milliseconds of
    [TIMEFRAME_INTERVALS].  For every other string, the names an object
    literal inherits apart, both services are asked for hourly candles. *)
Theorem timeframe_tables_agree :
  forall timeframe : string,
    Store.own_key timeframe = true ->
    (In timeframe History.TIMEFRAMES /\
     History.binance_interval timeframe = timeframe /\
     ApiHistory.interval_of timeframe = timeframe /\
     exists ms,
       Store.get timeframe History.TIMEFRAME_INTERVALS = Some ms /\
       unit_milliseconds (fst (History.cryptoCompareParams timeframe))
       * snd (History.cryptoCompareParams timeframe) = ms) \/
    (~ In timeframe History.TIMEFRAMES /\
     History.binance_interval timeframe = "1h"%string /\
     ApiHistory.interval_of timeframe = "1h"%string /\
     History.cryptoCompareParams timeframe = ("hour"%string, 1)).
Proof.
  intros timeframe _.
  destruct (supported_timeframes timeframe) as [H | [H1 [H2 [H3 [H4 _]]]]].
  - left. split; [exact H|].
    unfold History.TIMEFRAMES in H. cbn [In] in H.
    repeat (destruct H as [<- | H];
            [split; [reflexivity|]; split; [reflexivity|];
             eexists; split; reflexivity|]).
    contradiction.
  - right. unfold History.binance_interval, ApiHistory.interval_of.
    rewrite H2, H3. split; [|auto].
    intro Hin. unfold History.TIMEFRAMES in Hin. cbn [In] in Hin.
    repeat (destruct Hin as [<- | Hin]; [discriminate H1|]). contradiction.
Qed.

(** Five-minute candles are not supported: hourly ones are asked for. *)
Lemma timeframe_tables_agree_example :
  ~ In "5m"%string History.TIMEFRAMES /\
  History.binance_interval "5m" = "1h"%string /\
  ApiHistory.interval_of "5m" = "1h"%string /\
  History.cryptoCompareParams "5m" = ("hour"%string, 1).
Proof.
  destruct (timeframe_tables_agree "5m" eq_refl) as [[H _] | H]; [|exact H].
  exfalso. unfold History.TIMEFRAMES in H. cbn [In] in H.
  repeat (destruct H as [H | H]; [discriminate H|]). contradiction.
Defined.


(** *** Current prices and their cache *)

Lemma store_prices_cached (world : Prices.World) (st : Prices.State)
    (prices : list Prices.Item) :
  let answer := Prices.store_prices world st prices in
  Prices.pc_prices (Prices.priceCache (snd answer)) = Some (fst answer) /\
  Prices.pc_lastUpdate (Prices.priceCache (snd answer))
  = Some (Prices.price_store world).
Proof.
  cbv zeta. unfold Prices.store_prices.
  destruct (Prices.addBRLPrices world (Prices.brlRateCache st) prices) as [out brl'].
  cbn. split; reflexivity.
Qed.

Lemma fresh_prices (world : Prices.World) (now lastUpdate : Z) (st : Prices.State)
    (cached : list Prices.Item) :
  Prices.pc_prices (Prices.priceCache st) = Some cached ->
  Prices.pc_lastUpdate (Prices.priceCache st) = Some lastUpdate ->
  now - lastUpdate < Prices.price_expirationTime ->
  Prices.fetchCurrentPrices world now st = (cached, st).
Proof.
  intros Hp Hu Hf. unfold Prices.fetchCurrentPrices. cbv zeta.
  rewrite Hp, Hu. apply Z.ltb_lt in Hf. now rewrite Hf.
Qed.

Lemma fetched_prices_cached (world : Prices.World) (now : Z) (st : Prices.State) :
  Prices.localFile world = false ->
  let answer := Prices.fetchCurrentPrices world now st in
  Prices.pc_prices (Prices.priceCache (snd answer)) = Some (fst answer).
Proof.
  intro Hl. cbv zeta. unfold Prices.fetchCurrentPrices. cbv zeta. rewrite Hl.
  destruct (Prices.pc_prices (Prices.priceCache st)) as [cached|] eqn:Hp.
  - destruct (Prices.pc_lastUpdate (Prices.priceCache st)) as [lastUpdate|].
    + destruct (now - lastUpdate <? Prices.price_expirationTime); [exact Hp|].
      destruct (Prices.non_empty _); [apply store_prices_cached|].
      destruct (Prices.cryptoCompare world); [apply store_prices_cached|].
      destruct (Prices.non_empty _); [apply store_prices_cached | exact Hp].
    + destruct (Prices.non_empty _); [apply store_prices_cached|].
      destruct (Prices.cryptoCompare world); [apply store_prices_cached|].
      destruct (Prices.non_empty _); [apply store_prices_cached | exact Hp].
  - destruct (Prices.non_empty _); [apply store_prices_cached|].
    destruct (Prices.cryptoCompare world); [apply store_prices_cached|].
    destruct (Prices.non_empty _); apply store_prices_cached.
Qed.

(** In a browser page not loaded from [file:], the prices returned by
    [fetchCurrentPrices] are always the ones the price cache holds after
    the call, whether they came from a service, from the cache or from the
    simulated list; and for two minutes after the cache's last update
    every call returns the same prices and changes nothing, whatever the
    services answer then. *)
Theorem prices_served_from_cache :
  forall (world world' : Prices.World) (now now' : Z) (st : Prices.State),
    Prices.localFile world = false ->
    let answer := Prices.fetchCurrentPrices world now st in
    Prices.pc_prices (Prices.priceCache (snd answer)) = Some (fst answer) /\
    forall lastUpdate : Z,
      Prices.pc_lastUpdate (Prices.priceCache (snd answer)) = Some lastUpdate ->
      now' - lastUpdate < Prices.price_expirationTime ->
      Prices.fetchCurrentPrices world' now' (snd answer) = answer.
Proof.
  intros world world' now now' st Hl. cbv zeta.
  pose proof (fetched_prices_cached world now st Hl) as C. cbv zeta in C.
  split; [exact C|].
  intros lastUpdate Hu Hf.
  rewrite (fresh_prices world' now' lastUpdate _ _ C Hu Hf).
  now destruct (Prices.fetchCurrentPrices world now st).
Qed.

(** With every service down and nothing cached the eight simulated prices
    are returned, and returned again a minute later when Binance is
    back. *)
Lemma prices_served_from_cache_example :
  let down := Prices.mkWorld false None (fun _ => None) None None 0 0 1000 in
  let back := Prices.mkWorld false None (fun _ => Some (Fin 1)) None None 0 0 61000 in
  let answer := Prices.fetchCurrentPrices down 1000 Prices.state0 in
  fst answer = Prices.fetchSimulatedRealPrices /\
  Prices.pc_prices (Prices.priceCache (snd answer)) = Some (fst answer) /\
  Prices.fetchCurrentPrices back 61000 (snd answer) = answer.
Proof.
  cbv zeta.
  destruct (prices_served_from_cache
              (Prices.mkWorld false None (fun _ => None) None None 0 0 1000)
              (Prices.mkWorld false None (fun _ => Some (Fin 1)) None None 0 0 61000)
              1000 61000 Prices.state0 eq_refl) as [A B].
  split; [reflexivity|]. split; [exact A|].
  apply (B 1000); reflexivity.
Defined.

(** *** What Binance answered *)

Lemma substring_prefix (c s : string) :
  substring 0 (String.length c) (c ++ s) = c.
Proof.
  induction c as [|a c IH]; simpl.
  - destruct s; reflexivity.
  - now rewrite IH.
Qed.

Lemma slen_append (c s : string) : slen (c ++ s) = slen c + slen s.
Proof.
  unfold slen. induction c as [|a c IH]; cbn [append String.length]; lia.
Qed.

(** [(coin + 'USDT').slice(0, -4)] is [coin] again. *)
Lemma str_slice_usdt (coin : string) : str_slice (coin ++ "USDT") 0 (-4) = coin.
Proof.
  unfold str_slice, rel_index. rewrite slen_append.
  change (slen "USDT") with 4.
  assert (H : 0 <= slen coin) by (unfold slen; lia).
  cbn [Z.ltb Z.compare].
  rewrite (Z.min_l 0) by lia. rewrite Z.max_l by lia.
  replace (Z.to_nat (slen coin + 4 + -4 - 0)) with (String.length coin)
    by (unfold slen; lia).
  apply substring_prefix.
Qed.

Lemma non_null_In {A : Type} (results : list (option A)) (x : A) :
  In x (Prices.non_null results) <-> In (Some x) results.
Proof.
  unfold Prices.non_null. rewrite in_flat_map. split.
  - intros [[y|] [Hin Hx]]; [|contradiction].
    destruct Hx as [-> | []]. exact Hin.
  - intro H. exists (Some x). split; [exact H | now left].
Qed.

(** [fetchPricesFromBinance] returns [null] exactly when no monitored coin
    got an answer; otherwise it returns one entry ['COIN/USDT'] with the
    price answered, and no BRL price yet, for each monitored coin that got
    one, and nothing else. *)
Theorem binance_prices_are_the_answers :
  forall world : Prices.World,
    match Prices.fetchPricesFromBinance world with
    | None =>
        Forall (fun coin => Prices.ticker world (coin ++ "USDT") = None)
               Prices.MONITORED_COINS
    | Some items =>
        items <> [] /\
        forall item,
          In item items <->
          exists coin price,
            In coin Prices.MONITORED_COINS /\
            Prices.ticker world (coin ++ "USDT") = Some price /\
            item = Prices.mkItem (coin ++ "/USDT") price None
    end.
Proof.
  intro world. unfold Prices.fetchPricesFromBinance. cbv zeta.
  rewrite map_map.
  set (results := map _ Prices.MONITORED_COINS).
  assert (R : forall item,
             In item (Prices.non_null results) <->
             exists coin price,
               In coin Prices.MONITORED_COINS /\
               Prices.ticker world (coin ++ "USDT") = Some price /\
               item = Prices.mkItem (coin ++ "/USDT") price None).
  { intro item. rewrite non_null_In. unfold results. rewrite in_map_iff. split.
    - intros [coin [E Hin]].
      destruct (Prices.ticker world (coin ++ "USDT")) as [price|] eqn:T;
        [|discriminate].
      injection E as <-. rewrite str_slice_usdt.
      exists coin, price. auto.
    - intros [coin [price [Hin [T ->]]]]. exists coin. split; [|exact Hin].
      now rewrite T, str_slice_usdt. }
  destruct (0 <? alen (Prices.non_null results)) eqn:E.
  - split; [|exact R]. intro N. rewrite N in E. discriminate.
  - apply Forall_forall. intros coin Hin.
    destruct (Prices.ticker world (coin ++ "USDT")) as [price|] eqn:T;
      [|reflexivity].
    exfalso.
    assert (I : In (Prices.mkItem (coin ++ "/USDT") price None)
                   (Prices.non_null results)).
    { apply R. exists coin, price. auto. }
    destruct (Prices.non_null results); [contradiction|].
    apply Z.ltb_ge in E. unfold alen in E. simpl length in E. lia.
Qed.

(** *** Prices in BRL *)

(** [addBRLPrices] keeps the entries, their order, symbols and prices.
    Without a converter it returns them and the rate cache as they are;
    with one, every entry gets as BRL price its price times the rate the
    cache holds after the call. *)
Theorem brl_prices_added :
  forall (world : Prices.World) (brl : Prices.BrlRateCache)
         (prices : list Prices.Item),
    let answer := Prices.addBRLPrices world brl prices in
    map Prices.it_symbol (fst answer) = map Prices.it_symbol prices /\
    map Prices.it_price (fst answer) = map Prices.it_price prices /\
    match Prices.converter world with
    | None => answer = (prices, brl)
    | Some _ =>
        Forall (fun item =>
                  Prices.it_priceBRL item
                  = Some (jmul (Prices.it_price item)
                               (Prices.brl_rate (snd answer))))
               (fst answer)
    end.
Proof.
  intros world brl prices. cbv zeta. unfold Prices.addBRLPrices.
  destruct (Prices.converter world) as [conversion|].
  - match goal with |- context [if ?b then _ else _] => destruct b end.
    + cbn [fst snd]. rewrite !map_map. cbn [Prices.it_symbol Prices.it_price].
      split; [reflexivity|]. split; [reflexivity|].
      apply Forall_map, Forall_forall. intros item _. reflexivity.
    + destruct conversion as [testConversion | e];
        cbn [fst snd]; rewrite !map_map; cbn [Prices.it_symbol Prices.it_price];
        (split; [reflexivity|]); (split; [reflexivity|]);
        apply Forall_map, Forall_forall; intros item _; reflexivity.
  - cbn [fst snd]. auto.
Qed.

(** *** Forced updates *)

(** [forceUpdatePrices] does not look at the clock: at any two times it
    gives the same answer.  Unless the page was loaded from [file:], the
    prices it returns are those the cache holds afterwards, dated with the
    time of this update or, when nothing but the old cache could be had,
    left without a date, so that the next call asks the services
    again. *)
Theorem forced_update_ignores_the_clock :
  forall (world : Prices.World) (now now' : Z) (st : Prices.State),
    let answer := Prices.forceUpdatePrices world now st in
    answer = Prices.forceUpdatePrices world now' st /\
    (Prices.localFile world = true \/
     (Prices.pc_prices (Prices.priceCache (snd answer)) = Some (fst answer) /\
      (Prices.pc_lastUpdate (Prices.priceCache (snd answer)) = None \/
       Prices.pc_lastUpdate (Prices.priceCache (snd answer))
       = Some (Prices.price_store world)))).
Proof.
  intros world now now' st. cbv zeta. split.
  - unfold Prices.forceUpdatePrices, Prices.fetchCurrentPrices. cbv zeta.
    cbn [Prices.priceCache Prices.pc_lastUpdate Prices.pc_prices].
    now destruct (Prices.pc_prices (Prices.priceCache st)).
  - destruct (Prices.localFile world) eqn:Hl; [now left | right].
    unfold Prices.forceUpdatePrices.
    split; [now apply fetched_prices_cached|].
    unfold Prices.fetchCurrentPrices. cbv zeta. rewrite Hl.
    cbn [Prices.priceCache Prices.pc_lastUpdate Prices.pc_prices].
    destruct (Prices.pc_prices (Prices.priceCache st)) as [cached|].
    + destruct (Prices.non_empty _); [right; apply store_prices_cached|].
      destruct (Prices.cryptoCompare world); [right; apply store_prices_cached|].
      destruct (Prices.non_empty _); [right; apply store_prices_cached|].
      left. reflexivity.
    + destruct (Prices.non_empty _); [right; apply store_prices_cached|].
      destruct (Prices.cryptoCompare world); [right; apply store_prices_cached|].
      destruct (Prices.non_empty _); right; apply store_prices_cached.
Qed.

(** *** The current timeframe *)

(** [setTimeframe] answers [true] exactly for the nine supported
    timeframes and then makes the timeframe current; otherwise it leaves
    the current one alone.  So, starting from '1h', after any calls the
    current timeframe is a supported one, and Binance is asked for that
    very interval. *)
Theorem current_timeframe_is_supported :
  (forall current timeframe : string,
     (fst (Prices.setTimeframe current timeframe) = true <->
      In timeframe History.TIMEFRAMES) /\
     snd (Prices.setTimeframe current timeframe)
     = if fst (Prices.setTimeframe current timeframe) then timeframe else current) /\
  (forall requests : list string,
     let current := Prices.getCurrentTimeframe (timeframe_after requests "1h") in
     In current History.TIMEFRAMES /\
     ApiHistory.interval_of current = current).
Proof.
  assert (S : forall current timeframe,
             (fst (Prices.setTimeframe current timeframe) = true <->
              In timeframe History.TIMEFRAMES) /\
             snd (Prices.setTimeframe current timeframe)
             = if fst (Prices.setTimeframe current timeframe)
               then timeframe else current).
  { intros current timeframe. unfold Prices.setTimeframe, includes.
    destruct (existsb _ _) eqn:E; cbn [fst snd]; (split; [|reflexivity]).
    - split; [intros _ | reflexivity].
      apply existsb_exists in E. destruct E as [x [Hin Hx]].
      apply String.eqb_eq in Hx. now subst.
    - split; [discriminate|]. intro Hin. exfalso.
      assert (T : existsb (String.eqb timeframe) History.TIMEFRAMES = true).
      { apply existsb_exists. exists timeframe. split; [exact Hin|].
        apply String.eqb_refl. }
      unfold History.TIMEFRAMES in T. congruence. }
  split; [exact S|].
  intro requests. cbv zeta. unfold Prices.getCurrentTimeframe.
  assert (I : forall current,
             In current History.TIMEFRAMES ->
             In (timeframe_after requests current) History.TIMEFRAMES).
  { unfold timeframe_after. induction requests as [|t requests IH]; intros current H;
      [exact H|].
    cbn [fold_left]. apply IH.
    destruct (S current t) as [S1 S2]. rewrite S2.
    destruct (fst (Prices.setTimeframe current t)); [now apply S1 | exact H]. }
  assert (H1 : In "1h"%string History.TIMEFRAMES) by (cbn; auto).
  specialize (I _ H1). split; [exact I|].
  unfold ApiHistory.interval_of, ApiHistory.binanceIntervals,
    History.TIMEFRAMES in *. cbn [In] in I.
  repeat (destruct I as [<- | I]; [reflexivity|]). contradiction.
Qed.

(** *** The exchange rate and its cache *)

Lemma rate_cases (response : option jsnum) (now : Z)
    (cache : PriceDisplay.ExchangeRateCache) :
  let answer := PriceDisplay.getUSDToBRLRate response now cache in
  (response = Some (fst answer) /\ PriceDisplay.rate (snd answer) = JNum (fst answer)) \/
  (snd answer = cache /\
   ((truthy (PriceDisplay.rate cache) = true /\
     PriceDisplay.rate cache = JNum (fst answer)) \/
    fst answer = Fin 5.3)).
Proof.
  cbv zeta. unfold PriceDisplay.getUSDToBRLRate.
  destruct (truthy (PriceDisplay.rate cache)) eqn:T.
  - assert (R : PriceDisplay.rate cache = JNum (toNumber (PriceDisplay.rate cache))).
    { destruct (PriceDisplay.rate cache); [reflexivity | discriminate | discriminate]. }
    cbn [andb].
    destruct (now - PriceDisplay.rate_timestamp cache <? PriceDisplay.ttl cache).
    + right. cbn [fst snd]. auto.
    + destruct response as [fetched|]; cbn [fst snd PriceDisplay.rate]; auto.
  - cbn [andb]. destruct response as [fetched|]; cbn [fst snd PriceDisplay.rate]; auto.
Qed.

(** Over any run of calls of [getUSDToBRLRate], starting with an empty
    cache, every rate returned is either 5.3 or a rate the service
    delivered in that call or an earlier one: nothing else is ever
    returned. *)
Theorem exchange_rates_come_from_the_service :
  forall calls : list (option jsnum * Z),
    Forall (fun r => r = Fin 5.3 \/ In (Some r) (map fst calls))
           (fst (rates_returned calls PriceDisplay.exchangeRateCache0)).
Proof.
  intro calls.
  assert (G : forall (cache : PriceDisplay.ExchangeRateCache) (seen : list (option jsnum)),
             (forall r, PriceDisplay.rate cache = JNum r -> In (Some r) seen) ->
             Forall (fun r => r = Fin 5.3 \/ In (Some r) (seen ++ map fst calls))
                    (fst (rates_returned calls cache))).
  { induction calls as [|[response now] calls IH]; intros cache seen Hc.
    - constructor.
    - cbn [rates_returned map fst].
      pose proof (rate_cases response now cache) as C. cbv zeta in C.
      destruct (PriceDisplay.getUSDToBRLRate response now cache) as [r cache'].
      cbn [fst snd] in C.
      specialize (IH cache' (seen ++ [response])).
      destruct (rates_returned calls cache') as [rs cache''].
      cbn [fst] in *. rewrite <- app_assoc in IH. cbn [app] in IH.
      constructor.
      + destruct C as [[-> _] | [_ [[_ R] | ->]]].
        * right. apply in_or_app. right. now left.
        * right. apply in_or_app. left. now apply Hc.
        * now left.
      + apply IH. intros r' Hr'. apply in_or_app.
        destruct C as [[-> R] | [-> _]].
        * right. rewrite R in Hr'. injection Hr' as <-. now left.
        * left. now apply Hc. }
  apply (G PriceDisplay.exchangeRateCache0 []).
  intros r Hr. discriminate.
Qed.




(** *** Simulated candles are well formed *)



Section SimulatedCandles.

Variable random : nat -> Q.
Hypothesis random_unit : forall k, (0 <= random k < 1)%Q.

Variables (price trend : Q).
Hypothesis price_nonneg : (0 <= price)%Q.



End SimulatedCandles.




(** *** Symbols without enough data are skipped *)

Lemma merge_nothing (alerts : AlertSet) :
  mkAlerts (buy alerts ++ buy no_alerts) (sell alerts ++ sell no_alerts)
           (monitoring alerts ++ monitoring no_alerts) = alerts.
Proof.
  destruct alerts as [b s m]. unfold no_alerts. cbn [buy sell monitoring].
  now rewrite !app_nil_r.
Qed.

(** A symbol whose history is empty adds nothing to the result of
    [generateAlertsForMultipleSymbols], and a price entry whose history
    has fewer than 14 candles adds nothing to that of [fetchAlerts]: each
    result is the one for the remaining symbols alone, so that a symbol
    without data neither stops the run nor changes the alerts of the
    others. *)
Theorem symbols_without_data_are_skipped :
  (forall sqrtQ history symbols timeframe,
     Timeframes.generateAlertsForMultipleSymbols sqrtQ history symbols timeframe
     = Timeframes.generateAlertsForMultipleSymbols sqrtQ history
         (filter (fun symbol => negb (alen (history symbol) =? 0)) symbols)
         timeframe) /\
  (forall sqrtQ currentTimeframe history currentPrices,
     Api.fetchAlerts sqrtQ currentTimeframe history currentPrices
     = Api.fetchAlerts sqrtQ currentTimeframe history
         (filter (fun priceData =>
                    negb (alen (history (Api.pd_symbol priceData)) <? 14))
                 currentPrices)).
Proof.
  split.
  - intros sqrtQ history symbols timeframe.
    unfold Timeframes.generateAlertsForMultipleSymbols.
    generalize no_alerts as acc.
    induction symbols as [|s symbols IH]; intro acc; [reflexivity|].
    cbn [fold_left filter].
    destruct (alen (history s) =? 0) eqn:E; cbn [negb].
    + rewrite <- IH. f_equal. cbv zeta.
      assert (N : Timeframes.generateTechnicalAlerts sqrtQ s timeframe (history s)
                  = no_alerts).
      { apply Z.eqb_eq in E. unfold alen in E.
        destruct (history s); [reflexivity | simpl in E; lia]. }
      rewrite N. apply merge_nothing.
    + cbn [fold_left]. apply IH.
  - intros sqrtQ currentTimeframe history currentPrices.
    unfold Api.fetchAlerts.
    generalize no_alerts as acc.
    induction currentPrices as [|pd prices IH]; intro acc; [reflexivity|].
    cbn [fold_left filter].
    destruct (alen (history (Api.pd_symbol pd)) <? 14) eqn:E; cbn [negb].
    + apply IH.
    + cbn [fold_left]. rewrite E. apply IH.
Qed.

(** *** The bound on the outputs of the ADX, on an example *)

(** Twenty-eight valid candles, period 14. *)
Lemma adx_outputs_bounded_or_nan_example :
  let result :=
    calculateADX (map candle_of (repeat (mkQCandle 9.5 10 9 9.5 1000) 28)) 14 in
  Forall entry_ok (adx result) /\
  Forall entry_ok (plusDI result) /\
  Forall entry_ok (minusDI result).
Proof.
  apply (adx_outputs_bounded_or_nan (repeat (mkQCandle 9.5 10 9 9.5 1000) 28) 14).
  - lia.
  - apply Forall_forall. intros c Hc. apply repeat_spec in Hc. subst c.
    unfold valid_ohlc. cbn [q_low q_high q_close].
    split; [discriminate | split; discriminate].
Defined.
